(** * CashBack: the wallet simulation of [app.py], embedded and verified

    The development covers the computational core of [app.py]:
    [parse_order_history], [get_ltv_bracket], [calculate_cashback_for_month],
    [calculate_cashback] and [create_summary_by_ltv].  The pandas grouping of
    [create_monthly_summary] and the Streamlit presentation code are not
    modelled.

    Modelling conventions.
    - Python [str] values are [string]s (code points below 256).
    - Monetary amounts are Python floats in the program; here they are exact
      rationals in canonical form ([Qc]), so rounding and overflow of binary
      floating point are outside the model.  [float('inf')] as a bracket
      bound is the constructor [Inf].  The numbered statements about amounts
      are comparisons, or equalities between values that the program computes
      by one sequence of operations: a sum is taken in the order the program
      takes it, and a bound is put on the value the program compares.  Helper
      lemmas regroup sums where a proof needs it.
    - A raised exception is the [Raise] result of the [res] monad.
    - [for] loops are folds of their body over the iterated list; the
      mutable locals of a loop are the fields of its state record.
    - [re] patterns are values of [regex], run by a backtracking matcher with
      Python's priorities (leftmost, greedy, first alternative first). *)

From Stdlib Require Import ZArith QArith Qcanon Lia Lqa String Ascii List.
From Stdlib Require Import Permutation Sorted.
From stdpp Require Import gmap strings.
Import ListNotations.

Local Open Scope Z_scope.

(* ================================================================== *)
(** * Python runtime fragments *)
(* ================================================================== *)

Module Py.

(** The exceptions the modelled code can raise. *)
Inductive exn : Set := KeyError | IndexError | ValueError.

Inductive res (A : Type) : Type :=
| Ok (a : A)
| Raise (e : exn).
Arguments Ok {A} a.
Arguments Raise {A} e.

Definition bind {A B : Type} (m : res A) (k : A -> res B) : res B :=
  match m with
  | Ok a => k a
  | Raise e => Raise e
  end.

(** [d[key]] on a dict: [KeyError] when the key is absent. *)
Definition getitem {V : Type} (d : gmap string V) (key : string) : res V :=
  match d !! key with
  | Some v => Ok v
  | None => Raise KeyError
  end.

(** A [for] loop whose body may raise: the first exception leaves the loop. *)
Fixpoint for_each {S A : Type} (body : S -> A -> res S) (l : list A) (s : S)
  : res S :=
  match l with
  | [] => Ok s
  | x :: l' => bind (body s x) (for_each body l')
  end.

(** [[f(x) for x in l]] where [f] may raise. *)
Fixpoint map_each {A B : Type} (f : A -> res B) (l : list A) : res (list B) :=
  match l with
  | [] => Ok []
  | x :: l' => bind (f x) (fun y => bind (map_each f l') (fun ys => Ok (y :: ys)))
  end.

(** [enumerate(l, start)]. *)
Fixpoint enumerate {A : Type} (start : Z) (l : list A) : list (Z * A) :=
  match l with
  | [] => []
  | x :: l' => (start, x) :: enumerate (start + 1) l'
  end.

(** Numbers. *)
Abbreviation num := Qc.
Definition of_Z (z : Z) : num := Q2Qc (inject_Z z).

Definition ltb (a b : num) : bool := if Qclt_le_dec a b then true else false.
Definition leb (a b : num) : bool := if Qclt_le_dec b a then false else true.

(** [min(a, b)]: the first argument unless the second is strictly smaller. *)
Definition min (a b : num) : num := if ltb b a then b else a.

(** [sum(xs)]: a left fold from [0]. *)
Definition sum (xs : list num) : num := fold_left Qcplus xs (of_Z 0).

(** [list.sort(key=...)] on string keys: the stable sort.  An element is
    placed before the first later element whose key is not strictly
    smaller, which is the unique stable arrangement. *)
Fixpoint insert_by {A : Type} (key : A -> string) (x : A) (l : list A) : list A :=
  match l with
  | [] => [x]
  | y :: l' =>
      if String.ltb (key y) (key x) then y :: insert_by key x l'
      else x :: y :: l'
  end.

Definition sort_by {A : Type} (key : A -> string) (l : list A) : list A :=
  fold_right (insert_by key) [] l.

(** Decimal digits. *)
Definition is_digit (c : ascii) : bool :=
  (48 <=? Z.of_N (N_of_ascii c)) && (Z.of_N (N_of_ascii c) <=? 57).

Definition digit_val (c : ascii) : Z := Z.of_N (N_of_ascii c) - 48.

(** Value of a run of decimal digits, most significant first. *)
Definition digits_val (s : string) : Z :=
  fold_left (fun acc c => 10 * acc + digit_val c) (list_ascii_of_string s) 0.

Definition all_digits (s : string) : bool :=
  forallb is_digit (list_ascii_of_string s).

(** [s.replace(',', '')]. *)
Fixpoint remove_commas (s : string) : string :=
  match s with
  | EmptyString => EmptyString
  | String c s' =>
      if Ascii.eqb c ","%char then remove_commas s'
      else String c (remove_commas s')
  end.

(** Splits at the first ['.']: the text before it and, when there is a
    point, the text after it. *)
Fixpoint split_point (s : string) : string * option string :=
  match s with
  | EmptyString => (EmptyString, None)
  | String c s' =>
      if Ascii.eqb c "."%char then (EmptyString, Some s')
      else let '(a, b) := split_point s' in (String c a, b)
  end.

(** [float(s)] on the texts the numeric patterns of the parser can hand it
    (digits with at most one decimal point): the exact decimal value, and
    [ValueError] when the text has no digit at all (Python rejects [''] and
    ['.']).  Any other character is rejected too. *)
Definition float (s : string) : res num :=
  let '(ip, fp) := split_point s in
  let fp := match fp with Some f => f | None => EmptyString end in
  if all_digits ip && all_digits fp
     && negb (Nat.eqb (String.length ip + String.length fp) 0)
  then Ok (Q2Qc (inject_Z (digits_val (ip ++ fp))
                 / inject_Z (10 ^ Z.of_nat (String.length fp))))
  else Raise ValueError.

(** [int(s)] on a digit run with optional leading blanks. *)
Fixpoint lstrip (s : string) : string :=
  match s with
  | String c s' => if Ascii.eqb c " "%char then lstrip s' else s
  | EmptyString => EmptyString
  end.

Definition int (s : string) : Z := digits_val (lstrip s).

End Py.

Export Py (res, Ok, Raise, exn, KeyError, IndexError, ValueError).

#[global] Instance res_mret : MRet res := @Ok.
#[global] Instance res_mbind : MBind res := fun A B k m => Py.bind m k.

(* ================================================================== *)
(** * The [re] patterns used by the program *)
(* ================================================================== *)

Module Re.

(** Pattern syntax: literal text, a greedy repetition of a character class
    with bounds [{lo,hi}], concatenation, ordered alternation and a
    capturing group.  Every quantifier of the program's patterns applies to
    a single character class. *)
Inductive regex : Type :=
| Lit (s : string)
| Rep (p : ascii -> bool) (lo : nat) (hi : option nat)
| Cat (r1 r2 : regex)
| Alt (r1 r2 : regex)
| Grp (r : regex).

Definition One (p : ascii -> bool) : regex := Rep p 1 (Some 1%nat).
Definition Plus (p : ascii -> bool) : regex := Rep p 1 None.
Definition Star (p : ascii -> bool) : regex := Rep p 0 None.
Definition Opt (p : ascii -> bool) : regex := Rep p 0 (Some 1%nat).

Fixpoint strip_prefix (l s : string) : option string :=
  match l with
  | EmptyString => Some s
  | String a l' =>
      match s with
      | String b s' => if Ascii.eqb a b then strip_prefix l' s' else None
      | EmptyString => None
      end
  end.

Fixpoint take (n : nat) (s : string) : string :=
  match n, s with
  | S n', String c s' => String c (take n' s')
  | _, _ => EmptyString
  end.

(** The text consumed between input [s] and its suffix [rest]. *)
Definition consumed (s rest : string) : string :=
  take (String.length s - String.length rest) s.

Definition room (hi : option nat) : bool :=
  match hi with
  | Some O => false
  | _ => true
  end.

Definition less (hi : option nat) : option nat :=
  match hi with
  | Some n => Some (Nat.pred n)
  | None => None
  end.

(** Greedy repetition: take one more character when possible, and only
    when the rest then fails fall back to stopping here. *)
Fixpoint rep {A : Type} (p : ascii -> bool) (lo : nat) (hi : option nat)
    (s : string) (k : string -> option A) : option A :=
  let stop := match lo with O => k s | S _ => None end in
  match s with
  | String c s' =>
      if p c && room hi then
        match rep p (Nat.pred lo) (less hi) s' k with
        | Some a => Some a
        | None => stop
        end
      else stop
  | EmptyString => stop
  end.

(** Backtracking matcher in continuation style.  [gs] collects the texts of
    the capturing groups in the order the groups close. *)
Fixpoint run {A : Type} (r : regex) (s : string) (gs : list string)
    (k : string -> list string -> option A) : option A :=
  match r with
  | Lit l =>
      match strip_prefix l s with
      | Some s' => k s' gs
      | None => None
      end
  | Rep p lo hi => rep p lo hi s (fun s' => k s' gs)
  | Cat r1 r2 => run r1 s gs (fun s' gs' => run r2 s' gs' k)
  | Alt r1 r2 =>
      match run r1 s gs k with
      | Some a => Some a
      | None => run r2 s gs k
      end
  | Grp r1 => run r1 s gs (fun s' gs' => k s' (gs' ++ [consumed s s']))
  end.

(** [re.match]: a match anchored at the start; yields the unmatched rest
    and the groups. *)
Definition match_ (r : regex) (s : string) : option (string * list string) :=
  run r s [] (fun s' gs => Some (s', gs)).

(** [re.search]: the groups of the leftmost match. *)
Fixpoint search (r : regex) (s : string) : option (list string) :=
  match run r s [] (fun _ gs => Some gs) with
  | Some gs => Some gs
  | None =>
      match s with
      | String _ s' => search r s'
      | EmptyString => None
      end
  end.

(** [re.findall] for a pattern without groups that never matches the empty
    text: the non-overlapping matches, left to right.  [skip] counts the
    characters of the previous match still to be passed over. *)
Fixpoint findall_from (r : regex) (skip : nat) (s : string) : list string :=
  match s with
  | EmptyString => []
  | String _ s' =>
      match skip with
      | S n => findall_from r n s'
      | O =>
          match run r s [] (fun rest _ => Some rest) with
          | Some rest =>
              let m := consumed s rest in
              m :: findall_from r (Nat.pred (String.length m)) s'
          | None => findall_from r 0 s'
          end
      end
  end.

Definition findall (r : regex) (s : string) : list string :=
  findall_from r 0 s.

(** Character classes. *)
Definition code (c : ascii) : Z := Z.of_N (N_of_ascii c).
Definition between (lo hi : Z) (c : ascii) : bool :=
  (lo <=? code c) && (code c <=? hi).
Definition chr_is (n : Z) (c : ascii) : bool := code c =? n.

Definition dquote : Z := 34.
Definition squote : Z := 39.

(** [\d] *)
Definition digit : ascii -> bool := between 48 57.
(** [\s] on [str] patterns: the Unicode white space below code point 256. *)
Definition space (c : ascii) : bool :=
  between 9 13 c || between 28 32 c || chr_is 133 c || chr_is 160 c.
(** the class of the two quote characters, double and single *)
Definition quote (c : ascii) : bool := chr_is dquote c || chr_is squote c.
(** the negated class of the two quote characters *)
Definition not_quote (c : ascii) : bool := negb (quote c).
(** [[^}]] *)
Definition not_rbrace (c : ascii) : bool := negb (chr_is 125 c).
(** [[#A-Z0-9]] *)
Definition id_char (c : ascii) : bool :=
  chr_is 35 c || between 65 90 c || between 48 57 c.
(** [[\d,]] *)
Definition digit_or_comma (c : ascii) : bool := digit c || chr_is 44 c.

(** Concatenation and ordered alternation of several patterns. *)
Definition cat (rs : list regex) : regex := fold_right Cat (Lit EmptyString) rs.

Fixpoint alt (r : regex) (rs : list regex) : regex :=
  match rs with
  | [] => r
  | r' :: rs' => Alt r (alt r' rs')
  end.

End Re.

Import Re.

(* ================================================================== *)
(** * Calendar dates: the part of [datetime] the program uses *)
(* ================================================================== *)

Module Dt.

(** A [datetime] produced by [strptime(_, '%Y-%m-%d')]: the time of day is
    midnight, so only the calendar date is kept. *)
Record datetime : Set := mkdate { year : Z; month : Z; day : Z }.

Definition is_leap (y : Z) : bool :=
  (y mod 4 =? 0) && (negb (y mod 100 =? 0) || (y mod 400 =? 0)).

Definition days_in_month (y m : Z) : Z :=
  if m =? 2 then (if is_leap y then 29 else 28)
  else if (m =? 4) || (m =? 6) || (m =? 9) || (m =? 11) then 30
  else 31.

(** Number of days before January 1st of year [y]. *)
Definition days_before_year (y : Z) : Z :=
  let y' := y - 1 in
  y' * 365 + y' / 4 - y' / 100 + y' / 400.

(** Number of days in year [y] before the first day of month [m]. *)
Definition days_before_month (y m : Z) : Z :=
  nth (Z.to_nat (m - 1)) [0; 31; 59; 90; 120; 151; 181; 212; 243; 273; 304; 334] 0
  + (if (2 <? m) && is_leap y then 1 else 0).

(** [date.toordinal()]: January 1st of year 1 is day 1. *)
Definition toordinal (d : datetime) : Z :=
  days_before_year (year d) + days_before_month (year d) (month d) + day d.

(** [(a - b).days] for two midnights. *)
Definition days_between (a b : datetime) : Z := toordinal a - toordinal b.

(** The range checks of the [datetime] constructor. *)
Definition valid_ymd (y m d : Z) : bool :=
  (1 <=? y) && (y <=? 9999) && (1 <=? m) && (m <=? 12)
  && (1 <=? d) && (d <=? days_in_month y m).

(** The pattern [_strptime] builds for the format ['%Y-%m-%d']:
    [(?P<Y>\d\d\d\d)-(?P<m>1[0-2]|0[1-9]|[1-9])-(?P<d>3[0-1]|[1-2]\d|0[1-9]|[1-9]| [1-9])]. *)
Definition format_regex : regex :=
  cat [ Grp (cat [One digit; One digit; One digit; One digit]);
        Lit "-";
        Grp (alt (cat [Lit "1"; One (between 48 50)])
                 [cat [Lit "0"; One (between 49 57)];
                  One (between 49 57)]);
        Lit "-";
        Grp (alt (cat [Lit "3"; One (between 48 49)])
                 [cat [One (between 49 50); One digit];
                  cat [Lit "0"; One (between 49 57)];
                  One (between 49 57);
                  cat [Lit " "; One (between 49 57)]]) ].

(** [datetime.strptime(s, '%Y-%m-%d')]; [None] stands for the [ValueError]
    raised when the text does not match, when unconverted text remains, or
    when the fields are not a date of the calendar. *)
Definition strptime (s : string) : option datetime :=
  match match_ format_regex s with
  | Some (EmptyString, [Y; m; d]) =>
      let y := Py.int Y in
      let m := Py.int m in
      let d := Py.int d in
      if valid_ymd y m d then Some (mkdate y m d) else None
  | _ => None
  end.

Definition digit_char (n : Z) : ascii := ascii_of_N (Z.to_N (48 + n mod 10)).

(** A number written with [w] decimal digits, zero padded. *)
Fixpoint zero_padded (w : nat) (n : Z) : string :=
  match w with
  | O => EmptyString
  | S w' => (zero_padded w' (n / 10) ++ String (digit_char n) EmptyString)%string
  end.

(** [d.strftime('%Y-%m')]: four digits of year, two of month.  (For years
    below 1000 some C libraries print the year without padding; the two
    drivers compare and store the same text either way.) *)
Definition strftime_Ym (d : datetime) : string :=
  (zero_padded 4 (year d) ++ "-" ++ zero_padded 2 (month d))%string.

(** The zero-padded [YYYY-MM-DD] text of a date. *)
Definition isoformat (d : datetime) : string :=
  (zero_padded 4 (year d) ++ "-" ++ zero_padded 2 (month d) ++ "-"
   ++ zero_padded 2 (day d))%string.

End Dt.

Import Dt.

(* ================================================================== *)
(** * [parse_order_history] *)
(* ================================================================== *)

Record order : Type := mkorder {
  order_id : string;
  order_date : string;
  silver_revenue : Py.num;
  gold_revenue : Py.num;
  promo_amount : Py.num
}.

(** [\{:order_id[^}]+\}] *)
Definition order_pattern : regex :=
  cat [Lit "{:order_id"; Plus not_rbrace; Lit "}"].

(** [:order_id\s+Q?([#A-Z0-9]+)Q?] where [Q] is the class of the two quote
    characters. *)
Definition order_id_pattern : regex :=
  cat [Lit ":order_id"; Plus space; Opt quote; Grp (Plus id_char); Opt quote].

(** [:order_date\s+#t\s+Q([^Q]+)Q] with [Q] as above. *)
Definition order_date_pattern : regex :=
  cat [Lit ":order_date"; Plus space; Lit "#t"; Plus space; One quote;
       Grp (Plus not_quote); One quote].

(** [<marker>\s+( [\d,]+ \.? \d* ) M?] (written here with blanks between
    the parts) for the three revenue markers. *)
Definition amount_pattern (marker : string) : regex :=
  cat [Lit marker; Plus space;
       Grp (cat [Plus digit_or_comma; Opt (chr_is 46); Star digit]);
       Opt (chr_is 77)].

(** [m.group(1)] of a search with one group. *)
Definition group1 (r : regex) (s : string) : option string :=
  match search r s with
  | Some (g :: _) => Some g
  | _ => None
  end.

(** [float(m.group(1).replace(',', '')) if m else 0.0] *)
Definition amount_field (marker : string) (order_str : string) : res Py.num :=
  match group1 (amount_pattern marker) order_str with
  | Some g => Py.float (Py.remove_commas g)
  | None => Ok (Py.of_Z 0)
  end.

(** The body of the loop over the matched sub-records. *)
Definition parse_order (order_str : string) : res order :=
  let oid := match group1 order_id_pattern order_str with
             | Some g => g
             | None => "N/A"%string
             end in
  let odate := match group1 order_date_pattern order_str with
               | Some g => g
               | None => "N/A"%string
               end in
  silver ← amount_field ":silver_revenue" order_str;
  gold ← amount_field ":gold_revenue" order_str;
  promo ← amount_field ":promo_amount" order_str;
  Ok (mkorder oid odate silver gold promo).

Definition parse_order_history (order_history_str : string) : res (list order) :=
  Py.map_each parse_order (findall order_pattern order_history_str).

(* ================================================================== *)
(** * [get_ltv_bracket] *)
(* ================================================================== *)

(** A bracket bound: a number or [float('inf')]. *)
Inductive bound : Type :=
| Fin (q : Py.num)
| Inf.

Record bracket : Type := mkbracket {
  br_min : Py.num;
  br_max : bound;
  br_label : string
}.

(** [ltv < b] for a bound [b]. *)
Definition lt_bound (ltv : Py.num) (b : bound) : bool :=
  match b with
  | Fin q => Py.ltb ltv q
  | Inf => true
  end.

(** The [for] loop of [get_ltv_bracket]: the label at the first [return]. *)
Fixpoint first_bracket (ltv : Py.num) (brackets : list bracket) : option string :=
  match brackets with
  | [] => None
  | b :: rest =>
      if lt_bound ltv (br_max b) then Some (br_label b)
      else first_bracket ltv rest
  end.

(** [brackets[-1]['label']] after the loop raises [IndexError] on an empty
    list. *)
Definition get_ltv_bracket (ltv : Py.num) (brackets : list bracket) : res string :=
  match first_bracket ltv brackets with
  | Some label => Ok label
  | None =>
      match last brackets with
      | Some b => Ok (br_label b)
      | None => Raise IndexError
      end
  end.

(* ================================================================== *)
(** * The wallet ledger *)
(* ================================================================== *)

(** Per-bracket rates, in percent. *)
Record tier : Type := mktier {
  silver_cb : Py.num;
  gold_cb : Py.num;
  redeem_pct : Py.num
}.

(** A wallet transaction.  [calculate_cashback] also stores the expiry
    window in the entry (and never reads it); the month driver does not. *)
Record txn : Type := mktxn {
  balance : Py.num;
  earned_date : datetime;
  expiry_days_field : option Z
}.

(** [[txn for txn in wallet if (order_date - txn['earned_date']).days <= expiry_days]] *)
Definition expire (order_date : datetime) (expiry_days : Z) (wallet : list txn)
  : list txn :=
  List.filter (fun t => days_between order_date (earned_date t) <=? expiry_days)
              wallet.

(** [sum(txn['balance'] for txn in wallet)] *)
Definition wallet_sum (wallet : list txn) : Py.num := Py.sum (map balance wallet).

(** The FIFO deduction loop.  It updates the entries in place, oldest first,
    and stops at the first entry reached with nothing left to deduct. *)
Fixpoint deduct (remaining : Py.num) (wallet : list txn) : list txn :=
  match wallet with
  | [] => []
  | t :: rest =>
      if Py.leb remaining (Py.of_Z 0) then t :: rest
      else
        let deduction := Py.min (balance t) remaining in
        mktxn (balance t - deduction)%Qc (earned_date t) (expiry_days_field t)
        :: deduct (remaining - deduction)%Qc rest
  end.

(* ================================================================== *)
(** * Pricing one order *)
(* ================================================================== *)

(** The locals of the loop body after one valid order, with the wallet and
    the cumulative LTV as the body leaves them. *)
Record pricing : Type := mkpricing {
  p_bracket : string;
  p_wallet_balance : Py.num;
  p_order_value : Py.num;
  p_silver_cashback : Py.num;
  p_gold_cashback : Py.num;
  p_total_cashback : Py.num;
  p_max_usable : option Py.num;
  p_coins_used : Py.num;
  p_amount_paid : Py.num;
  p_wallet : list txn;
  p_ltv : Py.num
}.

(** The statements both drivers run for an order whose date parsed, from the
    bracket lookup to the LTV update (the two copies in the source differ
    only in the extra field of the appended entry, here [tag]).  [order_num]
    is the loop's own order counter. *)
Definition price_order
    (cashback_config : gmap string tier) (ltv_brackets : list bracket)
    (expiry_days : Z) (tag : option Z)
    (order_num : Z) (o : order) (order_date : datetime)
    (wallet_transactions : list txn) (cumulative_ltv : Py.num) : res pricing :=
  current_bracket ← get_ltv_bracket cumulative_ltv ltv_brackets;
  config ← Py.getitem cashback_config current_bracket;
  let wallet := expire order_date expiry_days wallet_transactions in
  let wallet_balance := wallet_sum wallet in
  let order_value := (silver_revenue o + gold_revenue o)%Qc in
  let silver_cashback := (silver_revenue o * (silver_cb config / Py.of_Z 100))%Qc in
  let gold_cashback := (gold_revenue o * (gold_cb config / Py.of_Z 100))%Qc in
  let total_cashback := (silver_cashback + gold_cashback)%Qc in
  let max_usable := (order_value * (redeem_pct config / Py.of_Z 100))%Qc in
  let coins_used :=
    if 1 <? order_num then Py.min wallet_balance max_usable else Py.of_Z 0 in
  let wallet :=
    if 1 <? order_num then deduct coins_used wallet else wallet in
  let wallet :=
    if Py.ltb (Py.of_Z 0) total_cashback
    then wallet ++ [mktxn total_cashback order_date tag]
    else wallet in
  let amount_paid := (order_value - coins_used - promo_amount o)%Qc in
  Ok {| p_bracket := current_bracket;
        p_wallet_balance := wallet_balance;
        p_order_value := order_value;
        p_silver_cashback := silver_cashback;
        p_gold_cashback := gold_cashback;
        p_total_cashback := total_cashback;
        p_max_usable := if 1 <? order_num then Some max_usable else None;
        p_coins_used := coins_used;
        p_amount_paid := amount_paid;
        p_wallet := wallet;
        p_ltv := (cumulative_ltv + amount_paid)%Qc |}.

(** A row of the input table. *)
Record row : Type := mkrow {
  customer_id : string;
  order_history : string
}.

(* ================================================================== *)
(** * [calculate_cashback_for_month] *)
(* ================================================================== *)

(** One result dict of the month driver. *)
Record bucket : Type := mkbucket {
  total_silver_rev : Py.num;
  total_gold_rev : Py.num;
  total_promo : Py.num;
  total_silver_cb : Py.num;
  total_gold_cb : Py.num;
  total_coins_used : Py.num;
  total_coin_balance : Py.num;
  unique_customers : gset string
}.

Definition empty_bucket : bucket :=
  mkbucket (Py.of_Z 0) (Py.of_Z 0) (Py.of_Z 0) (Py.of_Z 0) (Py.of_Z 0)
           (Py.of_Z 0) (Py.of_Z 0) ∅.

(** [results]: one bucket per bracket label when [use_ltv], one bucket
    otherwise. *)
Definition results (use_ltv : bool) : Type :=
  if use_ltv then gmap string bucket else bucket.

Definition init_results (use_ltv : bool) (ltv_brackets : list bracket)
  : results use_ltv :=
  match use_ltv return results use_ltv with
  | true => foldl (fun m b => <[br_label b := empty_bucket]> m) ∅ ltv_brackets
  | false => empty_bucket
  end.

(** The seven [+=] and [.add] statements of a target-month order. *)
Definition add_order (b : bucket) (cid : string) (o : order) (p : pricing)
  : bucket :=
  {| total_silver_rev := (total_silver_rev b + silver_revenue o)%Qc;
     total_gold_rev := (total_gold_rev b + gold_revenue o)%Qc;
     total_promo := (total_promo b + promo_amount o)%Qc;
     total_silver_cb := (total_silver_cb b + p_silver_cashback p)%Qc;
     total_gold_cb := (total_gold_cb b + p_gold_cashback p)%Qc;
     total_coins_used := (total_coins_used b + p_coins_used p)%Qc;
     total_coin_balance := total_coin_balance b;
     unique_customers := unique_customers b ∪ {[cid]} |}.

Definition add_coin_balance (b : bucket) (final_wallet : Py.num) : bucket :=
  {| total_silver_rev := total_silver_rev b;
     total_gold_rev := total_gold_rev b;
     total_promo := total_promo b;
     total_silver_cb := total_silver_cb b;
     total_gold_cb := total_gold_cb b;
     total_coins_used := total_coins_used b;
     total_coin_balance := (total_coin_balance b + final_wallet)%Qc;
     unique_customers := unique_customers b |}.

(** [results[label][...] += ...] when [use_ltv], [results[...] += ...]
    otherwise. *)
Definition update_results (use_ltv : bool) (label : string)
    (f : bucket -> bucket) : results use_ltv -> res (results use_ltv) :=
  match use_ltv return results use_ltv -> res (results use_ltv) with
  | true => fun m => b ← Py.getitem m label; Ok (<[label := f b]> m)
  | false => fun b => Ok (f b)
  end.

(** The statements under [if customer_contributed]: the final wallet goes
    to the bucket of the bracket the customer ended in, or to the one bucket. *)
Definition add_final_balance (use_ltv : bool) (ltv_brackets : list bracket)
    (cumulative_ltv final_wallet : Py.num)
  : results use_ltv -> res (results use_ltv) :=
  match use_ltv return results use_ltv -> res (results use_ltv) with
  | true => fun m =>
      final_bracket ← get_ltv_bracket cumulative_ltv ltv_brackets;
      b ← Py.getitem m final_bracket;
      Ok (<[final_bracket := add_coin_balance b final_wallet]> m)
  | false => fun b => Ok (add_coin_balance b final_wallet)
  end.

(** The variables the inner loop of the month driver updates. *)
Record month_state (use_ltv : bool) : Type := mkmonth {
  m_results : results use_ltv;
  m_wallet : list txn;
  m_ltv : Py.num;
  m_order_num : Z;
  m_contributed : bool
}.
Arguments mkmonth {use_ltv}.
Arguments m_results {use_ltv}.
Arguments m_wallet {use_ltv}.
Arguments m_ltv {use_ltv}.
Arguments m_order_num {use_ltv}.
Arguments m_contributed {use_ltv}.

Section MonthDriver.

Variable target_month : string.
Variable cashback_config : gmap string tier.
Variable ltv_brackets : list bracket.
Variable expiry_days : Z.
Variable use_ltv : bool.

(** Body of [for order in order_history]. *)
Definition month_order (cid : string) (st : month_state use_ltv) (o : order)
  : res (month_state use_ltv) :=
  match strptime (order_date o) with
  | None => Ok st
  | Some order_date =>
      let order_num := m_order_num st + 1 in
      let month_key := strftime_Ym order_date in
      let is_target_month := String.eqb month_key target_month in
      p ← price_order cashback_config ltv_brackets expiry_days None
            order_num o order_date (m_wallet st) (m_ltv st);
      if is_target_month then
        r ← update_results use_ltv (p_bracket p)
              (fun b => add_order b cid o p) (m_results st);
        Ok (mkmonth r (p_wallet p) (p_ltv p) order_num true)
      else
        Ok (mkmonth (m_results st) (p_wallet p) (p_ltv p) order_num
                    (m_contributed st))
  end.

(** One customer, from the parsed order list on. *)
Definition month_customer (cid : string) (orders : list order)
    (r : results use_ltv) : res (results use_ltv) :=
  let order_history := Py.sort_by order_date orders in
  st ← Py.for_each (month_order cid) order_history
         (mkmonth r [] (Py.of_Z 0) 0 false);
  let final_wallet := wallet_sum (m_wallet st) in
  if m_contributed st then
    add_final_balance use_ltv ltv_brackets (m_ltv st) final_wallet (m_results st)
  else Ok (m_results st).

(** Body of [for idx, row in df.iterrows()]. *)
Definition month_row (r : results use_ltv) (rw : row) : res (results use_ltv) :=
  orders ← parse_order_history (order_history rw);
  month_customer (customer_id rw) orders r.

Definition calculate_cashback_for_month (df : list row) : res (results use_ltv) :=
  Py.for_each month_row df (init_results use_ltv ltv_brackets).

End MonthDriver.

(* ================================================================== *)
(** * [calculate_cashback] *)
(* ================================================================== *)

(** A row of [monthly_results], the per-order trace. *)
Record trace_row : Type := mktrace {
  t_customer_id : string;
  t_month : string;
  t_order_date : datetime;
  t_ltv_bracket : string;
  t_silver_rev : Py.num;
  t_gold_rev : Py.num;
  t_silver_cb : Py.num;
  t_gold_cb : Py.num;
  t_coins_used : Py.num;
  t_wallet_balance : Py.num
}.

(** The value stored in [customer_results] for one customer. *)
Record customer_result : Type := mkresult {
  final_ltv : Py.num;
  c_total_silver_rev : Py.num;
  c_total_gold_rev : Py.num;
  repeat_revenue : Py.num;
  c_total_promo : Py.num;
  c_total_silver_cb : Py.num;
  c_total_gold_cb : Py.num;
  c_total_coins_used : Py.num;
  final_wallet_balance : Py.num;
  num_orders : Z
}.

(** The variables the inner loop of [calculate_cashback] updates;
    [f_monthly_results] is the list shared by all customers. *)
Record full_state : Type := mkfull {
  f_wallet : list txn;
  f_ltv : Py.num;
  f_total_silver_rev : Py.num;
  f_total_gold_rev : Py.num;
  f_total_promo : Py.num;
  f_total_silver_cb : Py.num;
  f_total_gold_cb : Py.num;
  f_total_coins_used : Py.num;
  f_repeat_revenue : Py.num;
  f_monthly_results : list trace_row
}.

Section FullDriver.

Variable cashback_config : gmap string tier.
Variable ltv_brackets : list bracket.
Variable expiry_days : Z.

(** Body of [for order_num, order in enumerate(order_history, 1)]. *)
Definition full_order (cid : string) (st : full_state) (io : Z * order)
  : res full_state :=
  let '(order_num, o) := io in
  match strptime (order_date o) with
  | None => Ok st
  | Some order_date =>
      p ← price_order cashback_config ltv_brackets expiry_days
            (Some expiry_days) order_num o order_date (f_wallet st) (f_ltv st);
      let repeat_revenue :=
        if 1 <? order_num then (f_repeat_revenue st + p_order_value p)%Qc
        else f_repeat_revenue st in
      let month_key := strftime_Ym order_date in
      Ok {| f_wallet := p_wallet p;
            f_ltv := p_ltv p;
            f_total_silver_rev := (f_total_silver_rev st + silver_revenue o)%Qc;
            f_total_gold_rev := (f_total_gold_rev st + gold_revenue o)%Qc;
            f_total_promo := (f_total_promo st + promo_amount o)%Qc;
            f_total_silver_cb := (f_total_silver_cb st + p_silver_cashback p)%Qc;
            f_total_gold_cb := (f_total_gold_cb st + p_gold_cashback p)%Qc;
            f_total_coins_used := (f_total_coins_used st + p_coins_used p)%Qc;
            f_repeat_revenue := repeat_revenue;
            f_monthly_results :=
              f_monthly_results st ++
              [ {| t_customer_id := cid;
                   t_month := month_key;
                   t_order_date := order_date;
                   t_ltv_bracket := p_bracket p;
                   t_silver_rev := silver_revenue o;
                   t_gold_rev := gold_revenue o;
                   t_silver_cb := p_silver_cashback p;
                   t_gold_cb := p_gold_cashback p;
                   t_coins_used := p_coins_used p;
                   t_wallet_balance := wallet_sum (p_wallet p) |} ] |}
  end.

Definition init_full (monthly_results : list trace_row) : full_state :=
  mkfull [] (Py.of_Z 0) (Py.of_Z 0) (Py.of_Z 0) (Py.of_Z 0) (Py.of_Z 0)
         (Py.of_Z 0) (Py.of_Z 0) (Py.of_Z 0) monthly_results.

(** One customer, from the parsed order list on: the record stored under
    the customer's id and the trace extended by the customer's rows. *)
Definition full_customer (cid : string) (orders : list order)
    (monthly_results : list trace_row)
  : res (customer_result * list trace_row) :=
  let order_history := Py.sort_by order_date orders in
  st ← Py.for_each (full_order cid) (Py.enumerate 1 order_history)
         (init_full monthly_results);
  let final_wallet := wallet_sum (f_wallet st) in
  Ok ({| final_ltv := f_ltv st;
         c_total_silver_rev := f_total_silver_rev st;
         c_total_gold_rev := f_total_gold_rev st;
         repeat_revenue := f_repeat_revenue st;
         c_total_promo := f_total_promo st;
         c_total_silver_cb := f_total_silver_cb st;
         c_total_gold_cb := f_total_gold_cb st;
         c_total_coins_used := f_total_coins_used st;
         final_wallet_balance := final_wallet;
         num_orders := Z.of_nat (length order_history) |},
      f_monthly_results st).

(** Body of [for idx, row in df.iterrows()]. *)
Definition full_row (acc : gmap string customer_result * list trace_row)
    (rw : row) : res (gmap string customer_result * list trace_row) :=
  let '(customer_results, monthly_results) := acc in
  orders ← parse_order_history (order_history rw);
  '(rec, monthly_results) ← full_customer (customer_id rw) orders monthly_results;
  Ok (<[customer_id rw := rec]> customer_results, monthly_results).

Definition calculate_cashback (df : list row)
  : res (gmap string customer_result * list trace_row) :=
  Py.for_each full_row df (∅, []).

End FullDriver.

(* ================================================================== *)
(** * [create_summary_by_ltv] *)
(* ================================================================== *)

(** A row of the summary table. *)
Record summary_row : Type := mksummary {
  s_LTV_Bracket : string;
  s_Users : Z;
  s_Gold_Revenue : Py.num;
  s_Silver_Revenue : Py.num;
  s_Repeat_Revenue : Py.num;
  s_Actual_Promo : Py.num;
  s_Silver_CB : Py.num;
  s_Gold_CB : Py.num;
  s_CB_Redeemed : Py.num;
  s_Total_Discount : Py.num;
  s_Coin_Balance : Py.num
}.

(** [[x for x in l if cond(x)]] where the condition may raise. *)
Fixpoint filter_each {A : Type} (cond : A -> res bool) (l : list A)
  : res (list A) :=
  match l with
  | [] => Ok []
  | x :: l' =>
      c ← cond x;
      xs ← filter_each cond l';
      Ok (if c : bool then x :: xs else xs)
  end.

(** The dict comprehension of the loop body.  The items of the dict are
    taken in the order of [map_to_list]; the length and the exact sums
    computed from them do not depend on the order. *)
Definition bracket_customers
    (customer_results : gmap string customer_result)
    (ltv_brackets : list bracket) (b : bracket)
  : res (list (string * customer_result)) :=
  filter_each (fun item =>
                 label ← get_ltv_bracket (final_ltv item.2) ltv_brackets;
                 Ok (String.eqb label (br_label b)))
              (map_to_list customer_results).

(** [sum(d[field] for d in bracket_customers.values())] *)
Definition column (field : customer_result -> Py.num)
    (customers : list (string * customer_result)) : Py.num :=
  Py.sum (map (fun item => field item.2) customers).

(** The dict appended for one bracket. *)
Definition summary_row_of (b : bracket)
    (customers : list (string * customer_result)) : summary_row :=
  match customers with
  | [] =>
      mksummary (br_label b) 0 (Py.of_Z 0) (Py.of_Z 0) (Py.of_Z 0) (Py.of_Z 0)
                (Py.of_Z 0) (Py.of_Z 0) (Py.of_Z 0) (Py.of_Z 0) (Py.of_Z 0)
  | _ :: _ =>
      {| s_LTV_Bracket := br_label b;
         s_Users := Z.of_nat (length customers);
         s_Gold_Revenue := column c_total_gold_rev customers;
         s_Silver_Revenue := column c_total_silver_rev customers;
         s_Repeat_Revenue := column repeat_revenue customers;
         s_Actual_Promo := column c_total_promo customers;
         s_Silver_CB := column c_total_silver_cb customers;
         s_Gold_CB := column c_total_gold_cb customers;
         s_CB_Redeemed := column c_total_coins_used customers;
         s_Total_Discount :=
           column (fun d => (c_total_promo d + c_total_coins_used d)%Qc)
                  customers;
         s_Coin_Balance := column final_wallet_balance customers |}
  end.

(** The rows of the returned table, one per iteration of
    [for bracket in ltv_brackets]. *)
Definition create_summary_by_ltv
    (customer_results : gmap string customer_result)
    (ltv_brackets : list bracket) : res (list summary_row) :=
  Py.for_each
    (fun summary b =>
       customers ← bracket_customers customer_results ltv_brackets b;
       Ok (summary ++ [summary_row_of b customers]))
    ltv_brackets [].

(* ================================================================== *)
(** * Vocabulary of the statements *)
(* ================================================================== *)

(** The bound [b] is strictly greater than [v]. *)
Definition exceeds (b : bound) (v : Py.num) : Prop :=
  match b with
  | Fin q => (v < q)%Qc
  | Inf => True
  end.

(** The entry [t] with its balance replaced. *)
Definition set_balance (t : txn) (b : Py.num) : txn :=
  mktxn b (earned_date t) (expiry_days_field t).

(** [a] may stand before [b] in a list sorted by [key]. *)
Definition key_le {A : Type} (key : A -> string) (a b : A) : Prop :=
  String.leb (key a) (key b) = true.

(** The date of the order parses. *)
Definition valid (o : order) : bool :=
  match strptime (order_date o) with
  | Some _ => true
  | None => false
  end.

Definition valid_orders (l : list order) : list order := List.filter valid l.

(** The parsed dates of the orders whose date parses, in list order. *)
Definition valid_dates (l : list order) : list datetime :=
  omap (fun o => strptime (order_date o)) l.

Definition order_value (o : order) : Py.num :=
  (silver_revenue o + gold_revenue o)%Qc.

(** The list is empty or starts with an order whose date parses. *)
Definition starts_valid (l : list order) : bool :=
  match l with
  | [] => true
  | o :: _ => valid o
  end.

(** The trace rows of month [M]. *)
Definition month_rows (M : string) (trace : list trace_row) : list trace_row :=
  List.filter (fun t => String.eqb (t_month t) M) trace.

(** What the two inner loops agree on: the month bucket grows by the
    revenue of exactly the new trace rows of month [M]. *)
Definition agree (M : string) (b0 b1 : bucket) (rows : list trace_row) : Prop :=
  total_silver_rev b1
  = fold_left Qcplus (map t_silver_rev (month_rows M rows)) (total_silver_rev b0)
  /\ total_gold_rev b1
  = fold_left Qcplus (map t_gold_rev (month_rows M rows)) (total_gold_rev b0).

(** What the inner loop of [calculate_cashback] adds to its state over the
    orders [l]: [rows] to the trace, and to each total the sum below. *)
Record full_effect (l : list order) (st st' : full_state)
    (rows : list trace_row) : Prop := {
  fe_trace : f_monthly_results st' = f_monthly_results st ++ rows;
  fe_dates : map t_order_date rows = valid_dates l;
  fe_silver_rev :
    f_total_silver_rev st'
    = fold_left Qcplus (map silver_revenue (valid_orders l)) (f_total_silver_rev st);
  fe_gold_rev :
    f_total_gold_rev st'
    = fold_left Qcplus (map gold_revenue (valid_orders l)) (f_total_gold_rev st);
  fe_promo :
    f_total_promo st'
    = fold_left Qcplus (map promo_amount (valid_orders l)) (f_total_promo st);
  fe_silver_cb :
    f_total_silver_cb st'
    = fold_left Qcplus (map t_silver_cb rows) (f_total_silver_cb st);
  fe_gold_cb :
    f_total_gold_cb st'
    = fold_left Qcplus (map t_gold_cb rows) (f_total_gold_cb st);
  fe_coins_used :
    f_total_coins_used st'
    = fold_left Qcplus (map t_coins_used rows) (f_total_coins_used st)
}.

(** A date of the calendar the [datetime] constructor accepts. *)
Definition valid_date (d : datetime) : Prop :=
  valid_ymd (year d) (month d) (day d) = true.

Definition leap_day (y : Z) : Z := if is_leap y then 1 else 0.

(** The order of dates as triples, which is how [datetime] values compare. *)
Definition date_compare (a b : datetime) : comparison :=
  match year a ?= year b with
  | Eq => match month a ?= month b with
          | Eq => day a ?= day b
          | c => c
          end
  | c => c
  end.

(** The rest of [format_regex] after the year group. *)
Definition after_year : regex :=
  cat [ Lit "-";
        Grp (alt (cat [Lit "1"; One (between 48 50)])
                 [cat [Lit "0"; One (between 49 57)];
                  One (between 49 57)]);
        Lit "-";
        Grp (alt (cat [Lit "3"; One (between 48 49)])
                 [cat [One (between 49 50); One digit];
                  cat [Lit "0"; One (between 49 57)];
                  One (between 49 57);
                  cat [Lit " "; One (between 49 57)]]) ].

(** The configuration the drivers expect: at least one bracket, and rates
    for every bracket label. *)
Definition well_configured (cashback_config : gmap string tier)
    (ltv_brackets : list bracket) : Prop :=
  ltv_brackets <> []
  /\ Forall (fun b => is_Some (cashback_config !! br_label b)) ltv_brackets.

(** ** The worked customer

    One bracket [label] from [lo] up, with silver rate 4, gold rate [g] and
    redemption cap 20; order A on 2024-01-01 and order B on 2024-01-31, each
    with silver revenue 1000 and nothing else. *)
Definition scenario_config (label : string) (g : Py.num) : gmap string tier :=
  {[ label := mktier (Py.of_Z 4) g (Py.of_Z 20) ]}.

Definition scenario_brackets (label : string) (lo : Py.num) : list bracket :=
  [mkbracket lo Inf label].

Definition order_a (id_a : string) : order :=
  mkorder id_a "2024-01-01" (Py.of_Z 1000) (Py.of_Z 0) (Py.of_Z 0).

Definition order_b (id_b : string) : order :=
  mkorder id_b "2024-01-31" (Py.of_Z 1000) (Py.of_Z 0) (Py.of_Z 0).

Definition date_a : datetime := mkdate 2024 1 1.

Definition date_b : datetime := mkdate 2024 1 31.

(** The locals after order A and after order B; [tag] is the extra field of
    the ledger entries. *)
Definition pricing_a (label : string) (tag : option Z) : pricing :=
  {| p_bracket := label;
     p_wallet_balance := Py.of_Z 0;
     p_order_value := Py.of_Z 1000;
     p_silver_cashback := Py.of_Z 40;
     p_gold_cashback := Py.of_Z 0;
     p_total_cashback := Py.of_Z 40;
     p_max_usable := None;
     p_coins_used := Py.of_Z 0;
     p_amount_paid := Py.of_Z 1000;
     p_wallet := [mktxn (Py.of_Z 40) date_a tag];
     p_ltv := Py.of_Z 1000 |}.

Definition pricing_b (label : string) (tag : option Z) : pricing :=
  {| p_bracket := label;
     p_wallet_balance := Py.of_Z 40;
     p_order_value := Py.of_Z 1000;
     p_silver_cashback := Py.of_Z 40;
     p_gold_cashback := Py.of_Z 0;
     p_total_cashback := Py.of_Z 40;
     p_max_usable := Some (Py.of_Z 200);
     p_coins_used := Py.of_Z 40;
     p_amount_paid := Py.of_Z 960;
     p_wallet := [mktxn (Py.of_Z 0) date_a tag; mktxn (Py.of_Z 40) date_b tag];
     p_ltv := Py.of_Z 1960 |}.

(** ** Concrete inputs

    The single-bracket configuration with gold rate 2, and the same with a
    negative redemption percentage; order A, and an order without a date. *)
Definition one_bracket : list bracket := scenario_brackets "all" (Py.of_Z 0).

Definition one_tier : gmap string tier := scenario_config "all" (Py.of_Z 2).

Definition negative_redeem : gmap string tier :=
  {[ "all"%string := mktier (Py.of_Z 4) (Py.of_Z 2) (Py.of_Z (-20)) ]}.

Definition good_order : order := order_a "A".

Definition na_order : order :=
  mkorder "N" "N/A" (Py.of_Z 500) (Py.of_Z 0) (Py.of_Z 0).

(** Two ledger entries, the older one first. *)
Definition fifo_e1 : txn := mktxn (Py.of_Z 40) (mkdate 2024 1 1) None.

Definition fifo_e2 : txn := mktxn (Py.of_Z 25) (mkdate 2024 2 1) None.

(** Three brackets, the second out of order. *)
Definition sample_brackets : list bracket :=
  [mkbracket (Py.of_Z 0) (Fin (Py.of_Z 100)) "low";
   mkbracket (Py.of_Z 100) (Fin (Py.of_Z 50)) "odd";
   mkbracket (Py.of_Z 100) (Fin (Py.of_Z 500)) "high"].

(** Tables of one customer with order A and a second order without a
    parseable date: one written with month 13, which sorts before order A,
    and one without a date field, which gets the default text and sorts
    after it. *)
Definition bad_first_df : list row :=
  [ mkrow "C1" "{:order_id 'A' :order_date #t '2024-01-01' :silver_revenue 1000M} {:order_id 'X' :order_date #t '2023-13-45' :silver_revenue 500M}" ].

Definition na_last_df : list row :=
  [ mkrow "C1" "{:order_id 'A' :order_date #t '2024-01-01' :silver_revenue 1000M} {:order_id 'N' :silver_revenue 500M}" ].

(** A sub-record whose silver revenue is written as a lone comma. *)
Definition comma_blob : string := "{:order_id A1 :silver_revenue ,}".

(** A sub-record none of whose fields has the expected shape. *)
Definition shapeless_blob : string :=
  "{:order_id a1 :order_date 2024-01-01 :silver_revenue abc}".

(** A table of two customers. *)
Definition sample_df : list row :=
  [ mkrow "C1" "[{:order_id 'A1' :order_date #t '2024-01-01' :silver_revenue 1,000.50M :gold_revenue 20M} {:order_id 'A2' :order_date #t '2024-02-10' :silver_revenue 300M :promo_amount 5M}]";
    mkrow "C2" "[{:order_id 'B1' :order_date #t '2024-01-15' :gold_revenue 80M} {:order_id 'B2' :order_date #t 'soon' :gold_revenue 1M}]" ].

(** ** Vocabulary of the further properties *)

(** Position in the list of the bracket [get_ltv_bracket] selects: the
    first one whose bound exceeds the value, the last one when none does. *)
Fixpoint bracket_rank (ltv : Py.num) (brackets : list bracket) : nat :=
  match brackets with
  | [] => O
  | b :: rest =>
      if lt_bound ltv (br_max b) then O
      else match rest with
           | [] => O
           | _ :: _ => S (bracket_rank ltv rest)
           end
  end.

(** Each bracket ends where the next one starts. *)
Fixpoint chained (brackets : list bracket) : Prop :=
  match brackets with
  | b :: ((b' :: _) as rest) => br_max b = Fin (br_min b') /\ chained rest
  | _ => True
  end.

(** Three brackets in ascending order, each ending where the next one
    starts. *)
Definition chained_brackets : list bracket :=
  [mkbracket (Py.of_Z 0) (Fin (Py.of_Z 100)) "low";
   mkbracket (Py.of_Z 100) (Fin (Py.of_Z 500)) "mid";
   mkbracket (Py.of_Z 500) Inf "high"].

(** The record of a customer without a valid order. *)
Definition zero_result (n : Z) : customer_result :=
  mkresult (Py.of_Z 0) (Py.of_Z 0) (Py.of_Z 0) (Py.of_Z 0) (Py.of_Z 0)
           (Py.of_Z 0) (Py.of_Z 0) (Py.of_Z 0) (Py.of_Z 0) n.

(** The state of the inner loop of [calculate_cashback] with [tr] put in
    front of its trace. *)
Definition prefix_trace (tr : list trace_row) (st : full_state) : full_state :=
  mkfull (f_wallet st) (f_ltv st) (f_total_silver_rev st) (f_total_gold_rev st)
         (f_total_promo st) (f_total_silver_cb st) (f_total_gold_cb st)
         (f_total_coins_used st) (f_repeat_revenue st)
         (tr ++ f_monthly_results st).

(** The order has a date that parses and falls in month [M]. *)
Definition in_month (M : string) (o : order) : bool :=
  match strptime (order_date o) with
  | Some d => String.eqb (strftime_Ym d) M
  | None => false
  end.

Definition month_orders (M : string) (l : list order) : list order :=
  List.filter (in_month M) l.

(** The rows of the table whose order history has an order in month [M]. *)
Definition contributes (M : string) (rw : row) : Prop :=
  exists orders,
    parse_order_history (order_history rw) = Ok orders
    /\ month_orders M orders <> [].

(** [cid] is among the unique customers of a bucket of the results. *)
Definition has_customer {use_ltv : bool} : results use_ltv -> string -> Prop :=
  match use_ltv return results use_ltv -> string -> Prop with
  | true => fun m cid =>
      exists label b, m !! label = Some b /\ cid ∈ unique_customers b
  | false => fun b cid => cid ∈ unique_customers b
  end.

(** The bucket labels of the results with bracket breakdown. *)
Definition labels (ltv_brackets : list bracket) : gset string :=
  list_to_set (map br_label ltv_brackets).

(** The ledger without the extra field of its entries: what the month
    driver keeps of an entry. *)
Definition strip (w : list txn) : list txn :=
  map (fun t => mktxn (balance t) (earned_date t) None) w.

(** The pricing [p] with the ledger [w]. *)
Definition with_wallet (p : pricing) (w : list txn) : pricing :=
  {| p_bracket := p_bracket p;
     p_wallet_balance := p_wallet_balance p;
     p_order_value := p_order_value p;
     p_silver_cashback := p_silver_cashback p;
     p_gold_cashback := p_gold_cashback p;
     p_total_cashback := p_total_cashback p;
     p_max_usable := p_max_usable p;
     p_coins_used := p_coins_used p;
     p_amount_paid := p_amount_paid p;
     p_wallet := w;
     p_ltv := p_ltv p |}.

(** The month bucket grows by the cashback and the redeemed coins of
    exactly the new trace rows of month [M]. *)
Definition agree_cb (M : string) (b0 b1 : bucket) (rows : list trace_row)
  : Prop :=
  total_silver_cb b1
  = fold_left Qcplus (map t_silver_cb (month_rows M rows)) (total_silver_cb b0)
  /\ total_gold_cb b1
  = fold_left Qcplus (map t_gold_cb (month_rows M rows)) (total_gold_cb b0)
  /\ total_coins_used b1
  = fold_left Qcplus (map t_coins_used (month_rows M rows)) (total_coins_used b0).

(** The history of every row the parser accepts is, once sorted, empty or
    starts with an order whose date parses. *)
Definition histories_start_valid (df : list row) : Prop :=
  Forall (fun rw => forall orders,
              parse_order_history (order_history rw) = Ok orders ->
              starts_valid (Py.sort_by order_date orders) = true) df.

(** What one step, and then a run of steps, of the two inner loops keeps
    in common. *)
Record lockstep (M : string) (ms ms' : month_state false)
    (fs fs' : full_state) (rows : list trace_row) : Prop := {
  ls_trace : f_monthly_results fs' = f_monthly_results fs ++ rows;
  ls_agree : agree_cb M (m_results ms) (m_results ms') rows;
  ls_wallet : m_wallet ms' = strip (f_wallet fs');
  ls_ltv : m_ltv ms' = f_ltv fs';
  ls_num : (m_order_num ms <= m_order_num ms')%Z;
  ls_contributed :
    m_contributed ms'
    = m_contributed ms
      || match month_rows M rows with [] => false | _ :: _ => true end;
  ls_coin_balance :
    total_coin_balance (m_results ms') = total_coin_balance (m_results ms)
}.

(** The customers of the records whose final LTV resolves to [label]. *)
Definition customers_in (ltv_brackets : list bracket) (label : string)
    (items : list (string * customer_result))
  : list (string * customer_result) :=
  List.filter (fun item =>
                 match get_ltv_bracket (final_ltv item.2) ltv_brackets with
                 | Ok l => String.eqb l label
                 | Raise _ => false
                 end) items.

(** [sum] over integers. *)
Definition sum_Z (xs : list Z) : Z := fold_right Z.add 0 xs.

(** Two brackets with rates for both, and a third row for the table that
    repeats the id of the first customer. *)
Definition two_brackets : list bracket :=
  [mkbracket (Py.of_Z 0) (Fin (Py.of_Z 1000)) "low";
   mkbracket (Py.of_Z 1000) Inf "high"].

Definition two_tiers : gmap string tier :=
  {[ "low"%string := mktier (Py.of_Z 4) (Py.of_Z 2) (Py.of_Z 20);
     "high"%string := mktier (Py.of_Z 5) (Py.of_Z 3) (Py.of_Z 30) ]}.

Definition repeated_row : row :=
  mkrow "C1" "{:order_id 'A9' :order_date #t '2024-03-01' :silver_revenue 50M}".

(** Every character of the text is in the class. *)
Definition all_in (p : ascii -> bool) (s : string) : bool :=
  forallb p (list_ascii_of_string s).

(** The texts a pattern matches, with the texts of its groups in the order
    the groups close. *)
Fixpoint denotes (r : regex) (m : string) (g : list string) : Prop :=
  match r with
  | Lit l => m = l /\ g = []
  | Rep p lo hi =>
      all_in p m = true /\ (lo <= String.length m)%nat
      /\ match hi with
         | Some h => (String.length m <= h)%nat
         | None => True
         end
      /\ g = []
  | Cat r1 r2 =>
      exists m1 m2 g1 g2,
        m = (m1 ++ m2)%string /\ g = g1 ++ g2
        /\ denotes r1 m1 g1 /\ denotes r2 m2 g2
  | Alt r1 r2 => denotes r1 m g \/ denotes r2 m g
  | Grp r1 => exists g1, g = g1 ++ [m] /\ denotes r1 m g1
  end.

(** The shape of an amount token: digits and commas, at least one, then at
    most one point, then digits. *)
Definition amount_token (g : string) : Prop :=
  exists a b c,
    g = (a ++ b ++ c)%string
    /\ all_in digit_or_comma a = true /\ (1 <= String.length a)%nat
    /\ (b = EmptyString \/ b = "."%string)
    /\ all_in digit c = true.

(** The text has a decimal digit. *)
Definition has_digit (s : string) : bool :=
  existsb digit (list_ascii_of_string s).

(** The text has an opening brace. *)
Definition has_lbrace (s : string) : bool :=
  existsb (chr_is 123) (list_ascii_of_string s).

(** No rate of the configuration is negative. *)
Definition rates_nonneg (cashback_config : gmap string tier) : Prop :=
  map_Forall (fun _ c => (0 <= silver_cb c /\ 0 <= gold_cb c
                          /\ 0 <= redeem_pct c)%Qc) cashback_config.

(** No amount of the order is negative. *)
Definition amounts_nonneg (o : order) : Prop :=
  (0 <= silver_revenue o /\ 0 <= gold_revenue o /\ 0 <= promo_amount o)%Qc.

(** No amount of the trace row is negative. *)
Definition row_nonneg (t : trace_row) : Prop :=
  (0 <= t_silver_rev t /\ 0 <= t_gold_rev t /\ 0 <= t_silver_cb t
   /\ 0 <= t_gold_cb t /\ 0 <= t_coins_used t /\ 0 <= t_wallet_balance t)%Qc.

(** ** Vocabulary of the ledger, of skipped orders and of orders taken in turn *)

(** A ledger of three entries of different ages. *)
Definition expiry_ledger : list txn :=
  [mktxn (Py.of_Z 5) (mkdate 2023 11 1) None;
   mktxn (Py.of_Z 40) (mkdate 2024 1 1) None;
   mktxn (Py.of_Z 25) (mkdate 2024 1 15) None].

(** The entries with their balance at zero. *)
Definition emptied (w : list txn) : list txn :=
  map (fun t => set_balance t (Py.of_Z 0)) w.

(** What is left of [amount] after the entries of [w] are emptied: the
    balances subtracted one by one, as the deduction loop does. *)
Definition handed_on (amount : Py.num) (w : list txn) : Py.num :=
  fold_left (fun r t => (r - balance t)%Qc) w amount.

(** The amount is larger than each balance it reaches in [w], after the
    balances before it are subtracted. *)
Fixpoint exhausts (amount : Py.num) (w : list txn) : Prop :=
  match w with
  | [] => True
  | t :: w' => (balance t < amount)%Qc /\ exhausts (amount - balance t)%Qc w'
  end.

(** A ledger of three entries. *)
Definition fifo_ledger : list txn :=
  [fifo_e1; fifo_e2; mktxn (Py.of_Z 10) (mkdate 2024 3 1) None].

(** The record with its order count replaced. *)
Definition set_num_orders (rec : customer_result) (n : Z) : customer_result :=
  mkresult (final_ltv rec) (c_total_silver_rev rec) (c_total_gold_rev rec)
           (repeat_revenue rec) (c_total_promo rec) (c_total_silver_cb rec)
           (c_total_gold_cb rec) (c_total_coins_used rec)
           (final_wallet_balance rec) n.

(** A history of three orders, the second without a date, and a month
    state and a full-history state in the middle of a customer. *)
Definition mixed_orders : list order :=
  [order_a "A"; na_order; order_b "B"].

Definition busy_month_state : month_state false :=
  @mkmonth false
          (mkbucket (Py.of_Z 1000) (Py.of_Z 0) (Py.of_Z 0) (Py.of_Z 40)
                    (Py.of_Z 0) (Py.of_Z 0) (Py.of_Z 0) {[ "C1"%string ]})
          [mktxn (Py.of_Z 40) (mkdate 2024 1 1) None] (Py.of_Z 1000) 1 true.

Definition busy_full_state : full_state :=
  mkfull [mktxn (Py.of_Z 40) (mkdate 2024 1 1) (Some 180)] (Py.of_Z 1000)
         (Py.of_Z 1000) (Py.of_Z 0) (Py.of_Z 0) (Py.of_Z 40) (Py.of_Z 0)
         (Py.of_Z 0) (Py.of_Z 0)
         [mktrace "C1" "2024-01" (mkdate 2024 1 1) "all" (Py.of_Z 1000)
                  (Py.of_Z 0) (Py.of_Z 40) (Py.of_Z 0) (Py.of_Z 0)
                  (Py.of_Z 40)].

(** The orders the full-history loop prices, with their order numbers: the
    orders whose date parses, each with its position, from 1, in the list. *)
Definition numbered_valid (l : list order) : list (Z * order) :=
  List.filter (fun io => valid io.2) (Py.enumerate 1 l).

(** The pricings [ps] of the numbered orders [l] taken in turn: each order
    is priced with its number against the ledger and the cumulative LTV the
    pricing of the order before it left, the first one against [wallet] and
    [ltv]. *)
Fixpoint priced_in_turn (cashback_config : gmap string tier)
    (ltv_brackets : list bracket) (expiry_days : Z) (tag : option Z)
    (l : list (Z * order)) (wallet : list txn) (ltv : Py.num)
    (ps : list pricing) : Prop :=
  match l, ps with
  | [], [] => True
  | (n, o) :: l', p :: ps' =>
      (exists d, strptime (order_date o) = Some d
                 /\ price_order cashback_config ltv_brackets expiry_days tag
                                n o d wallet ltv = Ok p)
      /\ priced_in_turn cashback_config ltv_brackets expiry_days tag l'
                        (p_wallet p) (p_ltv p) ps'
  | _, _ => False
  end.

(** The ledger and the cumulative LTV the last pricing left. *)
Definition wallet_after (wallet : list txn) (ps : list pricing) : list txn :=
  match last ps with
  | Some p => p_wallet p
  | None => wallet
  end.

Definition ltv_after (ltv : Py.num) (ps : list pricing) : Py.num :=
  match last ps with
  | Some p => p_ltv p
  | None => ltv
  end.

(** [t] is the trace row of the order and pricing [op]: the customer, the
    date the text of the order reads as and its month, the bracket, the
    revenues of the order, the cashbacks and the coins used of the pricing,
    and the sum over the ledger the pricing left. *)
Definition traces (cid : string) (t : trace_row) (op : order * pricing) : Prop :=
  t_customer_id t = cid
  /\ strptime (order_date op.1) = Some (t_order_date t)
  /\ t_month t = strftime_Ym (t_order_date t)
  /\ t_ltv_bracket t = p_bracket op.2
  /\ t_silver_rev t = silver_revenue op.1
  /\ t_gold_rev t = gold_revenue op.1
  /\ t_silver_cb t = p_silver_cashback op.2
  /\ t_gold_cb t = p_gold_cashback op.2
  /\ t_coins_used t = p_coins_used op.2
  /\ t_wallet_balance t = wallet_sum (p_wallet op.2).

(** Two orders with the same date text and different revenue. *)
Definition order_p : order :=
  mkorder "P" "2024-01-01" (Py.of_Z 1000) (Py.of_Z 0) (Py.of_Z 0).

Definition order_q : order :=
  mkorder "Q" "2024-01-01" (Py.of_Z 500) (Py.of_Z 0) (Py.of_Z 0).

(* ================================================================== *)
(** * Facts about the runtime fragments *)
(* ================================================================== *)

Local Open Scope Qc_scope.

Lemma ltb_spec (a b : Py.num) : Py.ltb a b = true <-> a < b.
Proof.
  unfold Py.ltb. destruct (Qclt_le_dec a b) as [H | H]; split; intro K;
    try reflexivity; try assumption; try discriminate.
  exfalso. exact (Qcle_not_lt _ _ H K).
Qed.

Lemma ltb_false (a b : Py.num) : Py.ltb a b = false <-> b <= a.
Proof.
  unfold Py.ltb. destruct (Qclt_le_dec a b) as [H | H]; split; intro K;
    try reflexivity; try assumption; try discriminate.
  exfalso. exact (Qcle_not_lt _ _ K H).
Qed.

Lemma leb_spec (a b : Py.num) : Py.leb a b = true <-> a <= b.
Proof.
  unfold Py.leb. destruct (Qclt_le_dec b a) as [H | H]; split; intro K;
    try reflexivity; try assumption; try discriminate.
  exfalso. exact (Qcle_not_lt _ _ K H).
Qed.

Lemma leb_false (a b : Py.num) : Py.leb a b = false <-> b < a.
Proof.
  unfold Py.leb. destruct (Qclt_le_dec b a) as [H | H]; split; intro K;
    try reflexivity; try assumption; try discriminate.
  exfalso. exact (Qcle_not_lt _ _ H K).
Qed.

(** Goals of linear arithmetic over [Qc] are sent to [Q]. *)
Ltac qc_lra :=
  unfold Py.of_Z, Qcle, Qclt, Qcminus, Qcplus, Qcopp in *; simpl in *;
  rewrite ?Qred_correct in *; lra.

Lemma min_le_l (a b : Py.num) : Py.min a b <= a.
Proof.
  unfold Py.min. destruct (Py.ltb b a) eqn:E.
  - apply ltb_spec in E. apply Qclt_le_weak, E.
  - apply Qcle_refl.
Qed.

Lemma min_le_r (a b : Py.num) : Py.min a b <= b.
Proof.
  unfold Py.min. destruct (Py.ltb b a) eqn:E.
  - apply Qcle_refl.
  - apply ltb_false in E. exact E.
Qed.

Lemma min_r (a b : Py.num) : b <= a -> Py.min a b = b.
Proof.
  intro H. unfold Py.min. destruct (Py.ltb b a) eqn:E; [reflexivity|].
  apply ltb_false in E. apply Qcle_antisym; assumption.
Qed.

Lemma min_l (a b : Py.num) : a <= b -> Py.min a b = a.
Proof.
  intro H. unfold Py.min. destruct (Py.ltb b a) eqn:E; [|reflexivity].
  apply ltb_spec in E. exfalso. exact (Qcle_not_lt _ _ H E).
Qed.

Lemma of_Z_0 : Py.of_Z 0 = 0.
Proof. reflexivity. Qed.

Lemma sum_from (xs : list Py.num) (a : Py.num) :
  fold_left Qcplus xs a = a + Py.sum xs.
Proof.
  unfold Py.sum. revert a.
  induction xs as [|x xs IH]; intro a; simpl.
  - rewrite of_Z_0. ring.
  - rewrite IH, (IH (Py.of_Z 0 + x)), of_Z_0. ring.
Qed.

Lemma sum_cons (x : Py.num) (xs : list Py.num) : Py.sum (x :: xs) = x + Py.sum xs.
Proof.
  unfold Py.sum at 1. simpl. rewrite sum_from, of_Z_0. ring.
Qed.

Lemma sum_app (xs ys : list Py.num) : Py.sum (xs ++ ys) = Py.sum xs + Py.sum ys.
Proof.
  induction xs as [|x xs IH]; simpl.
  - unfold Py.sum at 2. simpl. rewrite of_Z_0. ring.
  - rewrite !sum_cons, IH. ring.
Qed.

Lemma wallet_sum_cons (t : txn) (w : list txn) :
  wallet_sum (t :: w) = balance t + wallet_sum w.
Proof. unfold wallet_sum. simpl. apply sum_cons. Qed.

Lemma wallet_sum_nil : wallet_sum [] = 0.
Proof. reflexivity. Qed.

Lemma expire_app (d : datetime) (W : Z) (w1 w2 : list txn) :
  expire d W (w1 ++ w2) = expire d W w1 ++ expire d W w2.
Proof. unfold expire. apply List.filter_app. Qed.

(* ================================================================== *)
(** * The bracket resolver *)
(* ================================================================== *)

Lemma lt_bound_spec (v : Py.num) (b : bound) :
  lt_bound v b = true <-> exceeds b v.
Proof.
  destruct b as [q|]; simpl.
  - apply ltb_spec.
  - split; auto.
Qed.

Lemma first_bracket_found (v : Py.num) (pre post : list bracket) (b : bracket) :
  Forall (fun b' => ~ exceeds (br_max b') v) pre ->
  exceeds (br_max b) v ->
  first_bracket v (pre ++ b :: post) = Some (br_label b).
Proof.
  intros Hpre Hb. induction Hpre as [|b' pre Hb' _ IH]; simpl.
  - apply lt_bound_spec in Hb. rewrite Hb. reflexivity.
  - destruct (lt_bound v (br_max b')) eqn:E; [|exact IH].
    apply lt_bound_spec in E. contradiction.
Qed.

Lemma first_bracket_none (v : Py.num) (brackets : list bracket) :
  Forall (fun b' => ~ exceeds (br_max b') v) brackets ->
  first_bracket v brackets = None.
Proof.
  induction 1 as [|b' l Hb' _ IH]; simpl; [reflexivity|].
  destruct (lt_bound v (br_max b')) eqn:E; [|exact IH].
  apply lt_bound_spec in E. contradiction.
Qed.

(** C7.  For a non-empty bracket list, scanned in the order given,
    [get_ltv_bracket] returns the label of the first bracket whose [max] is
    strictly greater than the value, and the label of the last bracket of
    the list when no bracket's [max] exceeds the value. *)
Theorem get_ltv_bracket_contract (v : Py.num) (brackets : list bracket) :
  brackets <> [] ->
  (forall pre b post,
      brackets = pre ++ b :: post ->
      Forall (fun b' => ~ exceeds (br_max b') v) pre ->
      exceeds (br_max b) v ->
      get_ltv_bracket v brackets = Ok (br_label b))
  /\ (Forall (fun b' => ~ exceeds (br_max b') v) brackets ->
      exists b, last brackets = Some b
                /\ get_ltv_bracket v brackets = Ok (br_label b)).
Proof.
  intro Hne. split.
  - intros pre b post -> Hpre Hb. unfold get_ltv_bracket.
    rewrite (first_bracket_found v pre post b Hpre Hb). reflexivity.
  - intro Hall. unfold get_ltv_bracket.
    rewrite (first_bracket_none v brackets Hall).
    destruct (last brackets) as [b|] eqn:E.
    + exists b. split; reflexivity.
    + apply last_None in E. contradiction.
Qed.

Lemma get_ltv_bracket_contract_witness :
  get_ltv_bracket (Py.of_Z 100) sample_brackets = Ok "high"%string
  /\ exists b, last sample_brackets = Some b
               /\ get_ltv_bracket (Py.of_Z 700) sample_brackets = Ok (br_label b).
Proof.
  split.
  - apply (proj1 (get_ltv_bracket_contract (Py.of_Z 100) sample_brackets
                    ltac:(discriminate))
             [mkbracket (Py.of_Z 0) (Fin (Py.of_Z 100)) "low";
              mkbracket (Py.of_Z 100) (Fin (Py.of_Z 50)) "odd"]%string
             (mkbracket (Py.of_Z 100) (Fin (Py.of_Z 500)) "high") []).
    + reflexivity.
    + repeat constructor; simpl; intro H; vm_compute in H; discriminate.
    + reflexivity.
  - apply (proj2 (get_ltv_bracket_contract (Py.of_Z 700) sample_brackets
                    ltac:(discriminate))).
    repeat constructor; simpl; intro H; vm_compute in H; discriminate.
Defined.

(* ================================================================== *)
(** * The ledger: FIFO deduction and expiry *)
(* ================================================================== *)

Lemma deduct_nothing (amount : Py.num) (w : list txn) :
  amount <= 0 -> deduct amount w = w.
Proof.
  intro H. destruct w as [|t w]; simpl; [reflexivity|].
  replace (Py.leb amount (Py.of_Z 0)) with true; [reflexivity|].
  symmetry. apply leb_spec. exact H.
Qed.

Lemma deduct_step (amount : Py.num) (t : txn) (w : list txn) :
  0 < amount ->
  deduct amount (t :: w)
  = set_balance t (balance t - Py.min (balance t) amount)
    :: deduct (amount - Py.min (balance t) amount) w.
Proof.
  intro H. simpl.
  replace (Py.leb amount (Py.of_Z 0)) with false; [reflexivity|].
  symmetry. apply leb_false. exact H.
Qed.

Lemma deduct_nonneg (w : list txn) :
  forall amount : Py.num,
    Forall (fun t => 0 <= balance t) w ->
    Forall (fun t => 0 <= balance t) (deduct amount w).
Proof.
  induction w as [|t w IH]; intros amount Hw; simpl; [constructor|].
  destruct (Py.leb amount (Py.of_Z 0)) eqn:E; [exact Hw|].
  inversion Hw as [|? ? Ht Hrest]; subst.
  constructor.
  - simpl. pose proof (min_le_l (balance t) amount) as Hm. qc_lra.
  - apply IH. exact Hrest.
Qed.

Lemma expire_nonneg (d : datetime) (W : Z) (w : list txn) :
  Forall (fun t => 0 <= balance t) w ->
  Forall (fun t => 0 <= balance t) (expire d W w).
Proof.
  intro H. unfold expire. rewrite List.Forall_forall in H |- *.
  intros t Ht. apply List.filter_In in Ht. apply H, Ht.
Qed.

(** Pricing an order leaves no negative balance in the wallet. *)
Lemma price_order_nonneg cfg brs W tag n o d w ltv p :
  Forall (fun t => 0 <= balance t) w ->
  price_order cfg brs W tag n o d w ltv = Ok p ->
  Forall (fun t => 0 <= balance t) (p_wallet p).
Proof.
  unfold price_order. intros Hw H.
  destruct (get_ltv_bracket ltv brs) as [lbl|]; cbn in H; [|discriminate].
  destruct (Py.getitem cfg lbl) as [c|]; cbn in H; [|discriminate].
  injection H as <-. cbn [p_wallet].
  assert (Hold : forall r,
             Forall (fun t => 0 <= balance t)
                    (if (1 <? n)%Z then deduct r (expire d W w)
                     else expire d W w)).
  { intro r. destruct (1 <? n)%Z; [apply deduct_nonneg|]; apply expire_nonneg, Hw. }
  match goal with
  | |- context [if Py.ltb ?a ?b then _ else _] => destruct (Py.ltb a b) eqn:E
  end.
  - apply Forall_app. split; [apply Hold|].
    constructor; [|constructor]. cbn [balance].
    apply ltb_spec in E. apply Qclt_le_weak. exact E.
  - apply Hold.
Qed.



Lemma expire_keeps (d : datetime) (W : Z) (e : txn) :
  (days_between d (earned_date e) <= W)%Z -> expire d W [e] = [e].
Proof.
  intro H. unfold expire. simpl.
  replace (days_between d (earned_date e) <=? W)%Z with true; [reflexivity|].
  symmetry. apply Z.leb_le. exact H.
Qed.

Lemma expire_drops (d : datetime) (W : Z) (e : txn) :
  (W < days_between d (earned_date e))%Z -> expire d W [e] = [].
Proof.
  intro H. unfold expire. simpl.
  replace (days_between d (earned_date e) <=? W)%Z with false; [reflexivity|].
  symmetry. apply Z.leb_gt. exact H.
Qed.

Lemma expire_In (d : datetime) (W : Z) (w : list txn) (e : txn) :
  In e (expire d W w) <-> In e w /\ (days_between d (earned_date e) <= W)%Z.
Proof.
  unfold expire. rewrite List.filter_In, Z.leb_le. reflexivity.
Qed.

Lemma price_order_balance_read cfg brs W tag n o d w ltv p :
  price_order cfg brs W tag n o d w ltv = Ok p ->
  p_wallet_balance p = wallet_sum (expire d W w).
Proof.
  unfold price_order. intro H.
  destruct (get_ltv_bracket ltv brs) as [lbl|]; simpl in H; [|discriminate].
  destruct (Py.getitem cfg lbl) as [c|]; simpl in H; [|discriminate].
  injection H as <-. reflexivity.
Qed.

(* ================================================================== *)
(** * A worked customer *)
(* ================================================================== *)

Ltac qc_closed := apply Qc_is_canon; vm_compute; reflexivity.

Section Scenario.

Variables (label cid id_a id_b : string) (lo g : Py.num).

Local Abbreviation cfg := (scenario_config label g).
Local Abbreviation brs := (scenario_brackets label lo).
Local Abbreviation A := (order_a id_a).
Local Abbreviation B := (order_b id_b).

Lemma gold_zero : Py.of_Z 0 * (g / Py.of_Z 100) = Py.of_Z 0.
Proof. rewrite of_Z_0. ring. Qed.

Lemma get_bracket_single v : get_ltv_bracket v brs = Ok label.
Proof. reflexivity. Qed.

Lemma get_config :
  Py.getitem cfg label = Ok (mktier (Py.of_Z 4) g (Py.of_Z 20)).
Proof.
  unfold Py.getitem, scenario_config. rewrite lookup_singleton_eq. reflexivity.
Qed.

Ltac price_start :=
  unfold price_order; rewrite get_bracket_single; cbn [mbind res_mbind Py.bind];
  rewrite get_config; cbn [mbind res_mbind Py.bind];
  cbn [silver_revenue gold_revenue promo_amount order_a order_b
       silver_cb gold_cb redeem_pct];
  rewrite gold_zero.

Ltac closed x y := replace x with y by qc_closed.

Lemma price_a tag :
  price_order cfg brs 180 tag 1 A date_a [] (Py.of_Z 0)
  = Ok (pricing_a label tag).
Proof.
  price_start.
  change (1 <? 1)%Z with false. cbv iota.
  change (expire date_a 180 []) with (@nil txn).
  closed (Py.of_Z 1000 * (Py.of_Z 4 / Py.of_Z 100) + Py.of_Z 0) (Py.of_Z 40).
  closed (Py.of_Z 1000 + Py.of_Z 0) (Py.of_Z 1000).
  closed (Py.of_Z 1000 * (Py.of_Z 4 / Py.of_Z 100)) (Py.of_Z 40).
  closed (Py.of_Z 1000 - Py.of_Z 0 - Py.of_Z 0) (Py.of_Z 1000).
  closed (Py.of_Z 0 + Py.of_Z 1000) (Py.of_Z 1000).
  change (Py.ltb (Py.of_Z 0) (Py.of_Z 40)) with true. cbv iota.
  reflexivity.
Qed.

Lemma price_b tag :
  price_order cfg brs 180 tag 2 B date_b
              (p_wallet (pricing_a label tag)) (p_ltv (pricing_a label tag))
  = Ok (pricing_b label tag).
Proof.
  price_start.
  change (1 <? 2)%Z with true. cbv iota.
  change (expire date_b 180 (p_wallet (pricing_a label tag)))
    with [mktxn (Py.of_Z 40) date_a tag].
  closed (wallet_sum [mktxn (Py.of_Z 40) date_a tag]) (Py.of_Z 40).
  closed (Py.of_Z 1000 * (Py.of_Z 4 / Py.of_Z 100) + Py.of_Z 0) (Py.of_Z 40).
  closed (Py.of_Z 1000 + Py.of_Z 0) (Py.of_Z 1000).
  closed (Py.of_Z 1000 * (Py.of_Z 4 / Py.of_Z 100)) (Py.of_Z 40).
  closed (Py.of_Z 1000 * (Py.of_Z 20 / Py.of_Z 100)) (Py.of_Z 200).
  closed (Py.min (Py.of_Z 40) (Py.of_Z 200)) (Py.of_Z 40).
  closed (Py.of_Z 1000 - Py.of_Z 40 - Py.of_Z 0) (Py.of_Z 960).
  closed (p_ltv (pricing_a label tag) + Py.of_Z 960) (Py.of_Z 1960).
  change (Py.ltb (Py.of_Z 0) (Py.of_Z 40)) with true. cbv iota.
  rewrite deduct_step by reflexivity.
  cbn [balance earned_date expiry_days_field].
  closed (Py.min (Py.of_Z 40) (Py.of_Z 40)) (Py.of_Z 40).
  closed (Py.of_Z 40 - Py.of_Z 40) (Py.of_Z 0).
  reflexivity.
Qed.

(** C1.  Orders A (2024-01-01, silver 1000) and B (2024-01-31, silver
    1000), no gold revenue and no promo, one bracket with silver rate 4,
    redemption cap 20 and any gold rate, expiry window 180: order A earns 40,
    uses no coins, pays 1000 and leaves the LTV at 1000; order B reads a
    wallet balance of 40, may use up to 200, uses 40, earns 40 and pays 960;
    the customer ends with LTV 1960 and wallet balance 40. *)
Theorem concrete_scenario :
  exists (pA pB : pricing) (rec : customer_result) (trace : list trace_row),
    strptime (order_date (order_a id_a)) = Some date_a
    /\ strptime (order_date (order_b id_b)) = Some date_b
    /\ price_order (scenario_config label g) (scenario_brackets label lo)
         180 (Some 180%Z) 1 (order_a id_a) date_a [] (Py.of_Z 0) = Ok pA
    /\ p_total_cashback pA = Py.of_Z 40
    /\ p_coins_used pA = Py.of_Z 0
    /\ p_amount_paid pA = Py.of_Z 1000
    /\ p_ltv pA = Py.of_Z 1000
    /\ price_order (scenario_config label g) (scenario_brackets label lo)
         180 (Some 180%Z) 2 (order_b id_b) date_b (p_wallet pA) (p_ltv pA)
       = Ok pB
    /\ p_wallet_balance pB = Py.of_Z 40
    /\ p_max_usable pB = Some (Py.of_Z 200)
    /\ p_coins_used pB = Py.of_Z 40
    /\ p_total_cashback pB = Py.of_Z 40
    /\ p_amount_paid pB = Py.of_Z 960
    /\ full_customer (scenario_config label g) (scenario_brackets label lo)
         180 cid [order_a id_a; order_b id_b] [] = Ok (rec, trace)
    /\ final_ltv rec = p_ltv pB
    /\ final_ltv rec = Py.of_Z 1960
    /\ final_wallet_balance rec = wallet_sum (p_wallet pB)
    /\ final_wallet_balance rec = Py.of_Z 40
    /\ map t_coins_used trace = [p_coins_used pA; p_coins_used pB]
    /\ map t_silver_cb trace = [p_total_cashback pA; p_total_cashback pB].
Proof.
  exists (pricing_a label (Some 180%Z)), (pricing_b label (Some 180%Z)).
  eexists. eexists.
  split; [reflexivity|]. split; [reflexivity|].
  split; [apply price_a|]. do 4 (split; [reflexivity|]).
  split; [apply price_b|]. do 5 (split; [reflexivity|]).
  split.
  - unfold full_customer.
    change (Py.sort_by order_date [A; B]) with [A; B].
    cbn [Py.enumerate Py.for_each full_order].
    change (strptime (order_date A)) with (Some date_a).
    change (strptime (order_date B)) with (Some date_b).
    cbv iota. unfold init_full at 1. cbn [f_wallet f_ltv].
    rewrite price_a. cbn [Py.bind mbind res_mbind f_wallet f_ltv].
    change (1 + 1)%Z with 2%Z.
    rewrite price_b. cbn [Py.bind mbind res_mbind].
    reflexivity.
  - cbn [final_ltv final_wallet_balance f_ltv f_wallet f_monthly_results].
    split; [reflexivity|]. split; [reflexivity|]. split; [reflexivity|].
    split; [qc_closed|]. split; reflexivity.
Qed.

End Scenario.

(* ================================================================== *)
(** * The two drivers agree on the revenue of a month *)
(* ================================================================== *)

Lemma bind_Ok {A B : Type} (m : res A) (k : A -> res B) (b : B) :
  Py.bind m k = Ok b -> exists a, m = Ok a /\ k a = Ok b.
Proof.
  destruct m as [a|e]; simpl; intro H; [|discriminate].
  exists a. split; [reflexivity | exact H].
Qed.

Lemma month_rows_app (M : string) (t1 t2 : list trace_row) :
  month_rows M (t1 ++ t2) = month_rows M t1 ++ month_rows M t2.
Proof. apply List.filter_app. Qed.

Section Consistency.

Variable M : string.
Variable cashback_config : gmap string tier.
Variable ltv_brackets : list bracket.
Variable expiry_days : Z.

Local Abbreviation m_order := (month_order M cashback_config ltv_brackets expiry_days false).
Local Abbreviation f_order := (full_order cashback_config ltv_brackets expiry_days).

Lemma agree_nil (b : bucket) : agree M b b [].
Proof. split; reflexivity. Qed.

Lemma agree_trans (b0 b1 b2 : bucket) (r1 r2 : list trace_row) :
  agree M b0 b1 r1 -> agree M b1 b2 r2 -> agree M b0 b2 (r1 ++ r2).
Proof.
  intros [Hs1 Hg1] [Hs2 Hg2]. unfold agree.
  rewrite month_rows_app, !map_app, !fold_left_app, <- Hs1, <- Hg1.
  split; assumption.
Qed.

Lemma order_agree (cid : string) (o : order) (n : Z)
    (ms ms' : month_state false) (fs fs' : full_state) :
  m_order cid ms o = Ok ms' ->
  f_order cid fs (n, o) = Ok fs' ->
  exists rows,
    f_monthly_results fs' = f_monthly_results fs ++ rows
    /\ agree M (m_results ms) (m_results ms') rows.
Proof.
  unfold month_order, full_order. intros Hm Hf.
  destruct (strptime (order_date o)) as [d|].
  - remember (strftime_Ym d) as mk eqn:Hmk. clear Hmk.
    apply bind_Ok in Hm. destruct Hm as (p & _ & Hm).
    apply bind_Ok in Hf. destruct Hf as (q & _ & Hf).
    injection Hf as <-. simpl. eexists. split; [reflexivity|].
    unfold agree, month_rows. simpl.
    destruct (String.eqb mk M); simpl in Hm;
      injection Hm as <-; simpl; split; reflexivity.
  - injection Hm as <-. injection Hf as <-. exists [].
    rewrite app_nil_r. split; [reflexivity | apply agree_nil].
Qed.

Lemma orders_agree (cid : string) (l : list order) :
  forall (n : Z) (ms ms' : month_state false) (fs fs' : full_state),
    Py.for_each (m_order cid) l ms = Ok ms' ->
    Py.for_each (f_order cid) (Py.enumerate n l) fs = Ok fs' ->
    exists rows,
      f_monthly_results fs' = f_monthly_results fs ++ rows
      /\ agree M (m_results ms) (m_results ms') rows.
Proof.
  induction l as [|o l IH]; intros n ms ms' fs fs' Hm Hf; simpl in Hm, Hf.
  - injection Hm as <-. injection Hf as <-. exists [].
    rewrite app_nil_r. split; [reflexivity | apply agree_nil].
  - apply bind_Ok in Hm. destruct Hm as (ms1 & Hm1 & Hm).
    apply bind_Ok in Hf. destruct Hf as (fs1 & Hf1 & Hf).
    destruct (order_agree cid o n ms ms1 fs fs1 Hm1 Hf1) as (r1 & Hr1 & Ha1).
    destruct (IH _ _ _ _ _ Hm Hf) as (r2 & Hr2 & Ha2).
    exists (r1 ++ r2). rewrite Hr2, Hr1, <- app_assoc.
    split; [reflexivity | exact (agree_trans _ _ _ _ _ Ha1 Ha2)].
Qed.

Lemma customer_agree (cid : string) (orders : list order)
    (b b' : bucket) (tr tr' : list trace_row) (rec : customer_result) :
  month_customer M cashback_config ltv_brackets expiry_days false cid orders b
  = Ok b' ->
  full_customer cashback_config ltv_brackets expiry_days cid orders tr
  = Ok (rec, tr') ->
  exists rows, tr' = tr ++ rows /\ agree M b b' rows.
Proof.
  unfold month_customer, full_customer. intros Hm Hf.
  apply bind_Ok in Hm. destruct Hm as (ms & Hm1 & Hm).
  apply bind_Ok in Hf. destruct Hf as (fs & Hf1 & Hf).
  destruct (orders_agree cid _ _ _ _ _ _ Hm1 Hf1) as (rows & Hrows & Hag).
  injection Hf as _ <-. exists rows. split; [exact Hrows|].
  simpl in Hag. destruct Hag as [Hs Hg].
  destruct (m_contributed ms); simpl in Hm; injection Hm as <-;
    split; assumption.
Qed.

Lemma rows_agree (df : list row) :
  forall (b b' : bucket) (cr cr' : gmap string customer_result)
         (tr tr' : list trace_row),
    Py.for_each (month_row M cashback_config ltv_brackets expiry_days false) df b
    = Ok b' ->
    Py.for_each (full_row cashback_config ltv_brackets expiry_days) df (cr, tr)
    = Ok (cr', tr') ->
    exists rows, tr' = tr ++ rows /\ agree M b b' rows.
Proof.
  induction df as [|rw df IH]; intros b b' cr cr' tr tr' Hm Hf; simpl in Hm, Hf.
  - injection Hm as <-. injection Hf as <- <-. exists [].
    rewrite app_nil_r. split; [reflexivity | apply agree_nil].
  - apply bind_Ok in Hm. destruct Hm as (b1 & Hm1 & Hm).
    apply bind_Ok in Hf. destruct Hf as ([cr1 tr1] & Hf1 & Hf).
    unfold month_row in Hm1. unfold full_row in Hf1.
    apply bind_Ok in Hm1. destruct Hm1 as (orders & Hparse & Hm1).
    apply bind_Ok in Hf1. destruct Hf1 as (orders' & Hparse' & Hf1).
    rewrite Hparse in Hparse'. injection Hparse' as <-.
    apply bind_Ok in Hf1. destruct Hf1 as ([rec tr2] & Hf1 & Hf2).
    injection Hf2 as <- <-.
    destruct (customer_agree _ _ _ _ _ _ _ Hm1 Hf1) as (r1 & Hr1 & Ha1).
    destruct (IH _ _ _ _ _ _ Hm Hf) as (r2 & Hr2 & Ha2).
    exists (r1 ++ r2). rewrite Hr2, Hr1, <- app_assoc.
    split; [reflexivity | exact (agree_trans _ _ _ _ _ Ha1 Ha2)].
Qed.

(** C2.  When the month-scoped driver without bracket breakdown and the
    full-history driver both return on the same table and configuration, the
    month's [total_silver_rev] and [total_gold_rev] are the sums of
    [silver_rev] and [gold_rev] over the trace rows whose month key is the
    target month, and so is the sum of the two. *)
Theorem driver_consistency (df : list row) (r : bucket)
    (customer_results : gmap string customer_result) (trace : list trace_row) :
  calculate_cashback_for_month M cashback_config ltv_brackets expiry_days false df
  = Ok r ->
  calculate_cashback cashback_config ltv_brackets expiry_days df
  = Ok (customer_results, trace) ->
  total_silver_rev r = Py.sum (map t_silver_rev (month_rows M trace))
  /\ total_gold_rev r = Py.sum (map t_gold_rev (month_rows M trace))
  /\ total_gold_rev r + total_silver_rev r
     = Py.sum (map t_gold_rev (month_rows M trace))
       + Py.sum (map t_silver_rev (month_rows M trace)).
Proof.
  unfold calculate_cashback_for_month, calculate_cashback. intros Hm Hf.
  destruct (rows_agree df _ _ _ _ _ _ Hm Hf) as (rows & Hrows & Hs & Hg).
  simpl in Hrows. subst rows. simpl in Hs, Hg.
  assert (Hs' : total_silver_rev r = Py.sum (map t_silver_rev (month_rows M trace)))
    by exact Hs.
  assert (Hg' : total_gold_rev r = Py.sum (map t_gold_rev (month_rows M trace)))
    by exact Hg.
  rewrite <- Hs', <- Hg'. repeat split; reflexivity.
Qed.

End Consistency.

(* ================================================================== *)
(** * The order of strings and the stable sort *)
(* ================================================================== *)

Lemma string_compare_cons (c1 c2 : ascii) (s1 s2 : string) :
  String.compare (String c1 s1) (String c2 s2)
  = match N.compare (N_of_ascii c1) (N_of_ascii c2) with
    | Eq => String.compare s1 s2
    | Lt => Lt
    | Gt => Gt
    end.
Proof. reflexivity. Qed.

Lemma string_compare_refl (s : string) : String.compare s s = Eq.
Proof.
  induction s as [|c s IH]; [reflexivity|].
  rewrite string_compare_cons, N.compare_refl. exact IH.
Qed.

Lemma string_leb_refl (s : string) : String.leb s s = true.
Proof. unfold String.leb. rewrite string_compare_refl. reflexivity. Qed.

Lemma string_ltb_leb (s1 s2 : string) : String.ltb s1 s2 = negb (String.leb s2 s1).
Proof.
  unfold String.ltb, String.leb. rewrite (String.compare_antisym s1 s2).
  destruct (String.compare s2 s1); reflexivity.
Qed.

Lemma string_leb_trans (a : string) :
  forall b c : string,
    String.leb a b = true -> String.leb b c = true -> String.leb a c = true.
Proof.
  unfold String.leb.
  induction a as [|x a IH]; intros [|y b] [|z c]; simpl; try congruence.
  unfold Ascii.compare.
  destruct (N.compare_spec (N_of_ascii x) (N_of_ascii y)) as [Hxy | Hxy | Hxy];
    destruct (N.compare_spec (N_of_ascii y) (N_of_ascii z)) as [Hyz | Hyz | Hyz];
    destruct (N.compare_spec (N_of_ascii x) (N_of_ascii z)) as [Hxz | Hxz | Hxz];
    try congruence; try lia.
  apply IH.
Qed.

Section StableSort.

Context {A : Type} (key : A -> string).

Lemma insert_by_perm (x : A) (l : list A) :
  Permutation (Py.insert_by key x l) (x :: l).
Proof.
  induction l as [|y l IH]; simpl; [apply Permutation_refl|].
  destruct (String.ltb (key y) (key x)).
  - eapply Permutation_trans; [apply perm_skip, IH | apply perm_swap].
  - apply Permutation_refl.
Qed.

Lemma sort_by_perm (l : list A) : Permutation (Py.sort_by key l) l.
Proof.
  induction l as [|x l IH]; simpl; [apply perm_nil|].
  eapply Permutation_trans; [apply insert_by_perm | apply perm_skip, IH].
Qed.

Lemma insert_by_Forall (P : A -> Prop) (x : A) (l : list A) :
  P x -> Forall P l -> Forall P (Py.insert_by key x l).
Proof.
  intros Hx Hl. induction Hl as [|y l Hy Hl IH]; simpl.
  - constructor; [exact Hx | constructor].
  - destruct (String.ltb (key y) (key x)); constructor; auto.
Qed.

Lemma insert_by_sorted (x : A) (l : list A) :
  StronglySorted (key_le key) l -> StronglySorted (key_le key) (Py.insert_by key x l).
Proof.
  induction 1 as [|y l Hl IH Hy]; simpl.
  - constructor; constructor.
  - destruct (String.ltb (key y) (key x)) eqn:E.
    + constructor; [exact IH|].
      apply insert_by_Forall; [|exact Hy].
      unfold key_le. rewrite string_ltb_leb in E.
      destruct (String.leb_total (key y) (key x)) as [H | H]; [exact H|].
      rewrite H in E. discriminate.
    + assert (Hxy : (key_le key) x y).
      { unfold key_le. rewrite string_ltb_leb in E.
        destruct (String.leb (key x) (key y)); [reflexivity | discriminate]. }
      constructor; [constructor; assumption|].
      constructor; [exact Hxy|].
      eapply List.Forall_impl; [|exact Hy].
      intros z Hz. exact (string_leb_trans _ _ _ Hxy Hz).
Qed.

Lemma sort_by_sorted (l : list A) : StronglySorted (key_le key) (Py.sort_by key l).
Proof.
  induction l as [|x l IH]; simpl; [constructor|].
  apply insert_by_sorted, IH.
Qed.

Lemma insert_by_front (x : A) (l : list A) :
  Forall ((key_le key) x) l -> Py.insert_by key x l = x :: l.
Proof.
  intro H. destruct H as [|y l Hy _]; simpl; [reflexivity|].
  rewrite string_ltb_leb. unfold key_le in Hy. rewrite Hy. reflexivity.
Qed.

Lemma filter_insert_by (P : A -> bool) (x : A) (l : list A) :
  StronglySorted (key_le key) l ->
  List.filter P (Py.insert_by key x l)
  = if P x then Py.insert_by key x (List.filter P l) else List.filter P l.
Proof.
  induction 1 as [|y l Hl IH Hy]; simpl.
  - destruct (P x); reflexivity.
  - destruct (String.ltb (key y) (key x)) eqn:E; simpl.
    + rewrite IH. destruct (P y), (P x); simpl; rewrite ?E; reflexivity.
    + destruct (P x) eqn:Px; [|reflexivity].
      symmetry. apply insert_by_front.
      assert (Hxy : (key_le key) x y).
      { unfold key_le. rewrite string_ltb_leb in E.
        destruct (String.leb (key x) (key y)); [reflexivity | discriminate]. }
      assert (Hall : Forall ((key_le key) x) (y :: l)).
      { constructor; [exact Hxy|]. eapply List.Forall_impl; [|exact Hy].
        intros z Hz. exact (string_leb_trans _ _ _ Hxy Hz). }
      rewrite List.Forall_forall in Hall |- *.
      intros z Hz. apply Hall.
      change (In z (List.filter P (y :: l))) in Hz.
      apply List.filter_In in Hz. apply Hz.
Qed.

(** Sorting commutes with dropping elements: this is stability. *)
Lemma filter_sort_by (P : A -> bool) (l : list A) :
  List.filter P (Py.sort_by key l) = Py.sort_by key (List.filter P l).
Proof.
  induction l as [|x l IH]; simpl; [reflexivity|].
  rewrite filter_insert_by by apply sort_by_sorted.
  destruct (P x); simpl; rewrite IH; reflexivity.
Qed.

Lemma sort_by_same_key (k : string) (l : list A) :
  Forall (fun a => key a = k) l -> Py.sort_by key l = l.
Proof.
  induction 1 as [|x l Hx Hl IH]; simpl; [reflexivity|].
  rewrite IH. apply insert_by_front.
  eapply List.Forall_impl; [|exact Hl].
  intros z Hz. unfold key_le. rewrite Hx, Hz. apply string_leb_refl.
Qed.

Lemma sort_by_stable (k : string) (l : list A) :
  List.filter (fun a => String.eqb (key a) k) (Py.sort_by key l)
  = List.filter (fun a => String.eqb (key a) k) l.
Proof.
  rewrite filter_sort_by. apply (sort_by_same_key k).
  apply List.Forall_forall. intros a Ha. apply List.filter_In in Ha.
  apply String.eqb_eq, Ha.
Qed.

End StableSort.

(* ================================================================== *)
(** * Orders whose date does not parse *)
(* ================================================================== *)

Lemma price_order_inv cfg brs W tag n o d w ltv p :
  price_order cfg brs W tag n o d w ltv = Ok p ->
  exists lbl c,
    get_ltv_bracket ltv brs = Ok lbl /\ cfg !! lbl = Some c
    /\ p_bracket p = lbl
    /\ p_order_value p = order_value o
    /\ p_silver_cashback p = silver_revenue o * (silver_cb c / Py.of_Z 100)
    /\ p_gold_cashback p = gold_revenue o * (gold_cb c / Py.of_Z 100)
    /\ p_coins_used p
       = (if (1 <? n)%Z
          then Py.min (wallet_sum (expire d W w))
                      (order_value o * (redeem_pct c / Py.of_Z 100))
          else Py.of_Z 0)
    /\ p_amount_paid p = order_value o - p_coins_used p - promo_amount o
    /\ p_ltv p = ltv + p_amount_paid p.
Proof.
  unfold price_order. intro H.
  destruct (get_ltv_bracket ltv brs) as [lbl|]; simpl in H; [|discriminate].
  unfold Py.getitem in H.
  destruct (cfg !! lbl) as [c|] eqn:Hc; simpl in H; [|discriminate].
  injection H as <-. exists lbl, c. repeat split; try reflexivity. exact Hc.
Qed.

Lemma valid_cons (o : order) (l : list order) (d : datetime) :
  strptime (order_date o) = Some d ->
  valid_orders (o :: l) = o :: valid_orders l
  /\ valid_dates (o :: l) = d :: valid_dates l.
Proof.
  intro H. unfold valid_orders, valid_dates, valid.
  cbn [List.filter omap list_omap]. rewrite H. split; reflexivity.
Qed.

Lemma invalid_cons (o : order) (l : list order) :
  strptime (order_date o) = None ->
  valid_orders (o :: l) = valid_orders l
  /\ valid_dates (o :: l) = valid_dates l.
Proof.
  intro H. unfold valid_orders, valid_dates, valid.
  cbn [List.filter omap list_omap]. rewrite H. split; reflexivity.
Qed.

Lemma valid_orders_sort (l : list order) :
  valid_orders (Py.sort_by order_date l) = Py.sort_by order_date (valid_orders l).
Proof. apply filter_sort_by. Qed.

Section InvalidDates.

Variable target_month : string.
Variable cashback_config : gmap string tier.
Variable ltv_brackets : list bracket.
Variable expiry_days : Z.
Variable use_ltv : bool.

Local Abbreviation m_order :=
  (month_order target_month cashback_config ltv_brackets expiry_days use_ltv).
Local Abbreviation f_order := (full_order cashback_config ltv_brackets expiry_days).

Lemma month_order_invalid (cid : string) (st : month_state use_ltv) (o : order) :
  valid o = false -> m_order cid st o = Ok st.
Proof.
  unfold valid, month_order. destruct (strptime (order_date o)); [discriminate|].
  reflexivity.
Qed.

Lemma full_order_invalid (cid : string) (st : full_state) (n : Z) (o : order) :
  valid o = false -> f_order cid st (n, o) = Ok st.
Proof.
  unfold valid, full_order. destruct (strptime (order_date o)); [discriminate|].
  reflexivity.
Qed.

Lemma month_loop_valid (cid : string) (l : list order) :
  forall st : month_state use_ltv,
    Py.for_each (m_order cid) l st = Py.for_each (m_order cid) (valid_orders l) st.
Proof.
  induction l as [|o l IH]; intro st; [reflexivity|].
  unfold valid_orders. cbn [List.filter Py.for_each].
  destruct (valid o) eqn:E.
  - cbn [Py.for_each]. destruct (m_order cid st o); [apply IH | reflexivity].
  - rewrite (month_order_invalid cid st o E). apply IH.
Qed.

Lemma month_customer_valid (cid : string) (orders : list order)
    (r : results use_ltv) :
  month_customer target_month cashback_config ltv_brackets expiry_days use_ltv
                 cid orders r
  = month_customer target_month cashback_config ltv_brackets expiry_days use_ltv
                   cid (valid_orders orders) r.
Proof.
  unfold month_customer.
  rewrite month_loop_valid, valid_orders_sort. reflexivity.
Qed.

Lemma full_loop_effect (cid : string) (l : list order) :
  forall (n : Z) (st st' : full_state),
    Py.for_each (f_order cid) (Py.enumerate n l) st = Ok st' ->
    exists rows, full_effect l st st' rows.
Proof.
  induction l as [|o l IH]; intros n st st' H; cbn [Py.enumerate Py.for_each] in H.
  - injection H as <-. exists []. split; try reflexivity.
    symmetry. apply app_nil_r.
  - apply bind_Ok in H. destruct H as (st1 & H1 & H).
    destruct (IH _ _ _ H) as (rows & E).
    unfold full_order in H1.
    destruct (strptime (order_date o)) as [d|] eqn:Hd.
    + remember (strftime_Ym d) as mk eqn:Hmk. clear Hmk.
      apply bind_Ok in H1. destruct H1 as (p & _ & H1).
      injection H1 as <-.
      destruct E as [E1 E2 E3 E4 E5 E6 E7 E8].
      cbn [f_monthly_results f_total_silver_rev f_total_gold_rev f_total_promo
           f_total_silver_cb f_total_gold_cb f_total_coins_used] in *.
      lazymatch type of E1 with
      | _ = (_ ++ [?r]) ++ _ => exists (r :: rows)
      end.
      destruct (valid_cons o l d Hd) as [Hv Hds].
      split; rewrite ?Hv, ?Hds;
        cbn [map fold_left t_order_date t_silver_cb t_gold_cb t_coins_used];
        try assumption.
      * rewrite E1, <- app_assoc. reflexivity.
      * f_equal. exact E2.
    + injection H1 as <-. exists rows.
      destruct (invalid_cons o l Hd) as [Hv Hds].
      destruct E as [E1 E2 E3 E4 E5 E6 E7 E8].
      split; rewrite ?Hv, ?Hds; assumption.
Qed.

Lemma month_loop_skips (cid : string) (pre l : list order) :
  Forall (fun o => valid o = false) pre ->
  forall st : month_state use_ltv,
    Py.for_each (m_order cid) (pre ++ l) st = Py.for_each (m_order cid) l st.
Proof.
  induction 1 as [|o pre Ho _ IH]; intro st; [reflexivity|].
  cbn [app Py.for_each]. rewrite (month_order_invalid cid st o Ho). apply IH.
Qed.

Lemma price_order_first cfg brs W tag o d w ltv p :
  price_order cfg brs W tag 1 o d w ltv = Ok p -> p_coins_used p = Py.of_Z 0.
Proof.
  intro H. apply price_order_inv in H.
  destruct H as (lbl & c & _ & _ & _ & _ & _ & _ & H & _). exact H.
Qed.

(** In the month driver the first order whose date parses is priced with
    order number 1 and an empty wallet, whatever stands before it, and uses
    no coins. *)
Lemma month_first_valid_order (cid : string) (pre rest : list order)
    (o : order) (d : datetime) (r : results use_ltv)
    (st' : month_state use_ltv) :
  Forall (fun x => valid x = false) pre ->
  strptime (order_date o) = Some d ->
  Py.for_each (m_order cid) (pre ++ o :: rest)
              (mkmonth r [] (Py.of_Z 0) 0 false) = Ok st' ->
  exists p,
    price_order cashback_config ltv_brackets expiry_days None 1 o d []
                (Py.of_Z 0) = Ok p
    /\ p_coins_used p = Py.of_Z 0.
Proof.
  intros Hpre Hd H. rewrite (month_loop_skips cid pre _ Hpre) in H.
  cbn [Py.for_each] in H. apply bind_Ok in H. destruct H as (st1 & H1 & _).
  unfold month_order in H1. rewrite Hd in H1.
  apply bind_Ok in H1. destruct H1 as (p & Hp & _).
  cbn [m_order_num m_wallet m_ltv] in Hp. change (0 + 1)%Z with 1%Z in Hp.
  exists p. split; [exact Hp | exact (price_order_first _ _ _ _ _ _ _ _ _ Hp)].
Qed.

Lemma full_loop_skips (cid : string) (pre l : list order) :
  Forall (fun o => valid o = false) pre ->
  forall (n : Z) (st : full_state),
    Py.for_each (f_order cid) (Py.enumerate n (pre ++ l)) st
    = Py.for_each (f_order cid)
                  (Py.enumerate (n + Z.of_nat (length pre)) l) st.
Proof.
  induction 1 as [|o pre Ho _ IH]; intros n st.
  - cbn [app length Z.of_nat]. rewrite Z.add_0_r. reflexivity.
  - cbn [app Py.enumerate Py.for_each].
    rewrite (full_order_invalid cid st n o Ho). cbn [Py.bind].
    rewrite IH. f_equal. f_equal. cbn [length]. lia.
Qed.

(** In the full-history driver the first order whose date parses is priced
    with an empty wallet and with its position in the sorted list as order
    number; behind unparseable orders it takes the redemption branch, and
    then uses no coins exactly because the cap [max_usable] is not
    negative. *)
Lemma full_first_valid_order (cid : string) (pre rest : list order)
    (o : order) (d : datetime) (monthly_results : list trace_row)
    (st' : full_state) :
  Forall (fun x => valid x = false) pre ->
  strptime (order_date o) = Some d ->
  Py.for_each (f_order cid) (Py.enumerate 1 (pre ++ o :: rest))
              (init_full monthly_results) = Ok st' ->
  exists p lbl c,
    price_order cashback_config ltv_brackets expiry_days (Some expiry_days)
                (1 + Z.of_nat (length pre)) o d [] (Py.of_Z 0) = Ok p
    /\ get_ltv_bracket (Py.of_Z 0) ltv_brackets = Ok lbl
    /\ cashback_config !! lbl = Some c
    /\ (pre = [] -> p_coins_used p = Py.of_Z 0)
    /\ (pre <> [] ->
        p_coins_used p
        = Py.min (Py.of_Z 0) (order_value o * (redeem_pct c / Py.of_Z 100)))
    /\ (0 <= order_value o * (redeem_pct c / Py.of_Z 100) ->
        p_coins_used p = Py.of_Z 0).
Proof.
  intros Hpre Hd H. rewrite (full_loop_skips cid pre _ Hpre) in H.
  cbn [Py.enumerate Py.for_each] in H.
  apply bind_Ok in H. destruct H as (st1 & H1 & _).
  unfold full_order in H1. rewrite Hd in H1.
  apply bind_Ok in H1. destruct H1 as (p & Hp & _).
  cbn [init_full f_wallet f_ltv] in Hp.
  pose proof (price_order_inv _ _ _ _ _ _ _ _ _ _ Hp)
    as (lbl & c & Hl & Hc & _ & _ & _ & _ & Hu & _).
  change (wallet_sum (expire d expiry_days [])) with (Py.of_Z 0) in Hu.
  exists p, lbl, c. split; [exact Hp|]. split; [exact Hl|]. split; [exact Hc|].
  split; [|split].
  - intros ->. rewrite Hu. reflexivity.
  - intro Hne. rewrite Hu.
    replace (1 <? 1 + Z.of_nat (length pre))%Z with true; [reflexivity|].
    symmetry. apply Z.ltb_lt. destruct pre; [contradiction | cbn [length]; lia].
  - intro Hcap. rewrite Hu. destruct (1 <? 1 + Z.of_nat (length pre))%Z;
      [apply min_l; exact Hcap | reflexivity].
Qed.

Lemma full_loop_repeat (cid : string) (l : list order) :
  forall (n : Z) (st st' : full_state),
    (1 < n)%Z ->
    Py.for_each (f_order cid) (Py.enumerate n l) st = Ok st' ->
    f_repeat_revenue st'
    = fold_left Qcplus (map order_value (valid_orders l)) (f_repeat_revenue st).
Proof.
  induction l as [|o l IH]; intros n st st' Hn H;
    cbn [Py.enumerate Py.for_each] in H.
  - injection H as <-. reflexivity.
  - apply bind_Ok in H. destruct H as (st1 & H1 & H).
    apply IH in H; [|lia]. rewrite H. clear H IH.
    unfold full_order in H1.
    destruct (strptime (order_date o)) as [d|] eqn:Hd.
    + remember (strftime_Ym d) as mk eqn:Hmk. clear Hmk.
      apply bind_Ok in H1. destruct H1 as (p & Hp & H1).
      apply price_order_inv in Hp.
      destruct Hp as (lbl & c & _ & _ & _ & Hv & _).
      injection H1 as <-. cbn [f_repeat_revenue].
      replace (1 <? n)%Z with true by (symmetry; apply Z.ltb_lt; exact Hn).
      rewrite (proj1 (valid_cons o l d Hd)), Hv. reflexivity.
    + injection H1 as <-. rewrite (proj1 (invalid_cons o l Hd)). reflexivity.
Qed.

Lemma full_loop_first (cid : string) (o : order) (l : list order)
    (st st' : full_state) :
  valid o = true ->
  Py.for_each (f_order cid) (Py.enumerate 1 (o :: l)) st = Ok st' ->
  f_repeat_revenue st'
  = fold_left Qcplus (map order_value (valid_orders l)) (f_repeat_revenue st).
Proof.
  intros Hv H. cbn [Py.enumerate Py.for_each] in H.
  apply bind_Ok in H. destruct H as (st1 & H1 & H).
  apply full_loop_repeat in H; [|lia]. rewrite H. clear H.
  unfold full_order in H1. unfold valid in Hv.
  destruct (strptime (order_date o)) as [d|]; [|discriminate].
  remember (strftime_Ym d) as mk eqn:Hmk. clear Hmk.
  apply bind_Ok in H1. destruct H1 as (p & _ & H1).
  injection H1 as <-. reflexivity.
Qed.

Lemma full_customer_num_orders (cid : string) (orders : list order)
    (monthly_results trace : list trace_row) (rec : customer_result) :
  full_customer cashback_config ltv_brackets expiry_days cid orders
                monthly_results = Ok (rec, trace) ->
  num_orders rec = Z.of_nat (length orders).
Proof.
  unfold full_customer. intro H.
  apply bind_Ok in H. destruct H as (st & _ & H).
  injection H as <- _. cbn [num_orders].
  f_equal. apply Permutation_length, sort_by_perm.
Qed.

(** C4, as the code has it.  The lifetime record reports as [num_orders]
    the number of parsed orders of the customer, whether their date parses
    or not, which is the number of valid orders when every date parses; and
    when the first order in processing order has a date that parses,
    [repeat_revenue] is the sum of [order_value] over the valid orders
    except the first one. *)
Theorem lifetime_aggregate (cid : string) (orders : list order)
    (monthly_results trace : list trace_row) (rec : customer_result) :
  full_customer cashback_config ltv_brackets expiry_days cid orders
                monthly_results = Ok (rec, trace) ->
  num_orders rec = Z.of_nat (length orders)
  /\ (valid_orders orders = orders ->
      num_orders rec = Z.of_nat (length (valid_orders orders)))
  /\ (starts_valid (Py.sort_by order_date orders) = true ->
      repeat_revenue rec
      = Py.sum (map order_value
                    (tl (valid_orders (Py.sort_by order_date orders))))).
Proof.
  intro H. pose proof (full_customer_num_orders _ _ _ _ _ H) as Hlen.
  unfold full_customer in H.
  apply bind_Ok in H. destruct H as (st & Hloop & H).
  injection H as <- _. cbn [num_orders repeat_revenue] in Hlen |- *.
  split; [exact Hlen|]. split.
  - intros ->. exact Hlen.
  - intro Hs. destruct (Py.sort_by order_date orders) as [|o l].
    + cbn [Py.enumerate Py.for_each] in Hloop. injection Hloop as <-. reflexivity.
    + cbn [starts_valid] in Hs.
      rewrite (full_loop_first cid o l _ _ Hs Hloop).
      unfold valid_orders at 2. cbn [List.filter]. rewrite Hs. reflexivity.
Qed.

End InvalidDates.

Section SkippedOrders.

Variable target_month : string.
Variable cashback_config : gmap string tier.
Variable ltv_brackets : list bracket.
Variable expiry_days : Z.
Variable use_ltv : bool.

Local Abbreviation m_order :=
  (month_order target_month cashback_config ltv_brackets expiry_days use_ltv).
Local Abbreviation f_order := (full_order cashback_config ltv_brackets expiry_days).

(** The body of the full-history loop looks at the order number only to
    tell the first position from the later ones. *)
Lemma full_order_num (cid : string) (st : full_state) (n n' : Z) (o : order) :
  (1 <? n)%Z = (1 <? n')%Z ->
  f_order cid st (n, o) = f_order cid st (n', o).
Proof.
  intro H. unfold full_order, price_order. rewrite H. reflexivity.
Qed.

(** From the second position on, the full-history loop runs as it does on
    the orders whose date parses alone. *)
Lemma full_loop_later (cid : string) (l : list order) :
  forall (n n' : Z) (st : full_state),
    (2 <= n)%Z -> (2 <= n')%Z ->
    Py.for_each (f_order cid) (Py.enumerate n l) st
    = Py.for_each (f_order cid) (Py.enumerate n' (valid_orders l)) st.
Proof.
  induction l as [|o l IH]; intros n n' st Hn Hn'; [reflexivity|].
  unfold valid_orders. cbn [List.filter]. fold (valid_orders l).
  cbn [Py.enumerate Py.for_each].
  destruct (valid o) eqn:E.
  - cbn [Py.enumerate Py.for_each].
    rewrite (full_order_num cid st n n' o)
      by (transitivity true; [|symmetry]; apply Z.ltb_lt; lia).
    destruct (f_order cid st (n', o)) as [st1|e]; cbn [Py.bind];
      [apply IH; lia | reflexivity].
  - rewrite (full_order_invalid cashback_config ltv_brackets expiry_days
               cid st n o E).
    cbn [Py.bind]. apply IH; lia.
Qed.

Lemma full_loop_starts_valid (cid : string) (l : list order) (st : full_state) :
  starts_valid l = true ->
  Py.for_each (f_order cid) (Py.enumerate 1 l) st
  = Py.for_each (f_order cid) (Py.enumerate 1 (valid_orders l)) st.
Proof.
  destruct l as [|o l]; [reflexivity|]. cbn [starts_valid]. intro Hv.
  unfold valid_orders. cbn [List.filter]. rewrite Hv. fold (valid_orders l).
  cbn [Py.enumerate Py.for_each].
  destruct (f_order cid st (1%Z, o)) as [st1|e]; cbn [Py.bind]; [|reflexivity].
  apply full_loop_later; lia.
Qed.

Lemma full_customer_starts_valid (cid : string) (orders : list order)
    (monthly_results : list trace_row) :
  starts_valid (Py.sort_by order_date orders) = true ->
  full_customer cashback_config ltv_brackets expiry_days cid orders
                monthly_results
  = match full_customer cashback_config ltv_brackets expiry_days cid
                        (valid_orders orders) monthly_results with
    | Ok (rec, trace) =>
        Ok (set_num_orders rec (Z.of_nat (length orders)), trace)
    | Raise e => Raise e
    end.
Proof.
  intro Hs. unfold full_customer.
  rewrite (full_loop_starts_valid cid _ _ Hs), valid_orders_sort.
  destruct (Py.for_each _ _ (init_full monthly_results)) as [st|e];
    cbn [mbind res_mbind Py.bind]; [|reflexivity].
  unfold set_num_orders.
  cbn [final_ltv c_total_silver_rev c_total_gold_rev repeat_revenue
       c_total_promo c_total_silver_cb c_total_gold_cb c_total_coins_used
       final_wallet_balance].
  do 3 f_equal. f_equal. apply Permutation_length, sort_by_perm.
Qed.

(** C3, as the code has it.  An order whose date does not parse changes
    nothing in the state of either loop: ledger, cumulative LTV, totals,
    trace and, in the month driver, the order counter stay as they were.  A
    customer's month result is the one computed without such orders.  In the
    full-history driver, for a customer whose first order in processing
    order has a date that parses, the record, but for [num_orders], and the
    trace are the ones computed without such orders; the trace has one row
    per order whose date parses, the revenue, promo, cashback and redemption
    totals are sums over those orders or rows, and [num_orders] counts all
    parsed orders. *)
Theorem invalid_date_skip (cid : string) :
  (forall (o : order) (st : month_state use_ltv),
      valid o = false -> m_order cid st o = Ok st)
  /\ (forall (o : order) (n : Z) (st : full_state),
      valid o = false -> f_order cid st (n, o) = Ok st)
  /\ (forall (orders : list order) (r : results use_ltv),
      month_customer target_month cashback_config ltv_brackets expiry_days
                     use_ltv cid orders r
      = month_customer target_month cashback_config ltv_brackets expiry_days
                       use_ltv cid (valid_orders orders) r)
  /\ (forall (orders : list order) (monthly_results : list trace_row),
      starts_valid (Py.sort_by order_date orders) = true ->
      full_customer cashback_config ltv_brackets expiry_days cid orders
                    monthly_results
      = match full_customer cashback_config ltv_brackets expiry_days cid
                            (valid_orders orders) monthly_results with
        | Ok (rec, trace) =>
            Ok (set_num_orders rec (Z.of_nat (length orders)), trace)
        | Raise e => Raise e
        end)
  /\ (forall (orders : list order) (monthly_results trace : list trace_row)
             (rec : customer_result),
      full_customer cashback_config ltv_brackets expiry_days cid orders
                    monthly_results = Ok (rec, trace) ->
      exists rows,
        trace = monthly_results ++ rows
        /\ map t_order_date rows = valid_dates (Py.sort_by order_date orders)
        /\ c_total_silver_rev rec
           = Py.sum (map silver_revenue
                         (valid_orders (Py.sort_by order_date orders)))
        /\ c_total_gold_rev rec
           = Py.sum (map gold_revenue
                         (valid_orders (Py.sort_by order_date orders)))
        /\ c_total_promo rec
           = Py.sum (map promo_amount
                         (valid_orders (Py.sort_by order_date orders)))
        /\ c_total_silver_cb rec = Py.sum (map t_silver_cb rows)
        /\ c_total_gold_cb rec = Py.sum (map t_gold_cb rows)
        /\ c_total_coins_used rec = Py.sum (map t_coins_used rows)
        /\ num_orders rec = Z.of_nat (length orders)).
Proof.
  split; [|split; [|split; [|split]]].
  - intros o st Hv. apply month_order_invalid, Hv.
  - intros o n st Hv. apply full_order_invalid, Hv.
  - intros orders r. apply month_customer_valid.
  - intros orders tr0 Hs. apply full_customer_starts_valid, Hs.
  - intros orders tr0 trace rec H.
    pose proof (full_customer_num_orders cashback_config ltv_brackets
                  expiry_days cid orders tr0 trace rec H) as Hn.
    unfold full_customer in H.
    apply bind_Ok in H. destruct H as (st & Hloop & H).
    injection H as <- <-.
    destruct (full_loop_effect cashback_config ltv_brackets expiry_days
                cid _ _ _ _ Hloop) as (rows & E).
    destruct E as [E1 E2 E3 E4 E5 E6 E7 E8].
    exists rows. cbn in E1, E3, E4, E5, E6, E7, E8 |- *.
    repeat split; assumption.
Qed.

End SkippedOrders.

(* ================================================================== *)
(** * The ledger across the orders of a customer *)
(* ================================================================== *)

Lemma expire_expire (d d' : datetime) (W : Z) (w : list txn) :
  (toordinal d' <= toordinal d)%Z ->
  expire d W (expire d' W w) = expire d W w.
Proof.
  intro H. unfold expire. induction w as [|t w IH]; cbn [List.filter]; [reflexivity|].
  destruct (days_between d' (earned_date t) <=? W)%Z eqn:E1;
    destruct (days_between d (earned_date t) <=? W)%Z eqn:E2;
    cbn [List.filter]; rewrite ?E2, IH; try reflexivity.
  apply Z.leb_le in E2. apply Z.leb_gt in E1. unfold days_between in *. lia.
Qed.

Lemma expire_deduct_dates (d : datetime) (W : Z) (w : list txn) :
  forall r : Py.num,
    map earned_date (expire d W (deduct r w)) = map earned_date (expire d W w).
Proof.
  unfold expire. induction w as [|t w IH]; intro r; cbn [deduct]; [reflexivity|].
  destruct (Py.leb r (Py.of_Z 0)); [reflexivity|].
  cbn [List.filter earned_date].
  destruct (days_between d (earned_date t) <=? W)%Z; cbn [map earned_date];
    rewrite IH; reflexivity.
Qed.

(** Pricing an order dated [d'] removes no entry that is within the window
    as of a date [d] not before [d']. *)
Lemma price_order_keeps cfg brs W tag n o (d d' : datetime) w ltv p :
  price_order cfg brs W tag n o d' w ltv = Ok p ->
  (toordinal d' <= toordinal d)%Z ->
  sublist (map earned_date (expire d W w))
          (map earned_date (expire d W (p_wallet p))).
Proof.
  unfold price_order. intros H Hd.
  destruct (get_ltv_bracket ltv brs) as [lbl|]; cbn in H; [|discriminate].
  destruct (Py.getitem cfg lbl) as [c|]; cbn in H; [|discriminate].
  injection H as <-. cbn [p_wallet].
  assert (Hkeep : forall r,
             map earned_date (expire d W w)
             = map earned_date
                 (expire d W (if (1 <? n)%Z then deduct r (expire d' W w)
                              else expire d' W w))).
  { intro r. destruct (1 <? n)%Z.
    - rewrite expire_deduct_dates, (expire_expire d d' W w Hd). reflexivity.
    - rewrite (expire_expire d d' W w Hd). reflexivity. }
  match goal with
  | |- context [if Py.ltb ?a ?b then _ else _] => destruct (Py.ltb a b)
  end.
  - rewrite expire_app, map_app, <- Hkeep. apply sublist_inserts_r. reflexivity.
  - rewrite <- Hkeep. reflexivity.
Qed.

Section ExpiryAcrossOrders.

Variable cashback_config : gmap string tier.
Variable ltv_brackets : list bracket.
Variable expiry_days : Z.

(** When the orders are processed in chronological order, an entry that is
    within the window as of the date [d] of a later order is still in the
    ledger when that order is reached: the dates of the entries alive as of
    [d] before the loop are among those alive as of [d] after it. *)
Lemma full_loop_keeps (cid : string) (d : datetime) (l : list order) :
  forall (n : Z) (st st' : full_state),
    Forall (fun d' => (toordinal d' <= toordinal d)%Z) (valid_dates l) ->
    Py.for_each (full_order cashback_config ltv_brackets expiry_days cid)
                (Py.enumerate n l) st = Ok st' ->
    sublist (map earned_date (expire d expiry_days (f_wallet st)))
            (map earned_date (expire d expiry_days (f_wallet st'))).
Proof.
  induction l as [|o l IH]; intros n st st' Hc H;
    cbn [Py.enumerate Py.for_each] in H.
  - injection H as <-. reflexivity.
  - apply bind_Ok in H. destruct H as (st1 & H1 & H).
    unfold full_order in H1.
    destruct (strptime (order_date o)) as [d'|] eqn:Hd.
    + rewrite (proj2 (valid_cons o l d' Hd)) in Hc.
      inversion Hc as [|? ? Hd' Hc']; subst.
      apply (IH _ _ _ Hc') in H. etransitivity; [|exact H]. clear H IH.
      remember (strftime_Ym d') as mk eqn:Hmk. clear Hmk.
      apply bind_Ok in H1. destruct H1 as (p & Hp & H1).
      injection H1 as <-. cbn [f_wallet].
      exact (price_order_keeps _ _ _ _ _ _ d d' _ _ _ Hp Hd').
    + rewrite (proj2 (invalid_cons o l Hd)) in Hc.
      injection H1 as <-. exact (IH _ _ _ Hc H).
Qed.

Lemma month_loop_keeps (target_month : string) (use_ltv : bool) (cid : string)
    (d : datetime) (l : list order) :
  forall st st' : month_state use_ltv,
    Forall (fun d' => (toordinal d' <= toordinal d)%Z) (valid_dates l) ->
    Py.for_each (month_order target_month cashback_config ltv_brackets
                             expiry_days use_ltv cid) l st = Ok st' ->
    sublist (map earned_date (expire d expiry_days (m_wallet st)))
            (map earned_date (expire d expiry_days (m_wallet st'))).
Proof.
  induction l as [|o l IH]; intros st st' Hc H; cbn [Py.for_each] in H.
  - injection H as <-. reflexivity.
  - apply bind_Ok in H. destruct H as (st1 & H1 & H).
    unfold month_order in H1.
    destruct (strptime (order_date o)) as [d'|] eqn:Hd.
    + rewrite (proj2 (valid_cons o l d' Hd)) in Hc.
      inversion Hc as [|? ? Hd' Hc']; subst.
      apply (IH _ _ Hc') in H. etransitivity; [|exact H]. clear H IH.
      remember (strftime_Ym d') as mk eqn:Hmk. clear Hmk.
      apply bind_Ok in H1. destruct H1 as (p & Hp & H1).
      pose proof (price_order_keeps _ _ _ _ _ _ d d' _ _ _ Hp Hd') as Hk.
      destruct (String.eqb mk target_month).
      * apply bind_Ok in H1. destruct H1 as (r & _ & H1).
        injection H1 as <-. exact Hk.
      * injection H1 as <-. exact Hk.
    + rewrite (proj2 (invalid_cons o l Hd)) in Hc.
      injection H1 as <-. exact (IH _ _ Hc H).
Qed.

(** From an empty wallet on, neither loop ever holds a negative balance. *)
Lemma full_loop_nonneg (cid : string) (l : list order) :
  forall (n : Z) (st st' : full_state),
    Forall (fun t => 0 <= balance t) (f_wallet st) ->
    Py.for_each (full_order cashback_config ltv_brackets expiry_days cid)
                (Py.enumerate n l) st = Ok st' ->
    Forall (fun t => 0 <= balance t) (f_wallet st').
Proof.
  induction l as [|o l IH]; intros n st st' Hw H;
    cbn [Py.enumerate Py.for_each] in H.
  - injection H as <-. exact Hw.
  - apply bind_Ok in H. destruct H as (st1 & H1 & H).
    apply (IH _ _ _) in H; [exact H|]. clear H IH.
    unfold full_order in H1.
    destruct (strptime (order_date o)) as [d'|].
    + remember (strftime_Ym d') as mk eqn:Hmk. clear Hmk.
      apply bind_Ok in H1. destruct H1 as (p & Hp & H1).
      injection H1 as <-. cbn [f_wallet].
      exact (price_order_nonneg _ _ _ _ _ _ _ _ _ _ Hw Hp).
    + injection H1 as <-. exact Hw.
Qed.

Lemma month_loop_nonneg (target_month : string) (use_ltv : bool)
    (cid : string) (l : list order) :
  forall st st' : month_state use_ltv,
    Forall (fun t => 0 <= balance t) (m_wallet st) ->
    Py.for_each (month_order target_month cashback_config ltv_brackets
                             expiry_days use_ltv cid) l st = Ok st' ->
    Forall (fun t => 0 <= balance t) (m_wallet st').
Proof.
  induction l as [|o l IH]; intros st st' Hw H; cbn [Py.for_each] in H.
  - injection H as <-. exact Hw.
  - apply bind_Ok in H. destruct H as (st1 & H1 & H).
    apply (IH _ _) in H; [exact H|]. clear H IH.
    unfold month_order in H1.
    destruct (strptime (order_date o)) as [d'|].
    + remember (strftime_Ym d') as mk eqn:Hmk. clear Hmk.
      apply bind_Ok in H1. destruct H1 as (p & Hp & H1).
      pose proof (price_order_nonneg _ _ _ _ _ _ _ _ _ _ Hw Hp) as Hk.
      destruct (String.eqb mk target_month).
      * apply bind_Ok in H1. destruct H1 as (r & _ & H1).
        injection H1 as <-. exact Hk.
      * injection H1 as <-. exact Hk.
    + injection H1 as <-. exact Hw.
Qed.

End ExpiryAcrossOrders.



(** C3 as stated fails: an order without a parseable date is counted in
    the order count the full-history driver reports. *)
Lemma unparseable_order_is_counted :
  exists (orders : list order) (cr : gmap string customer_result)
         (trace : list trace_row) (rec : customer_result),
    Forall2 (fun rw l => parse_order_history (order_history rw) = Ok l)
            na_last_df [orders]
    /\ map valid orders = [true; false]
    /\ calculate_cashback one_tier one_bracket 180 na_last_df = Ok (cr, trace)
    /\ cr !! "C1"%string = Some rec
    /\ length trace = 1%nat
    /\ num_orders rec = 2%Z.
Proof.
  eexists. eexists. eexists. eexists.
  split; [constructor; [vm_compute; reflexivity | constructor]|].
  split; [reflexivity|].
  split; [vm_compute; reflexivity|].
  split; [vm_compute; reflexivity|].
  split; reflexivity.
Qed.

(** C4 as stated fails: with an unparseable order sorted first, the one
    valid order is reported as two orders and its value as repeat revenue. *)
Lemma first_valid_order_counts_as_repeat :
  exists (orders : list order) (cr : gmap string customer_result)
         (trace : list trace_row) (rec : customer_result),
    Forall2 (fun rw l => parse_order_history (order_history rw) = Ok l)
            bad_first_df [orders]
    /\ map valid (Py.sort_by order_date orders) = [false; true]
    /\ calculate_cashback one_tier one_bracket 180 bad_first_df = Ok (cr, trace)
    /\ cr !! "C1"%string = Some rec
    /\ num_orders rec = 2%Z
    /\ Z.of_nat (length (valid_orders orders)) = 1%Z
    /\ repeat_revenue rec = Py.of_Z 1000
    /\ Py.sum (map order_value
                   (tl (valid_orders (Py.sort_by order_date orders))))
       = Py.of_Z 0.
Proof.
  eexists. eexists. eexists. eexists.
  split; [constructor; [vm_compute; reflexivity | constructor]|].
  split; [reflexivity|].
  split; [vm_compute; reflexivity|].
  split; [vm_compute; reflexivity|].
  split; [reflexivity|]. split; [reflexivity|].
  split; apply Qc_is_canon; reflexivity.
Qed.

(** C6 on the code.  Under a negative redemption percentage, the
    full-history driver gives the first valid order of a customer a non-zero
    [coins_used] when an unparseable order is sorted before it; the month
    driver gives the same order [coins_used = 0]. *)
Theorem first_valid_order_redeems_after_unparseable :
  exists (orders : list order) (cr : gmap string customer_result)
         (t : trace_row) (r : bucket),
    Forall2 (fun rw l => parse_order_history (order_history rw) = Ok l)
            bad_first_df [orders]
    /\ map valid (Py.sort_by order_date orders) = [false; true]
    /\ calculate_cashback negative_redeem one_bracket 180 bad_first_df
       = Ok (cr, [t])
    /\ t_order_date t = date_a
    /\ t_coins_used t = Py.of_Z (-200)
    /\ calculate_cashback_for_month "2024-01" negative_redeem one_bracket 180
                                    false bad_first_df = Ok r
    /\ total_silver_rev r = Py.of_Z 1000
    /\ total_coins_used r = Py.of_Z 0.
Proof.
  eexists. eexists. eexists. eexists.
  split; [constructor; [vm_compute; reflexivity | constructor]|].
  split; [reflexivity|].
  split; [vm_compute; reflexivity|].
  split; [reflexivity|].
  split; [apply Qc_is_canon; reflexivity|].
  split; [vm_compute; reflexivity|].
  split; apply Qc_is_canon; reflexivity.
Qed.

Local Close Scope Qc_scope.
Local Open Scope Z_scope.

(* ================================================================== *)
(** * Dates: ordinals and zero-padded texts *)
(* ================================================================== *)

Lemma valid_date_bounds (d : datetime) :
  valid_date d ->
  1 <= year d <= 9999 /\ 1 <= month d <= 12
  /\ 1 <= day d <= days_in_month (year d) (month d).
Proof. unfold valid_date, valid_ymd. lia. Qed.

Lemma days_before_year_succ (y : Z) :
  days_before_year (y + 1) = days_before_year y + 365 + leap_day y.
Proof.
  unfold days_before_year, leap_day, is_leap.
  replace (y + 1 - 1) with y by lia.
  destruct (Z.eqb_spec (y mod 4) 0); destruct (Z.eqb_spec (y mod 100) 0);
    destruct (Z.eqb_spec (y mod 400) 0); cbn [negb andb orb];
    Z.div_mod_to_equations; lia.
Qed.

Lemma days_before_year_mono (a b : Z) :
  a <= b -> days_before_year a <= days_before_year b.
Proof.
  unfold days_before_year. intro H. Z.div_mod_to_equations. lia.
Qed.

Ltac month_cases m H :=
  assert (m = 1 \/ m = 2 \/ m = 3 \/ m = 4 \/ m = 5 \/ m = 6 \/ m = 7
          \/ m = 8 \/ m = 9 \/ m = 10 \/ m = 11 \/ m = 12) as H by lia;
  repeat (destruct H as [H | H]); subst m.

Lemma day_of_year_bounds (y m d : Z) :
  1 <= m <= 12 -> 1 <= d <= days_in_month y m ->
  1 <= days_before_month y m + d <= 365 + leap_day y.
Proof.
  intros Hm Hd. unfold leap_day. month_cases m Hc;
    unfold days_before_month, days_in_month in *; simpl in *;
    destruct (is_leap y); simpl in *; lia.
Qed.

Lemma days_before_month_step (y m1 m2 d1 : Z) :
  1 <= m1 -> m1 < m2 -> m2 <= 12 -> d1 <= days_in_month y m1 ->
  days_before_month y m1 + d1 <= days_before_month y m2.
Proof.
  intros H1 H12 H2 Hd. month_cases m1 Hc1; month_cases m2 Hc2; try lia;
    unfold days_before_month, days_in_month in *; simpl in *;
    destruct (is_leap y); simpl in *; lia.
Qed.

Lemma toordinal_lt_year (a b : datetime) :
  valid_date a -> valid_date b -> year a < year b -> toordinal a < toordinal b.
Proof.
  intros Ha Hb Hy.
  apply valid_date_bounds in Ha. apply valid_date_bounds in Hb.
  destruct Ha as (_ & Hma & Hda). destruct Hb as (_ & Hmb & Hdb).
  pose proof (day_of_year_bounds _ _ _ Hma Hda) as Ba.
  pose proof (day_of_year_bounds _ _ _ Hmb Hdb) as Bb.
  pose proof (days_before_year_succ (year a)) as Hs.
  pose proof (days_before_year_mono (year a + 1) (year b) ltac:(lia)) as Hm.
  unfold toordinal. lia.
Qed.

Lemma toordinal_lt_month (a b : datetime) :
  valid_date a -> valid_date b -> year a = year b -> month a < month b ->
  toordinal a < toordinal b.
Proof.
  intros Ha Hb Hy Hm.
  apply valid_date_bounds in Ha. apply valid_date_bounds in Hb.
  destruct Ha as (_ & Hma & Hda). destruct Hb as (_ & Hmb & Hdb).
  pose proof (days_before_month_step (year a) (month a) (month b) (day a)
                ltac:(lia) Hm ltac:(lia) ltac:(lia)) as Hs.
  unfold toordinal. rewrite <- Hy. lia.
Qed.

Lemma toordinal_compare (a b : datetime) :
  valid_date a -> valid_date b ->
  (toordinal a ?= toordinal b) = date_compare a b.
Proof.
  intros Ha Hb. unfold date_compare.
  destruct (Z.compare_spec (year a) (year b)) as [Hy | Hy | Hy].
  - destruct (Z.compare_spec (month a) (month b)) as [Hm | Hm | Hm].
    + unfold toordinal. rewrite Hy, Hm.
      destruct (Z.compare_spec (day a) (day b)) as [Hd | Hd | Hd].
      * apply Z.compare_eq_iff. lia.
      * apply Z.compare_lt_iff. lia.
      * apply Z.compare_gt_iff. lia.
    + apply Z.compare_lt_iff. apply toordinal_lt_month; assumption.
    + apply Z.compare_gt_iff. apply toordinal_lt_month; auto.
  - apply Z.compare_lt_iff. apply toordinal_lt_year; assumption.
  - apply Z.compare_gt_iff. apply toordinal_lt_year; assumption.
Qed.

(** ** Zero-padded decimal texts *)

Lemma string_app_cons (x : ascii) (a b : string) :
  (String x a ++ b = String x (a ++ b))%string.
Proof. reflexivity. Qed.

Lemma string_app_nil_l (b : string) : ("" ++ b = b)%string.
Proof. reflexivity. Qed.

Lemma string_app_assoc (a b c : string) :
  ((a ++ b) ++ c = a ++ (b ++ c))%string.
Proof.
  induction a as [|x a IH]; [reflexivity|].
  rewrite !string_app_cons. f_equal. exact IH.
Qed.

Lemma string_app_nil_r (a : string) : (a ++ "" = a)%string.
Proof.
  induction a as [|x a IH]; [reflexivity|].
  rewrite string_app_cons. f_equal. exact IH.
Qed.

Lemma digit_char_code (n : Z) : N_of_ascii (digit_char n) = Z.to_N (48 + n mod 10).
Proof.
  unfold digit_char. apply N_ascii_embedding.
  pose proof (Z.mod_pos_bound n 10 ltac:(lia)). lia.
Qed.

Lemma compare_digit_chars (a b : Z) :
  (N_of_ascii (digit_char a) ?= N_of_ascii (digit_char b))%N
  = (a mod 10 ?= b mod 10).
Proof.
  rewrite !digit_char_code.
  pose proof (Z.mod_pos_bound a 10 ltac:(lia)).
  pose proof (Z.mod_pos_bound b 10 ltac:(lia)).
  rewrite Z2N.inj_compare by lia.
  apply Z.add_compare_mono_l.
Qed.

Lemma compare_by_digits (a b : Z) :
  (a ?= b)
  = match a / 10 ?= b / 10 with
    | Eq => a mod 10 ?= b mod 10
    | c => c
    end.
Proof.
  destruct (Z.compare_spec (a / 10) (b / 10)) as [Hq | Hq | Hq].
  - destruct (Z.compare_spec (a mod 10) (b mod 10)) as [Hr | Hr | Hr].
    + apply Z.compare_eq_iff. Z.div_mod_to_equations. lia.
    + apply Z.compare_lt_iff. Z.div_mod_to_equations. lia.
    + apply Z.compare_gt_iff. Z.div_mod_to_equations. lia.
  - apply Z.compare_lt_iff. Z.div_mod_to_equations. lia.
  - apply Z.compare_gt_iff. Z.div_mod_to_equations. lia.
Qed.

(** Texts of the same width, zero padded, compare as the numbers do. *)
Lemma zero_padded_compare (w : nat) :
  forall (a b : Z) (s1 s2 : string),
    0 <= a < 10 ^ Z.of_nat w -> 0 <= b < 10 ^ Z.of_nat w ->
    String.compare (zero_padded w a ++ s1) (zero_padded w b ++ s2)
    = match a ?= b with
      | Eq => String.compare s1 s2
      | c => c
      end.
Proof.
  induction w as [|w IH]; intros a b s1 s2 Ha Hb.
  - cbn [zero_padded]. rewrite !string_app_nil_l.
    change (10 ^ Z.of_nat 0) with 1 in *.
    replace a with 0 by lia. replace b with 0 by lia. reflexivity.
  - cbn [zero_padded]. rewrite !string_app_assoc.
    rewrite Nat2Z.inj_succ, Z.pow_succ_r in Ha, Hb by lia.
    rewrite IH by (Z.div_mod_to_equations; lia).
    rewrite !string_app_cons, !string_app_nil_l.
    rewrite string_compare_cons, compare_digit_chars.
    rewrite (compare_by_digits a b).
    destruct (a / 10 ?= b / 10); reflexivity.
Qed.

Lemma dash_app (s : string) : ("-" ++ s = String "-" s)%string.
Proof. reflexivity. Qed.

Lemma isoformat_compare (a b : datetime) :
  valid_date a -> valid_date b ->
  String.compare (isoformat a) (isoformat b) = date_compare a b.
Proof.
  intros Ha Hb.
  apply valid_date_bounds in Ha. apply valid_date_bounds in Hb.
  destruct Ha as (Hya & Hma & Hda). destruct Hb as (Hyb & Hmb & Hdb).
  assert (Hda' : day a <= 31)
    by (unfold days_in_month in Hda;
        repeat match type of Hda with context [if ?c then _ else _] =>
                 destruct c end; lia).
  assert (Hdb' : day b <= 31)
    by (unfold days_in_month in Hdb;
        repeat match type of Hdb with context [if ?c then _ else _] =>
                 destruct c end; lia).
  unfold isoformat, date_compare.
  rewrite zero_padded_compare by (change (10 ^ Z.of_nat 4) with 10000; lia).
  destruct (year a ?= year b); try reflexivity.
  rewrite !dash_app.
  rewrite string_compare_cons, N.compare_refl.
  rewrite zero_padded_compare by (change (10 ^ Z.of_nat 2) with 100; lia).
  destruct (month a ?= month b); try reflexivity.
  rewrite string_compare_cons, N.compare_refl.
  rewrite <- (string_app_nil_r (zero_padded 2 (day a))).
  rewrite <- (string_app_nil_r (zero_padded 2 (day b))).
  rewrite zero_padded_compare by (change (10 ^ Z.of_nat 2) with 100; lia).
  destruct (day a ?= day b); reflexivity.
Qed.

(** On zero-padded texts of calendar dates the string order is the order
    of the days. *)
Lemma isoformat_leb (a b : datetime) :
  valid_date a -> valid_date b ->
  (String.leb (isoformat a) (isoformat b) = true <-> toordinal a <= toordinal b).
Proof.
  intros Ha Hb. unfold String.leb.
  rewrite (isoformat_compare a b Ha Hb), <- (toordinal_compare a b Ha Hb).
  destruct (Z.compare_spec (toordinal a) (toordinal b)); split; intro;
    try reflexivity; try discriminate; lia.
Qed.

(** ** [strptime] reads back a zero-padded date *)

Lemma rep_one {A : Type} (p : ascii -> bool) (c : ascii) (s : string)
    (k : string -> option A) :
  p c = true -> rep p 1 (Some 1%nat) (String c s) k = k s.
Proof.
  intro H. cbn [rep]. rewrite H. cbn [room andb Nat.pred less].
  destruct s as [|c' s']; cbn [rep room andb]; rewrite ?andb_false_r;
    destruct (k _); reflexivity.
Qed.

Lemma digit_char_is_digit (n : Z) : digit (digit_char n) = true.
Proof.
  unfold digit, between, code. rewrite digit_char_code.
  pose proof (Z.mod_pos_bound n 10 ltac:(lia)).
  rewrite Z2N.id by lia. lia.
Qed.

Lemma take_all_but (c1 c2 c3 c4 : ascii) (rest : string) :
  consumed (String c1 (String c2 (String c3 (String c4 rest)))) rest
  = String c1 (String c2 (String c3 (String c4 EmptyString))).
Proof.
  unfold consumed. cbn [String.length].
  replace (S (S (S (S (String.length rest)))) - String.length rest)%nat
    with 4%nat by lia.
  reflexivity.
Qed.

Lemma year_group {A : Type} (c1 c2 c3 c4 : ascii) (rest : string)
    (k : string -> list string -> option A) :
  digit c1 = true -> digit c2 = true -> digit c3 = true -> digit c4 = true ->
  run format_regex (String c1 (String c2 (String c3 (String c4 rest)))) [] k
  = run after_year rest
        [String c1 (String c2 (String c3 (String c4 EmptyString)))] k.
Proof.
  intros H1 H2 H3 H4.
  change format_regex
    with (Cat (Grp (cat [One digit; One digit; One digit; One digit])) after_year).
  cbn [run cat fold_right One].
  rewrite (rep_one _ _ _ _ H1), (rep_one _ _ _ _ H2), (rep_one _ _ _ _ H3),
          (rep_one _ _ _ _ H4).
  cbn [strip_prefix]. rewrite take_all_but. reflexivity.
Qed.

Ltac day_cases d H :=
  assert (d = 1 \/ d = 2 \/ d = 3 \/ d = 4 \/ d = 5 \/ d = 6 \/ d = 7
          \/ d = 8 \/ d = 9 \/ d = 10 \/ d = 11 \/ d = 12 \/ d = 13 \/ d = 14
          \/ d = 15 \/ d = 16 \/ d = 17 \/ d = 18 \/ d = 19 \/ d = 20
          \/ d = 21 \/ d = 22 \/ d = 23 \/ d = 24 \/ d = 25 \/ d = 26
          \/ d = 27 \/ d = 28 \/ d = 29 \/ d = 30 \/ d = 31) as H by lia;
  repeat (destruct H as [H | H]); subst d.

Lemma month_day_groups (Y : string) (m d : Z) :
  1 <= m <= 12 -> 1 <= d <= 31 ->
  run after_year (String "-" (zero_padded 2 m ++ String "-" (zero_padded 2 d)))
      [Y] (fun s' gs => Some (s', gs))
  = Some (EmptyString, [Y; zero_padded 2 m; zero_padded 2 d])
  /\ Py.int (zero_padded 2 m) = m /\ Py.int (zero_padded 2 d) = d.
Proof.
  intros Hm Hd. month_cases m Hcm; day_cases d Hcd;
    (split; [vm_compute; reflexivity | split; reflexivity]).
Qed.

Lemma digit_val_digit_char (n : Z) : Py.digit_val (digit_char n) = n mod 10.
Proof.
  unfold Py.digit_val. rewrite digit_char_code.
  pose proof (Z.mod_pos_bound n 10 ltac:(lia)).
  rewrite Z2N.id by lia. lia.
Qed.

Lemma digit_char_not_blank (n : Z) : Ascii.eqb (digit_char n) " " = false.
Proof.
  apply Ascii.eqb_neq. intro H.
  apply (f_equal N_of_ascii) in H. rewrite digit_char_code in H.
  pose proof (Z.mod_pos_bound n 10 ltac:(lia)).
  change (N_of_ascii " ") with 32%N in H. lia.
Qed.

Lemma zero_padded_4 (y : Z) :
  zero_padded 4 y
  = String (digit_char (y / 10 / 10 / 10))
      (String (digit_char (y / 10 / 10))
         (String (digit_char (y / 10)) (String (digit_char y) EmptyString))).
Proof. reflexivity. Qed.

Lemma int_zero_padded_4 (y : Z) :
  0 <= y < 10000 -> Py.int (zero_padded 4 y) = y.
Proof.
  intro H. rewrite zero_padded_4. unfold Py.int. cbn [Py.lstrip].
  rewrite digit_char_not_blank. unfold Py.digits_val.
  cbn [list_ascii_of_string fold_left]. rewrite !digit_val_digit_char.
  Z.div_mod_to_equations. lia.
Qed.

(** [strptime] accepts the zero-padded text of every calendar date and
    yields that date. *)
Lemma strptime_isoformat (d : datetime) :
  valid_date d -> strptime (isoformat d) = Some d.
Proof.
  intro Hv. pose proof (valid_date_bounds d Hv) as (Hy & Hm & Hd).
  assert (Hd' : day d <= 31)
    by (unfold days_in_month in Hd;
        repeat match type of Hd with context [if ?c then _ else _] =>
                 destruct c end; lia).
  destruct (month_day_groups (zero_padded 4 (year d)) (month d) (day d)
              Hm ltac:(lia)) as (Hrun & Him & Hid).
  unfold strptime, match_, isoformat.
  rewrite !dash_app. rewrite zero_padded_4 at 1.
  rewrite !string_app_cons, string_app_nil_l.
  rewrite year_group by apply digit_char_is_digit.
  rewrite <- zero_padded_4, Hrun.
  rewrite Him, Hid, int_zero_padded_4 by lia.
  unfold valid_date in Hv. rewrite Hv. destruct d; reflexivity.
Qed.

(* ================================================================== *)
(** * The order in which orders are processed *)
(* ================================================================== *)

Local Close Scope Z_scope.
Local Open Scope Qc_scope.

Lemma map_each_Forall2 {A B : Type} (f : A -> res B) (l : list A) :
  forall l' : list B,
    Py.map_each f l = Ok l' -> Forall2 (fun x y => f x = Ok y) l l'.
Proof.
  induction l as [|x l IH]; intros l' H; cbn [Py.map_each] in H.
  - injection H as <-. constructor.
  - apply bind_Ok in H. destruct H as (y & Hy & H).
    apply bind_Ok in H. destruct H as (ys & Hys & H).
    injection H as <-. constructor; [exact Hy | apply IH, Hys].
Qed.

Lemma expire_dates (d : datetime) (W : Z) (w : list txn) :
  sublist (map earned_date (expire d W w)) (map earned_date w).
Proof.
  unfold expire. induction w as [|t w IH]; cbn [List.filter map].
  - constructor.
  - destruct (days_between d (earned_date t) <=? W)%Z; cbn [map].
    + apply sublist_skip, IH.
    + apply sublist_cons, IH.
Qed.

Lemma deduct_dates (w : list txn) :
  forall r : Py.num, map earned_date (deduct r w) = map earned_date w.
Proof.
  induction w as [|t w IH]; intro r; cbn [deduct]; [reflexivity|].
  destruct (Py.leb r (Py.of_Z 0)); [reflexivity|].
  cbn [map earned_date]. rewrite IH. reflexivity.
Qed.

(** An order dated [d] leaves in the wallet entries that were there, in
    their order, followed by at most one new entry, dated [d]. *)
Lemma price_order_dates cfg brs W tag n o d w ltv p :
  price_order cfg brs W tag n o d w ltv = Ok p ->
  sublist (map earned_date (p_wallet p)) (map earned_date w ++ [d]).
Proof.
  unfold price_order. intro H.
  destruct (get_ltv_bracket ltv brs) as [lbl|]; cbn in H; [|discriminate].
  destruct (Py.getitem cfg lbl) as [c|]; cbn in H; [|discriminate].
  injection H as <-. cbn [p_wallet].
  match goal with
  | |- context [if Py.ltb ?a ?b then _ else _] => destruct (Py.ltb a b)
  end.
  - rewrite map_app. cbn [map earned_date].
    apply sublist_app; [|reflexivity].
    destruct (1 <? n)%Z; rewrite ?deduct_dates; apply expire_dates.
  - apply sublist_inserts_r.
    destruct (1 <? n)%Z; rewrite ?deduct_dates; apply expire_dates.
Qed.

Section ProcessingOrder.

Variable target_month : string.
Variable cashback_config : gmap string tier.
Variable ltv_brackets : list bracket.
Variable expiry_days : Z.
Variable use_ltv : bool.

Local Abbreviation m_order :=
  (month_order target_month cashback_config ltv_brackets expiry_days use_ltv).
Local Abbreviation f_order := (full_order cashback_config ltv_brackets expiry_days).

Lemma full_loop_credits (cid : string) (l : list order) :
  forall (n : Z) (st st' : full_state),
    Py.for_each (f_order cid) (Py.enumerate n l) st = Ok st' ->
    sublist (map earned_date (f_wallet st'))
            (map earned_date (f_wallet st) ++ valid_dates l).
Proof.
  induction l as [|o l IH]; intros n st st' H;
    cbn [Py.enumerate Py.for_each] in H.
  - injection H as <-. rewrite app_nil_r. reflexivity.
  - apply bind_Ok in H. destruct H as (st1 & H1 & H).
    apply IH in H. etransitivity; [exact H|]. clear H IH.
    unfold full_order in H1.
    destruct (strptime (order_date o)) as [d|] eqn:Hd.
    + remember (strftime_Ym d) as mk eqn:Hmk. clear Hmk.
      apply bind_Ok in H1. destruct H1 as (p & Hp & H1).
      apply price_order_dates in Hp.
      injection H1 as <-. cbn [f_wallet].
      rewrite (proj2 (valid_cons o l d Hd)).
      change (d :: valid_dates l) with ([d] ++ valid_dates l).
      rewrite app_assoc. apply sublist_app; [exact Hp | reflexivity].
    + injection H1 as <-. rewrite (proj2 (invalid_cons o l Hd)). reflexivity.
Qed.

Lemma month_loop_credits (cid : string) (l : list order) :
  forall st st' : month_state use_ltv,
    Py.for_each (m_order cid) l st = Ok st' ->
    sublist (map earned_date (m_wallet st'))
            (map earned_date (m_wallet st) ++ valid_dates l).
Proof.
  induction l as [|o l IH]; intros st st' H; cbn [Py.for_each] in H.
  - injection H as <-. rewrite app_nil_r. reflexivity.
  - apply bind_Ok in H. destruct H as (st1 & H1 & H).
    apply IH in H. etransitivity; [exact H|]. clear H IH.
    unfold month_order in H1.
    destruct (strptime (order_date o)) as [d|] eqn:Hd.
    + remember (strftime_Ym d) as mk eqn:Hmk. clear Hmk.
      apply bind_Ok in H1. destruct H1 as (p & Hp & H1).
      apply price_order_dates in Hp.
      rewrite (proj2 (valid_cons o l d Hd)).
      change (d :: valid_dates l) with ([d] ++ valid_dates l).
      rewrite app_assoc. apply sublist_app; [|reflexivity].
      destruct (String.eqb mk target_month).
      * apply bind_Ok in H1. destruct H1 as (r & _ & H1).
        injection H1 as <-. exact Hp.
      * injection H1 as <-. exact Hp.
    + injection H1 as <-. rewrite (proj2 (invalid_cons o l Hd)). reflexivity.
Qed.

Lemma full_customer_trace (cid : string) (orders : list order)
    (monthly_results trace : list trace_row) (rec : customer_result) :
  full_customer cashback_config ltv_brackets expiry_days cid orders
                monthly_results = Ok (rec, trace) ->
  exists rows,
    trace = monthly_results ++ rows
    /\ map t_order_date rows = valid_dates (Py.sort_by order_date orders).
Proof.
  unfold full_customer. intro H.
  apply bind_Ok in H. destruct H as (st & Hloop & H).
  injection H as _ <-.
  destruct (full_loop_effect cashback_config ltv_brackets expiry_days
              cid _ _ _ _ Hloop) as (rows & E).
  exists rows. split; [apply (fe_trace _ _ _ _ E) | apply (fe_dates _ _ _ _ E)].
Qed.

End ProcessingOrder.

Lemma isoformat_before_NA (a : datetime) :
  String.ltb (isoformat a) "N/A" = true.
Proof.
  unfold String.ltb, isoformat. rewrite zero_padded_4, !string_app_cons.
  rewrite string_compare_cons, digit_char_code.
  pose proof (Z.mod_pos_bound (year a / 10 / 10 / 10) 10 ltac:(lia)).
  replace (Z.to_N (48 + (year a / 10 / 10 / 10) mod 10) ?= N_of_ascii "N")%N
    with Lt; [reflexivity|].
  symmetry. apply N.compare_lt_iff. change (N_of_ascii "N") with 78%N. lia.
Qed.

Lemma wallet_after_cons (w : list txn) (p : pricing) (ps : list pricing) :
  wallet_after w (p :: ps) = wallet_after (p_wallet p) ps.
Proof.
  unfold wallet_after. rewrite last_cons. destruct (last ps); reflexivity.
Qed.

Lemma ltv_after_cons (v : Py.num) (p : pricing) (ps : list pricing) :
  ltv_after v (p :: ps) = ltv_after (p_ltv p) ps.
Proof.
  unfold ltv_after. rewrite last_cons. destruct (last ps); reflexivity.
Qed.

Section InTurn.

Variable target_month : string.
Variable cashback_config : gmap string tier.
Variable ltv_brackets : list bracket.
Variable expiry_days : Z.
Variable use_ltv : bool.

Local Abbreviation m_order :=
  (month_order target_month cashback_config ltv_brackets expiry_days use_ltv).
Local Abbreviation f_order := (full_order cashback_config ltv_brackets expiry_days).
Local Abbreviation in_turn :=
  (priced_in_turn cashback_config ltv_brackets expiry_days).

(** The full-history loop prices the orders whose date parses in list
    order, each with its position as order number and against the ledger
    the one before it left, and appends their trace rows in that order. *)
Lemma full_loop_in_turn (cid : string) (l : list order) :
  forall (n : Z) (st st' : full_state),
    Py.for_each (f_order cid) (Py.enumerate n l) st = Ok st' ->
    exists ps rows,
      in_turn (Some expiry_days)
              (List.filter (fun io => valid io.2) (Py.enumerate n l))
              (f_wallet st) (f_ltv st) ps
      /\ f_wallet st' = wallet_after (f_wallet st) ps
      /\ f_ltv st' = ltv_after (f_ltv st) ps
      /\ f_monthly_results st' = f_monthly_results st ++ rows
      /\ Forall2 (traces cid) rows
                 (combine (map snd (List.filter (fun io => valid io.2)
                                                (Py.enumerate n l))) ps).
Proof.
  induction l as [|o l IH]; intros n st st' H;
    cbn [Py.enumerate Py.for_each] in H.
  - injection H as <-. exists [], []. cbn. rewrite app_nil_r.
    repeat split. constructor.
  - apply bind_Ok in H. destruct H as (st1 & H1 & H).
    destruct (IH _ _ _ H) as (ps & rows & Hc & Hw & Hl & Ht & Hr).
    clear IH H. cbn [Py.enumerate List.filter snd].
    unfold full_order in H1.
    destruct (strptime (order_date o)) as [d|] eqn:Hd;
      [replace (valid o) with true by (unfold valid; rewrite Hd; reflexivity)
      |replace (valid o) with false by (unfold valid; rewrite Hd; reflexivity)].
    + remember (strftime_Ym d) as mk eqn:Hmk.
      apply bind_Ok in H1. destruct H1 as (p & Hp & H1).
      injection H1 as <-.
      cbn [f_wallet f_ltv f_monthly_results] in Hc, Hw, Hl, Ht.
      eexists (p :: ps), (_ :: rows).
      cbn [priced_in_turn map snd combine].
      rewrite wallet_after_cons, ltv_after_cons.
      split; [split; [exists d; split; [exact Hd | exact Hp] | exact Hc]|].
      split; [exact Hw|]. split; [exact Hl|].
      split; [rewrite Ht, <- app_assoc; reflexivity|].
      constructor; [|exact Hr].
      unfold traces.
      cbn [fst snd t_customer_id t_month t_order_date t_ltv_bracket
           t_silver_rev t_gold_rev t_silver_cb t_gold_cb t_coins_used
           t_wallet_balance].
      rewrite Hd. repeat split; try reflexivity. exact Hmk.
    + injection H1 as <-. exists ps, rows.
      split; [exact Hc|]. split; [exact Hw|]. split; [exact Hl|].
      split; [exact Ht | exact Hr].
Qed.

(** The month loop does the same with the count of the orders whose date
    parsed so far as order number. *)
Lemma month_loop_in_turn (cid : string) (l : list order) :
  forall st st' : month_state use_ltv,
    Py.for_each (m_order cid) l st = Ok st' ->
    exists ps,
      in_turn None (Py.enumerate (m_order_num st + 1) (valid_orders l))
              (m_wallet st) (m_ltv st) ps
      /\ m_wallet st' = wallet_after (m_wallet st) ps
      /\ m_ltv st' = ltv_after (m_ltv st) ps
      /\ m_order_num st' = (m_order_num st + Z.of_nat (length ps))%Z.
Proof.
  induction l as [|o l IH]; intros st st' H; cbn [Py.for_each] in H.
  - injection H as <-. exists []. cbn. repeat split. lia.
  - apply bind_Ok in H. destruct H as (st1 & H1 & H).
    destruct (IH _ _ H) as (ps & Hc & Hw & Hl & Hn). clear IH H.
    unfold valid_orders. cbn [List.filter]. fold (valid_orders l).
    unfold month_order in H1.
    destruct (strptime (order_date o)) as [d|] eqn:Hd;
      [replace (valid o) with true by (unfold valid; rewrite Hd; reflexivity)
      |replace (valid o) with false by (unfold valid; rewrite Hd; reflexivity)].
    + remember (strftime_Ym d) as mk eqn:Hmk. clear Hmk.
      apply bind_Ok in H1. destruct H1 as (p & Hp & H1).
      assert (Hst : m_wallet st1 = p_wallet p /\ m_ltv st1 = p_ltv p
                    /\ m_order_num st1 = (m_order_num st + 1)%Z).
      { destruct (String.eqb mk target_month).
        - apply bind_Ok in H1. destruct H1 as (r1 & _ & H1).
          injection H1 as <-. repeat split.
        - injection H1 as <-. repeat split. }
      destruct Hst as (Hw1 & Hl1 & Hn1). rewrite Hw1, Hl1, Hn1 in *.
      exists (p :: ps). cbn [Py.enumerate priced_in_turn length].
      rewrite wallet_after_cons, ltv_after_cons.
      split; [split; [exists d; split; [exact Hd | exact Hp] | exact Hc]|].
      split; [exact Hw|]. split; [exact Hl|]. lia.
    + injection H1 as <-. exists ps.
      split; [exact Hc|]. split; [exact Hw|]. split; [exact Hl | exact Hn].
Qed.

End InTurn.



(* ================================================================== *)
(** * The parser on a revenue token without a digit *)
(* ================================================================== *)

Lemma parse_defaults :
  exists o : order,
    parse_order_history shapeless_blob = Ok [o]
    /\ order_id o = "N/A"%string /\ order_date o = "N/A"%string
    /\ silver_revenue o = Py.of_Z 0 /\ gold_revenue o = Py.of_Z 0
    /\ promo_amount o = Py.of_Z 0.
Proof.
  eexists. split; [vm_compute; reflexivity|].
  repeat split; reflexivity.
Qed.

(** C5 on the code.  The numeric pattern accepts a token made of commas
    only; with the commas removed nothing is left, [float] raises
    [ValueError], and [parse_order_history] raises it too instead of
    returning the order with the default [0.0]; so do both drivers on a
    table with that blob. *)
Theorem parse_order_history_raises :
  findall order_pattern comma_blob = [comma_blob]
  /\ group1 (amount_pattern ":silver_revenue") comma_blob = Some ","%string
  /\ Py.float (Py.remove_commas ",") = Raise ValueError
  /\ parse_order_history comma_blob = Raise ValueError
  /\ (forall cfg brs W,
        calculate_cashback cfg brs W [mkrow "C1" comma_blob] = Raise ValueError)
  /\ (forall M cfg brs W use_ltv,
        calculate_cashback_for_month M cfg brs W use_ltv [mkrow "C1" comma_blob]
        = Raise ValueError).
Proof. repeat split; reflexivity. Qed.

Local Close Scope Z_scope.
Local Open Scope Qc_scope.

(* ================================================================== *)
(** * When the drivers return *)
(* ================================================================== *)

Lemma first_bracket_In (v : Py.num) (brs : list bracket) (lbl : string) :
  first_bracket v brs = Some lbl -> exists b, In b brs /\ br_label b = lbl.
Proof.
  induction brs as [|b brs IH]; cbn [first_bracket]; [discriminate|].
  destruct (lt_bound v (br_max b)).
  - intro H. injection H as <-. exists b. split; [left|]; reflexivity.
  - intro H. destruct (IH H) as (b' & Hin & Hl).
    exists b'. split; [right; exact Hin | exact Hl].
Qed.

Lemma last_In {A : Type} (l : list A) (x : A) : last l = Some x -> In x l.
Proof.
  induction l as [|y l IH]; [discriminate|].
  destruct l as [|z l]; cbn [last].
  - intro H. injection H as <-. left. reflexivity.
  - intro H. right. apply IH. exact H.
Qed.

Lemma get_ltv_bracket_total cfg brs (v : Py.num) :
  well_configured cfg brs ->
  exists lbl c, get_ltv_bracket v brs = Ok lbl /\ cfg !! lbl = Some c.
Proof.
  intros [Hne Hall]. rewrite List.Forall_forall in Hall.
  unfold get_ltv_bracket.
  destruct (first_bracket v brs) as [lbl|] eqn:E.
  - destruct (first_bracket_In _ _ _ E) as (b & Hin & <-).
    destruct (Hall b Hin) as [c Hc]. exists (br_label b), c. split; [reflexivity | exact Hc].
  - destruct (last brs) as [b|] eqn:El.
    + destruct (Hall b (last_In _ _ El)) as [c Hc].
      exists (br_label b), c. split; [reflexivity | exact Hc].
    + apply last_None in El. contradiction.
Qed.

Lemma price_order_total cfg brs W tag n o d w (ltv : Py.num) :
  well_configured cfg brs ->
  exists p, price_order cfg brs W tag n o d w ltv = Ok p.
Proof.
  intro Hwf. destruct (get_ltv_bracket_total cfg brs ltv Hwf) as (lbl & c & Hl & Hc).
  unfold price_order. rewrite Hl. cbn [mbind res_mbind Py.bind].
  unfold Py.getitem. rewrite Hc. cbn [mbind res_mbind Py.bind].
  eexists. reflexivity.
Qed.

Section Return.

Variable target_month : string.
Variable cashback_config : gmap string tier.
Variable ltv_brackets : list bracket.
Variable expiry_days : Z.
Hypothesis Hwf : well_configured cashback_config ltv_brackets.

Lemma full_loop_total (cid : string) (l : list order) :
  forall (n : Z) (st : full_state),
    exists st',
      Py.for_each (full_order cashback_config ltv_brackets expiry_days cid)
                  (Py.enumerate n l) st = Ok st'.
Proof.
  induction l as [|o l IH]; intros n st; cbn [Py.enumerate Py.for_each].
  - exists st. reflexivity.
  - unfold full_order at 1.
    destruct (strptime (order_date o)) as [d|]; cbn [Py.bind]; [|apply IH].
    destruct (price_order_total cashback_config ltv_brackets expiry_days
                (Some expiry_days) n o d (f_wallet st) (f_ltv st) Hwf)
      as (p & ->).
    cbn [mbind res_mbind Py.bind]. apply IH.
Qed.

Lemma month_loop_total (cid : string) (l : list order) :
  forall st : month_state false,
    exists st',
      Py.for_each (month_order target_month cashback_config ltv_brackets
                               expiry_days false cid) l st = Ok st'.
Proof.
  induction l as [|o l IH]; intro st; cbn [Py.for_each].
  - exists st. reflexivity.
  - unfold month_order at 1.
    destruct (strptime (order_date o)) as [d|]; cbn [Py.bind]; [|apply IH].
    destruct (price_order_total cashback_config ltv_brackets expiry_days
                None (m_order_num st + 1)%Z o d (m_wallet st) (m_ltv st) Hwf)
      as (p & ->).
    cbn [mbind res_mbind Py.bind].
    destruct (String.eqb (strftime_Ym d) target_month);
      cbn [update_results mbind res_mbind Py.bind]; apply IH.
Qed.

(** With a well-formed configuration the two drivers return on every table
    whose blobs the parser accepts. *)
Lemma drivers_return (df : list row) :
  Forall (fun rw => exists l, parse_order_history (order_history rw) = Ok l) df ->
  (exists r,
      calculate_cashback_for_month target_month cashback_config ltv_brackets
                                   expiry_days false df = Ok r)
  /\ (exists cr tr,
      calculate_cashback cashback_config ltv_brackets expiry_days df
      = Ok (cr, tr)).
Proof.
  intro Hdf. unfold calculate_cashback_for_month, calculate_cashback.
  generalize (init_results false ltv_brackets).
  generalize (∅ : gmap string customer_result). generalize (@nil trace_row).
  induction Hdf as [|rw df (l & Hl) _ IH]; intros tr cr b.
  - split; [exists b | exists cr, tr]; reflexivity.
  - cbn [Py.for_each]. unfold month_row at 1. unfold full_row at 1.
    rewrite Hl. cbn [mbind res_mbind Py.bind].
    unfold month_customer, full_customer.
    destruct (month_loop_total (customer_id rw) (Py.sort_by order_date l)
                (mkmonth b [] (Py.of_Z 0) 0%Z false)) as (ms & ->).
    destruct (full_loop_total (customer_id rw) (Py.sort_by order_date l) 1
                (init_full tr)) as (fs & ->).
    cbn [mbind res_mbind Py.bind].
    destruct (m_contributed ms); cbn [add_final_balance Py.bind]; apply IH.
Qed.

End Return.

(* ================================================================== *)
(** * The theorems at concrete inputs *)
(* ================================================================== *)

Lemma driver_consistency_witness :
  exists (r : bucket) (cr : gmap string customer_result) (tr : list trace_row),
    calculate_cashback_for_month "2024-01" one_tier one_bracket 180 false sample_df
    = Ok r
    /\ calculate_cashback one_tier one_bracket 180 sample_df = Ok (cr, tr)
    /\ total_silver_rev r = Py.sum (map t_silver_rev (month_rows "2024-01" tr))
    /\ total_gold_rev r = Py.sum (map t_gold_rev (month_rows "2024-01" tr))
    /\ total_gold_rev r + total_silver_rev r
       = Py.sum (map t_gold_rev (month_rows "2024-01" tr))
         + Py.sum (map t_silver_rev (month_rows "2024-01" tr)).
Proof.
  eexists. eexists. eexists.
  split; [vm_compute; reflexivity|]. split; [vm_compute; reflexivity|].
  eapply (driver_consistency "2024-01" one_tier one_bracket 180 sample_df);
    vm_compute; reflexivity.
Defined.

Lemma invalid_date_skip_witness :
  month_order "2024-01" one_tier one_bracket 180 false "C1"
              busy_month_state na_order
  = Ok busy_month_state
  /\ full_order one_tier one_bracket 180 "C1" busy_full_state (2%Z, na_order)
     = Ok busy_full_state
  /\ month_customer "2024-01" one_tier one_bracket 180 false "C1"
                    mixed_orders empty_bucket
     = month_customer "2024-01" one_tier one_bracket 180 false "C1"
                      (valid_orders mixed_orders) empty_bucket
  /\ full_customer one_tier one_bracket 180 "C1" mixed_orders []
     = match full_customer one_tier one_bracket 180 "C1"
                           (valid_orders mixed_orders) [] with
       | Ok (rec, trace) =>
           Ok (set_num_orders rec (Z.of_nat (length mixed_orders)), trace)
       | Raise e => Raise e
       end.
Proof.
  pose proof (invalid_date_skip "2024-01" one_tier one_bracket 180 false "C1")
    as (H1 & H2 & H3 & H4 & _).
  split; [apply H1; reflexivity|].
  split; [apply H2; reflexivity|].
  split; [apply H3|].
  apply H4. vm_compute. reflexivity.
Defined.

Lemma lifetime_aggregate_witness :
  exists (rec : customer_result) (trace : list trace_row),
    full_customer one_tier one_bracket 180 "C1" [order_b "B"; good_order] []
    = Ok (rec, trace)
    /\ num_orders rec = 2%Z
    /\ repeat_revenue rec
       = Py.sum (map order_value
                     (tl (valid_orders
                            (Py.sort_by order_date [order_b "B"; good_order])))).
Proof.
  eexists. eexists.
  split; [vm_compute; reflexivity|].
  pose proof (lifetime_aggregate one_tier one_bracket 180 "C1"
                [order_b "B"; good_order] [] _ _
                ltac:(vm_compute; reflexivity)) as (H1 & _ & H3).
  split; [exact H1 | apply H3; reflexivity].
Defined.

(* ================================================================== *)
(** * Further properties of [get_ltv_bracket] *)
(* ================================================================== *)

Lemma first_bracket_Some_rank (v : Py.num) (brs : list bracket) (l : string) :
  first_bracket v brs = Some l ->
  exists b, brs !! bracket_rank v brs = Some b /\ br_label b = l
            /\ exceeds (br_max b) v.
Proof.
  induction brs as [|b brs IH]; cbn [first_bracket bracket_rank]; [discriminate|].
  destruct (lt_bound v (br_max b)) eqn:E.
  - intro H. injection H as <-. exists b.
    split; [reflexivity|]. split; [reflexivity|]. apply lt_bound_spec, E.
  - intro H. destruct brs as [|b' brs]; [discriminate|].
    destruct (IH H) as (c & Hc & Hl & He). exists c. split; [exact Hc|].
    split; assumption.
Qed.

Lemma first_bracket_None_rank (v : Py.num) (brs : list bracket) :
  first_bracket v brs = None ->
  brs !! bracket_rank v brs = last brs
  /\ Forall (fun b => ~ exceeds (br_max b) v) brs.
Proof.
  induction brs as [|b brs IH]; cbn [first_bracket bracket_rank]; [split; [reflexivity | constructor]|].
  destruct (lt_bound v (br_max b)) eqn:E; [discriminate|].
  intro H. destruct (IH H) as [Hr Hall].
  assert (Hb : ~ exceeds (br_max b) v).
  { intro He. apply lt_bound_spec in He. congruence. }
  split; [|constructor; assumption].
  destruct brs as [|b' brs]; [reflexivity|]. exact Hr.
Qed.

Lemma get_ltv_bracket_at (v : Py.num) (brackets : list bracket) :
  brackets <> [] ->
  exists b, brackets !! bracket_rank v brackets = Some b
            /\ In b brackets
            /\ get_ltv_bracket v brackets = Ok (br_label b).
Proof.
  intro Hne. unfold get_ltv_bracket.
  destruct (first_bracket v brackets) as [l|] eqn:E.
  - destruct (first_bracket_Some_rank _ _ _ E) as (b & Hb & <- & _).
    exists b. split; [exact Hb|]. split; [|reflexivity].
    apply list_elem_of_In. eapply list_elem_of_lookup_2. exact Hb.
  - destruct (first_bracket_None_rank _ _ E) as [Hr _].
    destruct (last brackets) as [b|] eqn:El.
    + exists b. split; [exact Hr|]. split; [|reflexivity].
      apply list_elem_of_In. eapply list_elem_of_lookup_2. exact Hr.
    + apply last_None in El. contradiction.
Qed.

(** X1.  [get_ltv_bracket] raises exactly on the empty bracket list, and
    then [IndexError]; on any other list it returns the label of a bracket
    of the list, the one at position [bracket_rank]. *)
Theorem get_ltv_bracket_result (v : Py.num) (brackets : list bracket) :
  (brackets = [] -> get_ltv_bracket v brackets = Raise IndexError)
  /\ (brackets <> [] ->
      exists b, brackets !! bracket_rank v brackets = Some b
                /\ In b brackets
                /\ get_ltv_bracket v brackets = Ok (br_label b))
  /\ (forall e, get_ltv_bracket v brackets = Raise e ->
                e = IndexError /\ brackets = []).
Proof.
  split; [intros ->; reflexivity|].
  split; [exact (get_ltv_bracket_at v brackets)|].
  intros e He. destruct brackets as [|b brs].
  - cbn in He. injection He as <-. split; reflexivity.
  - destruct (get_ltv_bracket_at v (b :: brs) ltac:(discriminate))
      as (c & _ & _ & Hc).
    congruence.
Qed.

Lemma get_ltv_bracket_result_witness :
  exists b, sample_brackets !! bracket_rank (Py.of_Z 100) sample_brackets = Some b
            /\ In b sample_brackets
            /\ get_ltv_bracket (Py.of_Z 100) sample_brackets = Ok (br_label b).
Proof.
  apply (proj1 (proj2 (get_ltv_bracket_result (Py.of_Z 100) sample_brackets))).
  discriminate.
Defined.

Lemma lt_bound_mono (v v' : Py.num) (b : bound) :
  v <= v' -> lt_bound v' b = true -> lt_bound v b = true.
Proof.
  intros H. destruct b as [q|]; cbn [lt_bound]; [|reflexivity].
  rewrite !ltb_spec. intro H'. eapply Qcle_lt_trans; eassumption.
Qed.

Lemma bracket_rank_le (brackets : list bracket) (v v' : Py.num) :
  v <= v' -> (bracket_rank v brackets <= bracket_rank v' brackets)%nat.
Proof.
  intro H. induction brackets as [|b brs IH]; cbn [bracket_rank]; [lia|].
  destruct (lt_bound v' (br_max b)) eqn:E'.
  - rewrite (lt_bound_mono v v' _ H E'). lia.
  - destruct (lt_bound v (br_max b)); [lia|].
    destruct brs as [|b' brs]; lia.
Qed.

(** X2.  A larger value never selects an earlier bracket, whatever the
    bracket list: also on a list whose bounds are out of order, the
    position of the selected bracket does not decrease with the value. *)
Theorem bracket_rank_mono (brackets : list bracket) (v v' : Py.num)
    (b b' : bracket) :
  v <= v' ->
  brackets !! bracket_rank v brackets = Some b ->
  brackets !! bracket_rank v' brackets = Some b' ->
  get_ltv_bracket v brackets = Ok (br_label b)
  /\ get_ltv_bracket v' brackets = Ok (br_label b')
  /\ (bracket_rank v brackets <= bracket_rank v' brackets)%nat.
Proof.
  intros H Hb Hb'.
  assert (Hne : brackets <> []) by (intros ->; discriminate).
  destruct (get_ltv_bracket_at v brackets Hne) as (c & Hc & _ & Hl).
  destruct (get_ltv_bracket_at v' brackets Hne) as (c' & Hc' & _ & Hl').
  rewrite Hb in Hc. injection Hc as <-.
  rewrite Hb' in Hc'. injection Hc' as <-.
  split; [exact Hl|]. split; [exact Hl'|]. exact (bracket_rank_le _ _ _ H).
Qed.

Lemma bracket_rank_mono_witness :
  exists b b',
    get_ltv_bracket (Py.of_Z 10) sample_brackets = Ok (br_label b)
    /\ get_ltv_bracket (Py.of_Z 100) sample_brackets = Ok (br_label b')
    /\ (bracket_rank (Py.of_Z 10) sample_brackets
        <= bracket_rank (Py.of_Z 100) sample_brackets)%nat.
Proof.
  eexists. eexists.
  apply (bracket_rank_mono sample_brackets (Py.of_Z 10) (Py.of_Z 100)).
  - intro H. vm_compute in H. discriminate.
  - vm_compute. reflexivity.
  - vm_compute. reflexivity.
Defined.

(** X3.  On a chained bracket list, a value from the first lower bound on
    and below the last upper bound is resolved to the bracket that contains
    it: [min <= value < max]. *)
Theorem get_ltv_bracket_contains (brackets : list bracket) (v : Py.num) :
  chained brackets ->
  (forall b, head brackets = Some b -> br_min b <= v) ->
  (forall b, last brackets = Some b -> exceeds (br_max b) v) ->
  brackets <> [] ->
  exists b, In b brackets
            /\ get_ltv_bracket v brackets = Ok (br_label b)
            /\ br_min b <= v /\ exceeds (br_max b) v.
Proof.
  intros Hch Hlo Hhi Hne. unfold get_ltv_bracket.
  destruct (first_bracket v brackets) as [l|] eqn:E.
  - clear Hhi Hne. revert Hch Hlo E.
    induction brackets as [|b brs IH]; intros Hch Hlo E; [discriminate|].
    cbn [first_bracket] in E.
    destruct (lt_bound v (br_max b)) eqn:Eb.
    + injection E as <-. exists b. split; [left; reflexivity|].
      split; [reflexivity|]. split; [apply Hlo; reflexivity|].
      apply lt_bound_spec, Eb.
    + destruct brs as [|b' brs]; [discriminate|].
      destruct Hch as [Hmax Hch].
      destruct (IH Hch) as (c & Hin & Hc & Hmin & Hex).
      * intros c Hc. injection Hc as <-.
        rewrite Hmax in Eb. cbn [lt_bound] in Eb. apply ltb_false in Eb. exact Eb.
      * exact E.
      * exists c. split; [right; exact Hin|]. split; [exact Hc|]. split; assumption.
  - destruct (first_bracket_None_rank _ _ E) as [_ Hall].
    destruct (last brackets) as [b|] eqn:El.
    + exfalso. rewrite List.Forall_forall in Hall.
      apply (Hall b); [|apply Hhi; reflexivity].
      clear -El. induction brackets as [|y l IH]; [discriminate|].
      destruct l as [|z l]; cbn [last] in El.
      * injection El as <-. left. reflexivity.
      * right. apply IH. exact El.
    + apply last_None in El. contradiction.
Qed.

Lemma get_ltv_bracket_contains_witness :
  exists b, In b chained_brackets
            /\ get_ltv_bracket (Py.of_Z 250) chained_brackets = Ok (br_label b)
            /\ br_min b <= Py.of_Z 250 /\ exceeds (br_max b) (Py.of_Z 250).
Proof.
  apply (get_ltv_bracket_contains chained_brackets (Py.of_Z 250)).
  - cbn [chained chained_brackets br_max br_min]. repeat split.
  - intros b H. injection H as <-. intro K. vm_compute in K. discriminate.
  - intros b H. injection H as <-. exact I.
  - discriminate.
Defined.

(* ================================================================== *)
(** * Further properties of the ledger and of pricing *)
(* ================================================================== *)

Ltac min_cases :=
  unfold Py.min in *;
  repeat match goal with
  | |- context [Py.ltb ?a ?b] =>
      let E := fresh "E" in
      destruct (Py.ltb a b) eqn:E;
      [apply ltb_spec in E | apply ltb_false in E]
  | H : context [Py.ltb ?a ?b] |- _ =>
      let E := fresh "E" in
      destruct (Py.ltb a b) eqn:E;
      [apply ltb_spec in E | apply ltb_false in E]
  end.

(** Linear goals over [Qc] with integer constants, and equations from the
    two inequalities. *)
Ltac qc_arith :=
  unfold Py.of_Z, Qcle, Qclt, Qcminus, Qcplus, Qcopp in *; simpl in *;
  rewrite ?Qred_correct in *; unfold inject_Z in *; lra.

Ltac qc_eq := apply Qcle_antisym; qc_arith.

Lemma wallet_sum_nonneg (w : list txn) :
  Forall (fun t => 0 <= balance t) w -> 0 <= wallet_sum w.
Proof.
  induction 1 as [|t w Ht _ IH].
  - rewrite wallet_sum_nil. apply Qcle_refl.
  - rewrite wallet_sum_cons. qc_arith.
Qed.

Lemma deduct_exhausted (w : list txn) :
  forall a : Py.num, 0 < a -> exhausts a w ->
    deduct a w = emptied w /\ 0 < handed_on a w.
Proof.
  induction w as [|t w IH]; intros a Ha Hex; [split; [reflexivity | exact Ha]|].
  destruct Hex as [Hlt Hex].
  assert (Hr : 0 < a - balance t) by qc_lra.
  destruct (IH _ Hr Hex) as [IH1 IH2].
  rewrite deduct_step by exact Ha.
  rewrite (min_l (balance t) a) by (apply Qclt_le_weak; exact Hlt).
  rewrite IH1. cbn [emptied map handed_on fold_left].
  split; [|exact IH2].
  replace (balance t - balance t) with (Py.of_Z 0) by (rewrite of_Z_0; ring).
  reflexivity.
Qed.

Lemma deduct_covered (w1 : list txn) :
  forall (a : Py.num) (t : txn) (w2 : list txn),
    0 < a -> exhausts a w1 -> handed_on a w1 <= balance t ->
    deduct a (w1 ++ t :: w2)
    = emptied w1 ++ set_balance t (balance t - handed_on a w1) :: w2.
Proof.
  induction w1 as [|x w1 IH]; intros a t w2 Ha Hex Hle.
  - cbn [app emptied map handed_on fold_left] in *.
    rewrite deduct_step by exact Ha.
    rewrite (min_r (balance t) a Hle).
    rewrite deduct_nothing; [reflexivity|].
    replace (a - a) with 0 by ring. apply Qcle_refl.
  - destruct Hex as [Hlt Hex].
    assert (Hr : 0 < a - balance x) by qc_lra.
    cbn [app emptied map handed_on fold_left] in *.
    rewrite deduct_step by exact Ha.
    rewrite (min_l (balance x) a) by (apply Qclt_le_weak; exact Hlt).
    rewrite (IH _ t w2 Hr Hex Hle).
    replace (balance x - balance x) with (Py.of_Z 0) by (rewrite of_Z_0; ring).
    reflexivity.
Qed.

Lemma deduct_cases (w : list txn) :
  forall a : Py.num,
    exhausts a w
    \/ exists w1 t w2,
        w = w1 ++ t :: w2 /\ exhausts a w1 /\ handed_on a w1 <= balance t.
Proof.
  induction w as [|t w IH]; intro a; [left; exact I|].
  destruct (Qclt_le_dec (balance t) a) as [Hlt | Hle].
  - destruct (IH (a - balance t)) as [Hex | (w1 & x & w2 & -> & Hex & Hle)].
    + left. split; assumption.
    + right. exists (t :: w1), x, w2. split; [reflexivity|].
      split; [split; assumption | exact Hle].
  - right. exists [], t, w. split; [reflexivity|]. split; [exact I | exact Hle].
Qed.

(** X4.  The deduction loop is first in, first out on a ledger of any
    length.  For a positive amount the entries are emptied from the front
    for as long as the remainder handed on exceeds the balance it reaches;
    the first entry whose balance covers the remainder is lowered by it, and
    every entry behind it is left as it is; when no entry covers the
    remainder, all are emptied.  The remainder is the amount less the
    balances emptied, subtracted one at a time as the loop does. *)
Theorem deduct_fifo (w : list txn) (a : Py.num) :
  0 < a ->
  (exhausts a w -> deduct a w = emptied w)
  /\ (forall w1 t w2,
        w = w1 ++ t :: w2 -> exhausts a w1 -> handed_on a w1 <= balance t ->
        0 < handed_on a w1
        /\ deduct a w
           = emptied w1 ++ set_balance t (balance t - handed_on a w1) :: w2)
  /\ (exhausts a w
      \/ exists w1 t w2,
          w = w1 ++ t :: w2 /\ exhausts a w1 /\ handed_on a w1 <= balance t).
Proof.
  intro Ha. split; [|split].
  - intro Hex. exact (proj1 (deduct_exhausted w a Ha Hex)).
  - intros w1 t w2 -> Hex Hle.
    split; [exact (proj2 (deduct_exhausted w1 a Ha Hex))|].
    exact (deduct_covered w1 a t w2 Ha Hex Hle).
  - apply deduct_cases.
Qed.

Lemma deduct_fifo_witness :
  deduct (Py.of_Z 100) fifo_ledger = emptied fifo_ledger
  /\ (0 < handed_on (Py.of_Z 50) (firstn 1 fifo_ledger)
      /\ deduct (Py.of_Z 50) fifo_ledger
         = emptied (firstn 1 fifo_ledger)
           ++ set_balance fifo_e2
                (balance fifo_e2 - handed_on (Py.of_Z 50) (firstn 1 fifo_ledger))
           :: skipn 2 fifo_ledger).
Proof.
  split.
  - apply (proj1 (deduct_fifo fifo_ledger (Py.of_Z 100) eq_refl)).
    cbn. repeat split.
  - apply (proj1 (proj2 (deduct_fifo fifo_ledger (Py.of_Z 50) eq_refl))
             (firstn 1 fifo_ledger) fifo_e2 (skipn 2 fifo_ledger)).
    + reflexivity.
    + cbn. repeat split.
    + intro K. vm_compute in K. discriminate.
Defined.

(** Everything [price_order] computes, in terms of its inputs. *)
Lemma price_order_shape cfg brs W tag n o d w ltv p :
  price_order cfg brs W tag n o d w ltv = Ok p ->
  exists c,
    cfg !! p_bracket p = Some c
    /\ get_ltv_bracket ltv brs = Ok (p_bracket p)
    /\ p_wallet_balance p = wallet_sum (expire d W w)
    /\ p_order_value p = order_value o
    /\ p_silver_cashback p = silver_revenue o * (silver_cb c / Py.of_Z 100)
    /\ p_gold_cashback p = gold_revenue o * (gold_cb c / Py.of_Z 100)
    /\ p_total_cashback p = p_silver_cashback p + p_gold_cashback p
    /\ p_max_usable p
       = (if (1 <? n)%Z
          then Some (order_value o * (redeem_pct c / Py.of_Z 100))
          else None)
    /\ p_coins_used p
       = (if (1 <? n)%Z
          then Py.min (p_wallet_balance p)
                      (order_value o * (redeem_pct c / Py.of_Z 100))
          else Py.of_Z 0)
    /\ p_amount_paid p = p_order_value p - p_coins_used p - promo_amount o
    /\ p_ltv p = ltv + p_amount_paid p
    /\ p_wallet p
       = (if (1 <? n)%Z then deduct (p_coins_used p) (expire d W w)
          else expire d W w)
         ++ (if Py.ltb (Py.of_Z 0) (p_total_cashback p)
             then [mktxn (p_total_cashback p) d tag] else []).
Proof.
  unfold price_order. intro H.
  destruct (get_ltv_bracket ltv brs) as [lbl|]; cbn in H; [|discriminate].
  unfold Py.getitem in H.
  destruct (cfg !! lbl) as [c|] eqn:Hc; cbn in H; [|discriminate].
  injection H as <-. exists c. cbn.
  repeat (split; [first [reflexivity | exact Hc]|]).
  match goal with
  | |- context [if Py.ltb ?a ?b then _ else _] => destruct (Py.ltb a b)
  end; [reflexivity | rewrite app_nil_r; reflexivity].
Qed.

(** X5.  Pricing an order dated [d] drops from the ledger exactly the
    entries outside the window as of [d]; every other entry stays in place
    with its date, also when its balance is used up; and one entry dated [d]
    is appended exactly when the cashback earned is positive. *)
Theorem price_order_entries cfg brs W tag n o d w ltv p :
  price_order cfg brs W tag n o d w ltv = Ok p ->
  map earned_date (p_wallet p)
  = map earned_date (expire d W w)
    ++ (if Py.ltb (Py.of_Z 0) (p_total_cashback p) then [d] else [])
  /\ (forall t, In t (p_wallet p) ->
        (days_between d (earned_date t) <= W)%Z \/ earned_date t = d).
Proof.
  intro H. destruct (price_order_shape _ _ _ _ _ _ _ _ _ _ H)
    as (c & _ & _ & _ & _ & _ & _ & _ & _ & _ & _ & _ & Hw).
  assert (Hd : map earned_date (p_wallet p)
               = map earned_date (expire d W w)
                 ++ (if Py.ltb (Py.of_Z 0) (p_total_cashback p)
                     then [d] else [])).
  { rewrite Hw, map_app. f_equal.
    - destruct (1 <? n)%Z; [apply deduct_dates | reflexivity].
    - destruct (Py.ltb (Py.of_Z 0) (p_total_cashback p)); reflexivity. }
  split; [exact Hd|].
  intros t Ht. apply (in_map earned_date) in Ht. rewrite Hd in Ht.
  apply in_app_or in Ht. destruct Ht as [Ht | Ht].
  - left. apply in_map_iff in Ht. destruct Ht as (t' & <- & Ht').
    apply expire_In in Ht'. apply Ht'.
  - right. destruct (Py.ltb (Py.of_Z 0) (p_total_cashback p));
      [destruct Ht as [<- | []]; reflexivity | destruct Ht].
Qed.

Lemma Qcmult_nonneg (a b : Qc) : 0 <= a -> 0 <= b -> 0 <= a * b.
Proof.
  intros Ha Hb. replace 0 with (0 * b) by ring.
  apply Qcmult_le_compat_r; assumption.
Qed.

Lemma pct_nonneg (a : Qc) : 0 <= a -> 0 <= a / Py.of_Z 100.
Proof.
  intro H. unfold Qcdiv. apply Qcmult_nonneg; [exact H|].
  intro K. vm_compute in K. discriminate.
Qed.

Lemma coins_used_range cfg brs W tag n o d w ltv p :
  price_order cfg brs W tag n o d w ltv = Ok p ->
  Forall (fun t => 0 <= balance t) w ->
  (forall m, p_max_usable p = Some m -> 0 <= m) ->
  0 <= p_coins_used p
  /\ p_coins_used p <= p_wallet_balance p
  /\ (forall m, p_max_usable p = Some m -> p_coins_used p <= m).
Proof.
  intros H Hw Hcap. destruct (price_order_shape _ _ _ _ _ _ _ _ _ _ H)
    as (c & _ & _ & Hb & _ & _ & _ & _ & Hm & Hu & _).
  pose proof (wallet_sum_nonneg _ (expire_nonneg d W w Hw)) as Hs.
  rewrite <- Hb in Hs. rewrite Hu. rewrite Hm in Hcap |- *.
  destruct (1 <? n)%Z.
  - specialize (Hcap _ eq_refl).
    split; [min_cases; assumption|]. split; [apply min_le_l|].
    intros m Hm'. injection Hm' as <-. apply min_le_r.
  - split; [apply Qcle_refl|]. split; [exact Hs|]. intros m Hm'. discriminate.
Qed.

(** X6.  With no negative balance in the ledger and a non-negative
    redemption cap, the coins used on an order are never negative, never
    more than the wallet balance read for the order, and never more than
    the cap. *)
Theorem coins_used_bounds cfg brs W tag n o d w ltv p :
  price_order cfg brs W tag n o d w ltv = Ok p ->
  Forall (fun t => 0 <= balance t) w ->
  (forall m, p_max_usable p = Some m -> 0 <= m) ->
  0 <= p_coins_used p
  /\ p_coins_used p <= p_wallet_balance p
  /\ (forall m, p_max_usable p = Some m -> p_coins_used p <= m).
Proof. exact (coins_used_range cfg brs W tag n o d w ltv p). Qed.

(** X8.  An order whose net payment is not negative never lowers the
    bracket: the bracket rank for the LTV after the order is not below the
    rank used to price it. *)
Theorem bracket_never_lowers cfg brs W tag n o d w ltv p :
  price_order cfg brs W tag n o d w ltv = Ok p ->
  0 <= p_amount_paid p ->
  ltv <= p_ltv p
  /\ (bracket_rank ltv brs <= bracket_rank (p_ltv p) brs)%nat.
Proof.
  intros H Hpaid. destruct (price_order_shape _ _ _ _ _ _ _ _ _ _ H)
    as (c & _ & _ & _ & _ & _ & _ & _ & _ & _ & _ & Hl & _).
  assert (Hle : ltv <= p_ltv p) by (rewrite Hl; qc_arith).
  split; [exact Hle | apply bracket_rank_le, Hle].
Qed.

Lemma price_order_entries_witness :
  exists p,
    price_order one_tier one_bracket 30 None 2 (order_b "B") date_b
                [fifo_e1; mktxn (Py.of_Z 5) (mkdate 2023 11 1) None]
                (Py.of_Z 1000) = Ok p
    /\ map earned_date (p_wallet p)
       = map earned_date
             (expire date_b 30
                     [fifo_e1; mktxn (Py.of_Z 5) (mkdate 2023 11 1) None])
         ++ (if Py.ltb (Py.of_Z 0) (p_total_cashback p) then [date_b] else [])
    /\ (forall t, In t (p_wallet p) ->
          (days_between date_b (earned_date t) <= 30)%Z
          \/ earned_date t = date_b).
Proof.
  eexists. split; [vm_compute; reflexivity|].
  eapply (price_order_entries one_tier one_bracket 30 None 2 (order_b "B")
            date_b [fifo_e1; mktxn (Py.of_Z 5) (mkdate 2023 11 1) None]
            (Py.of_Z 1000)).
  vm_compute. reflexivity.
Defined.

Lemma coins_used_bounds_witness :
  exists p,
    price_order one_tier one_bracket 180 None 2 (order_b "B") date_b
                [fifo_e1] (Py.of_Z 1000) = Ok p
    /\ 0 <= p_coins_used p
    /\ p_coins_used p <= p_wallet_balance p
    /\ (forall m, p_max_usable p = Some m -> p_coins_used p <= m).
Proof.
  eexists. split; [vm_compute; reflexivity|].
  eapply (coins_used_bounds one_tier one_bracket 180 None 2 (order_b "B")
            date_b [fifo_e1] (Py.of_Z 1000)).
  - vm_compute. reflexivity.
  - repeat constructor. intro K. vm_compute in K. discriminate.
  - intros m Hm. vm_compute in Hm. injection Hm as <-.
    intro K. vm_compute in K. discriminate.
Defined.

Lemma bracket_never_lowers_witness :
  exists p,
    price_order one_tier one_bracket 180 None 2 (order_b "B") date_b
                [fifo_e1] (Py.of_Z 1000) = Ok p
    /\ Py.of_Z 1000 <= p_ltv p
    /\ (bracket_rank (Py.of_Z 1000) one_bracket
        <= bracket_rank (p_ltv p) one_bracket)%nat.
Proof.
  eexists. split; [vm_compute; reflexivity|].
  eapply (bracket_never_lowers one_tier one_bracket 180 None 2 (order_b "B")
            date_b [fifo_e1] (Py.of_Z 1000)).
  - vm_compute. reflexivity.
  - intro K. vm_compute in K. discriminate.
Defined.

(* ================================================================== *)
(** * Further properties of [calculate_cashback] *)
(* ================================================================== *)

Section FullHistory.

Variable cashback_config : gmap string tier.
Variable ltv_brackets : list bracket.
Variable expiry_days : Z.

Local Abbreviation f_order := (full_order cashback_config ltv_brackets expiry_days).
Local Abbreviation f_customer :=
  (full_customer cashback_config ltv_brackets expiry_days).

Lemma full_loop_last (cid : string) (l : list order) :
  forall (n : Z) (st st' : full_state),
    Py.for_each (f_order cid) (Py.enumerate n l) st = Ok st' ->
    exists rows,
      f_monthly_results st' = f_monthly_results st ++ rows
      /\ wallet_sum (f_wallet st')
         = match last rows with
           | Some t => t_wallet_balance t
           | None => wallet_sum (f_wallet st)
           end.
Proof.
  induction l as [|o l IH]; intros n st st' H;
    cbn [Py.enumerate Py.for_each] in H.
  - injection H as <-. exists []. rewrite app_nil_r. split; reflexivity.
  - apply bind_Ok in H. destruct H as (st1 & H1 & H).
    destruct (IH _ _ _ H) as (rows & Hr & Hw). clear IH H.
    unfold full_order in H1.
    destruct (strptime (order_date o)) as [d|].
    + remember (strftime_Ym d) as mk eqn:Hmk. clear Hmk.
      apply bind_Ok in H1. destruct H1 as (p & _ & H1).
      injection H1 as <-. cbn [f_monthly_results f_wallet] in Hr, Hw.
      lazymatch type of Hr with
      | _ = (_ ++ [?r]) ++ _ => exists (r :: rows)
      end.
      split; [rewrite Hr, <- app_assoc; reflexivity|].
      rewrite Hw. destruct rows as [|t rows]; [reflexivity|].
      rewrite !last_cons. destruct (last rows); reflexivity.
    + injection H1 as <-. exists rows. split; assumption.
Qed.

(** X10.  The final wallet balance reported for a customer is the wallet
    balance of the customer's last trace row, and zero for a customer
    without any trace row. *)
Theorem final_wallet_is_last_row (cid : string) (orders : list order)
    (monthly_results trace : list trace_row) (rec : customer_result) :
  f_customer cid orders monthly_results = Ok (rec, trace) ->
  exists rows,
    trace = monthly_results ++ rows
    /\ final_wallet_balance rec
       = match last rows with
         | Some t => t_wallet_balance t
         | None => Py.of_Z 0
         end.
Proof.
  unfold full_customer. intro H.
  apply bind_Ok in H. destruct H as (st & Hloop & H).
  injection H as <- <-.
  destruct (full_loop_last _ _ _ _ _ Hloop) as (rows & Hr & Hw).
  exists rows. split; [exact Hr | exact Hw].
Qed.


(** The trace of a customer does not depend on the trace so far: the rows
    of the earlier customers only stand in front. *)
Lemma full_loop_prefix (cid : string) (tr : list trace_row) (l : list order) :
  forall (n : Z) (st : full_state),
    Py.for_each (f_order cid) (Py.enumerate n l) (prefix_trace tr st)
    = match Py.for_each (f_order cid) (Py.enumerate n l) st with
      | Ok st' => Ok (prefix_trace tr st')
      | Raise e => Raise e
      end.
Proof.
  induction l as [|o l IH]; intros n st; cbn [Py.enumerate Py.for_each];
    [reflexivity|].
  assert (H1 : f_order cid (prefix_trace tr st) (n, o)
               = match f_order cid st (n, o) with
                 | Ok st' => Ok (prefix_trace tr st')
                 | Raise e => Raise e
                 end).
  { unfold full_order. destruct (strptime (order_date o)) as [d|]; [|reflexivity].
    remember (strftime_Ym d) as mk eqn:Hmk. clear Hmk.
    cbn [prefix_trace f_wallet f_ltv].
    destruct (price_order cashback_config ltv_brackets expiry_days
                (Some expiry_days) n o d (f_wallet st) (f_ltv st)) as [p|e];
      [|reflexivity].
    cbn [mbind res_mbind Py.bind]. unfold prefix_trace.
    cbn [f_wallet f_ltv f_total_silver_rev f_total_gold_rev f_total_promo
         f_total_silver_cb f_total_gold_cb f_total_coins_used f_repeat_revenue
         f_monthly_results].
    rewrite app_assoc. reflexivity. }
  rewrite H1. destruct (f_order cid st (n, o)) as [st1|e]; cbn [Py.bind];
    [apply IH | reflexivity].
Qed.

Lemma full_customer_prefix (cid : string) (orders : list order)
    (tr : list trace_row) :
  f_customer cid orders tr
  = match f_customer cid orders [] with
    | Ok (rec, rows) => Ok (rec, tr ++ rows)
    | Raise e => Raise e
    end.
Proof.
  unfold full_customer.
  replace (init_full tr) with (prefix_trace tr (init_full []))
    by (unfold prefix_trace, init_full; cbn; rewrite app_nil_r; reflexivity).
  rewrite full_loop_prefix.
  destruct (Py.for_each _ _ (init_full [])) as [st|e];
    cbn [mbind res_mbind Py.bind]; reflexivity.
Qed.

Local Abbreviation f_row := (full_row cashback_config ltv_brackets expiry_days).

Lemma full_row_from (rw : row) (cr0 : gmap string customer_result)
    (tr0 : list trace_row) :
  f_row (cr0, tr0) rw
  = match f_row (∅, []) rw with
    | Ok (cr, tr) => Ok (cr ∪ cr0, tr0 ++ tr)
    | Raise e => Raise e
    end.
Proof.
  unfold full_row.
  destruct (parse_order_history (order_history rw)) as [orders|e];
    cbn [mbind res_mbind Py.bind]; [|reflexivity].
  rewrite (full_customer_prefix _ _ tr0).
  destruct (f_customer (customer_id rw) orders []) as [[rec rows]|e];
    cbn [mbind res_mbind Py.bind]; [|reflexivity].
  rewrite <- insert_union_l, (left_id_L ∅ (∪)). reflexivity.
Qed.

Lemma full_rows_from (df : list row) :
  forall (cr0 : gmap string customer_result) (tr0 : list trace_row),
    Py.for_each f_row df (cr0, tr0)
    = match Py.for_each f_row df (∅, []) with
      | Ok (cr, tr) => Ok (cr ∪ cr0, tr0 ++ tr)
      | Raise e => Raise e
      end.
Proof.
  induction df as [|rw df IH]; intros cr0 tr0; cbn [Py.for_each].
  - rewrite (left_id_L ∅ (∪)), app_nil_r. reflexivity.
  - rewrite (full_row_from rw cr0 tr0).
    destruct (f_row (∅, []) rw) as [[cr1 tr1]|e]; cbn [Py.bind]; [|reflexivity].
    rewrite (IH (cr1 ∪ cr0) (tr0 ++ tr1)), (IH cr1 tr1).
    destruct (Py.for_each f_row df (∅, [])) as [[cr2 tr2]|e]; [|reflexivity].
    rewrite (assoc_L (∪)), app_assoc. reflexivity.
Qed.

Lemma for_each_app {S A : Type} (body : S -> A -> res S) (l1 l2 : list A)
    (s : S) :
  Py.for_each body (l1 ++ l2) s
  = Py.bind (Py.for_each body l1 s) (Py.for_each body l2).
Proof.
  revert s. induction l1 as [|x l1 IH]; intro s; cbn [app Py.for_each];
    [reflexivity|].
  destruct (body s x) as [s1|e]; cbn [Py.bind]; [apply IH | reflexivity].
Qed.

Lemma calculate_cashback_split (df1 df2 : list row) :
  calculate_cashback cashback_config ltv_brackets expiry_days (df1 ++ df2)
  = match calculate_cashback cashback_config ltv_brackets expiry_days df1 with
    | Ok (cr1, tr1) =>
        match calculate_cashback cashback_config ltv_brackets expiry_days df2 with
        | Ok (cr2, tr2) => Ok (cr2 ∪ cr1, tr1 ++ tr2)
        | Raise e => Raise e
        end
    | Raise e => Raise e
    end.
Proof.
  unfold calculate_cashback. rewrite for_each_app.
  destruct (Py.for_each f_row df1 (∅, [])) as [[cr1 tr1]|e]; cbn [Py.bind];
    [|reflexivity].
  apply full_rows_from.
Qed.

(** X11.  Customers do not influence each other: the result for a table
    made of two parts is the result for the first part and the result for
    the second part put together, the records of the second part replacing
    those of the first under the same customer id and the trace rows of the
    second part following those of the first. *)
Theorem customers_are_independent (df1 df2 : list row)
    (cr : gmap string customer_result) (trace : list trace_row) :
  calculate_cashback cashback_config ltv_brackets expiry_days (df1 ++ df2)
  = Ok (cr, trace)
  <-> exists cr1 tr1 cr2 tr2,
      calculate_cashback cashback_config ltv_brackets expiry_days df1
      = Ok (cr1, tr1)
      /\ calculate_cashback cashback_config ltv_brackets expiry_days df2
         = Ok (cr2, tr2)
      /\ cr = cr2 ∪ cr1 /\ trace = tr1 ++ tr2.
Proof.
  rewrite calculate_cashback_split. split.
  - intro H.
    destruct (calculate_cashback _ _ _ df1) as [[cr1 tr1]|e]; [|discriminate].
    destruct (calculate_cashback _ _ _ df2) as [[cr2 tr2]|e]; [|discriminate].
    injection H as <- <-. exists cr1, tr1, cr2, tr2. repeat split; reflexivity.
  - intros (cr1 & tr1 & cr2 & tr2 & -> & -> & -> & ->). reflexivity.
Qed.

Lemma calculate_cashback_one (rw : row) :
  calculate_cashback cashback_config ltv_brackets expiry_days [rw]
  = (orders ← parse_order_history (order_history rw);
     '(rec, rows) ← f_customer (customer_id rw) orders [];
     Ok ({[ customer_id rw := rec ]}, rows)).
Proof.
  unfold calculate_cashback. cbn [Py.for_each]. unfold full_row.
  destruct (parse_order_history (order_history rw)) as [orders|e];
    cbn [mbind res_mbind Py.bind]; [|reflexivity].
  destruct (f_customer (customer_id rw) orders []) as [[rec rows]|e];
    cbn [mbind res_mbind Py.bind]; reflexivity.
Qed.

Lemma calculate_cashback_keys (df : list row) :
  forall (cr : gmap string customer_result) (trace : list trace_row),
    calculate_cashback cashback_config ltv_brackets expiry_days df
    = Ok (cr, trace) ->
    dom cr = list_to_set (map customer_id df).
Proof.
  induction df as [|rw df IH]; intros cr trace H.
  - unfold calculate_cashback in H. cbn in H. injection H as <- _.
    apply dom_empty_L.
  - change (rw :: df) with ([rw] ++ df) in H.
    rewrite calculate_cashback_split, calculate_cashback_one in H.
    destruct (parse_order_history (order_history rw)) as [orders|e];
      cbn [mbind res_mbind Py.bind] in H; [|discriminate].
    destruct (f_customer (customer_id rw) orders []) as [[rec rows]|e];
      cbn [mbind res_mbind Py.bind] in H; [|discriminate].
    destruct (calculate_cashback _ _ _ df) as [[cr2 tr2]|e] eqn:E;
      [|discriminate].
    injection H as <- _. rewrite dom_union_L, (IH _ _ eq_refl).
    rewrite dom_singleton_L. cbn [map list_to_set]. set_solver.
Qed.

Lemma full_loop_balances (cid : string) (l : list order) :
  forall (n : Z) (st st' : full_state),
    Forall (fun t => 0 <= balance t) (f_wallet st) ->
    Forall (fun t => 0 <= t_wallet_balance t) (f_monthly_results st) ->
    Py.for_each (f_order cid) (Py.enumerate n l) st = Ok st' ->
    Forall (fun t => 0 <= t_wallet_balance t) (f_monthly_results st').
Proof.
  induction l as [|o l IH]; intros n st st' Hw Ht H;
    cbn [Py.enumerate Py.for_each] in H.
  - injection H as <-. exact Ht.
  - apply bind_Ok in H. destruct H as (st1 & H1 & H).
    unfold full_order in H1.
    destruct (strptime (order_date o)) as [d|].
    + remember (strftime_Ym d) as mk eqn:Hmk. clear Hmk.
      apply bind_Ok in H1. destruct H1 as (p & Hp & H1).
      pose proof (price_order_nonneg _ _ _ _ _ _ _ _ _ _ Hw Hp) as Hk.
      injection H1 as <-. apply IH in H; [exact H | exact Hk |].
      cbn [f_monthly_results]. apply Forall_app. split; [exact Ht|].
      constructor; [|constructor]. cbn [t_wallet_balance].
      apply wallet_sum_nonneg, Hk.
    + injection H1 as <-. exact (IH _ _ _ Hw Ht H).
Qed.

Lemma full_rows_balances (df : list row) :
  forall (cr cr' : gmap string customer_result) (tr tr' : list trace_row),
    Forall (fun t => 0 <= t_wallet_balance t) tr ->
    Py.for_each f_row df (cr, tr) = Ok (cr', tr') ->
    Forall (fun t => 0 <= t_wallet_balance t) tr'.
Proof.
  induction df as [|rw df IH]; intros cr cr' tr tr' Ht H;
    cbn [Py.for_each] in H.
  - injection H as _ <-. exact Ht.
  - apply bind_Ok in H. destruct H as ([cr1 tr1] & H1 & H).
    apply (IH _ _ _ _) in H; [exact H|]. clear H IH.
    unfold full_row in H1.
    apply bind_Ok in H1. destruct H1 as (orders & _ & H1).
    apply bind_Ok in H1. destruct H1 as ([rec tr2] & H1 & H2).
    injection H2 as _ <-. unfold full_customer in H1.
    apply bind_Ok in H1. destruct H1 as (st & Hloop & H1).
    injection H1 as _ <-.
    refine (full_loop_balances _ _ _ (init_full tr) _ _ Ht Hloop). constructor.
Qed.

(** X13.  Whatever the configuration, also with negative rates, the wallet
    balance recorded in a trace row and the final wallet balance of a
    customer are never negative. *)
Theorem balances_never_negative (df : list row)
    (cr : gmap string customer_result) (trace : list trace_row) :
  calculate_cashback cashback_config ltv_brackets expiry_days df
  = Ok (cr, trace) ->
  Forall (fun t => 0 <= t_wallet_balance t) trace
  /\ (forall cid rec, cr !! cid = Some rec -> 0 <= final_wallet_balance rec).
Proof.
  intro H. split.
  - exact (full_rows_balances df _ _ _ _ (List.Forall_nil _) H).
  - unfold calculate_cashback in H. revert H.
    assert (H0 : forall cid rec,
               (∅ : gmap string customer_result) !! cid = Some rec ->
               0 <= final_wallet_balance rec)
      by (intros cid rec K; rewrite lookup_empty in K; discriminate).
    revert H0. generalize (∅ : gmap string customer_result).
    generalize (@nil trace_row). revert cr trace.
    induction df as [|rw df IH]; intros cr trace tr0 cr0 H0 H;
      cbn [Py.for_each] in H.
    + injection H as <- _. exact H0.
    + apply bind_Ok in H. destruct H as ([cr1 tr1] & H1 & H).
      refine (IH _ _ _ _ _ H). clear H IH.
      unfold full_row in H1.
      apply bind_Ok in H1. destruct H1 as (orders & _ & H1).
      apply bind_Ok in H1. destruct H1 as ([rec tr2] & H1 & H2).
      injection H2 as <- _. unfold full_customer in H1.
      apply bind_Ok in H1. destruct H1 as (st & Hloop & H1).
      injection H1 as <- _.
      intros cid rec' K. destruct (decide (customer_id rw = cid)) as [E|Hne].
      * subst cid. rewrite lookup_insert_eq in K. injection K as <-.
        cbn [final_wallet_balance]. apply wallet_sum_nonneg.
        refine (full_loop_nonneg _ _ _ _ _ _ (init_full tr0) _ _ Hloop). constructor.
      * rewrite lookup_insert_ne in K by exact Hne. exact (H0 _ _ K).
Qed.

End FullHistory.

Section Occurrences.

Variable cashback_config : gmap string tier.
Variable ltv_brackets : list bracket.
Variable expiry_days : Z.

(** X12.  The customer records are keyed by the customer ids of the
    table.  Every row of the table, also one whose customer id comes again
    further down, puts the trace rows computed from that row alone into the
    trace, between the trace of the rows before it and the trace of the rows
    after it; the record under a customer id is the one computed from the
    last row with that id alone. *)
Theorem last_row_of_a_customer_wins (df1 df2 : list row) (rw : row)
    (cr : gmap string customer_result) (trace : list trace_row) :
  calculate_cashback cashback_config ltv_brackets expiry_days
                     (df1 ++ rw :: df2) = Ok (cr, trace) ->
  dom cr = list_to_set (map customer_id (df1 ++ rw :: df2))
  /\ exists orders rec rows cr1 tr1 cr2 tr2,
      parse_order_history (order_history rw) = Ok orders
      /\ full_customer cashback_config ltv_brackets expiry_days
                       (customer_id rw) orders [] = Ok (rec, rows)
      /\ calculate_cashback cashback_config ltv_brackets expiry_days df1
         = Ok (cr1, tr1)
      /\ calculate_cashback cashback_config ltv_brackets expiry_days df2
         = Ok (cr2, tr2)
      /\ trace = tr1 ++ rows ++ tr2
      /\ (~ In (customer_id rw) (map customer_id df2) ->
          cr !! customer_id rw = Some rec).
Proof.
  intro H. split; [exact (calculate_cashback_keys _ _ _ _ _ _ H)|].
  change (rw :: df2) with ([rw] ++ df2) in H.
  rewrite calculate_cashback_split in H.
  destruct (calculate_cashback _ _ _ df1) as [[cr1 tr1]|e]; [|discriminate].
  rewrite calculate_cashback_split, calculate_cashback_one in H.
  destruct (parse_order_history (order_history rw)) as [orders|e] eqn:Ep;
    cbn [mbind res_mbind Py.bind] in H; [|discriminate].
  destruct (full_customer _ _ _ (customer_id rw) orders [])
    as [[rec rows]|e] eqn:Ec;
    cbn [mbind res_mbind Py.bind] in H; [|discriminate].
  destruct (calculate_cashback _ _ _ df2) as [[cr2 tr2]|e] eqn:E2;
    [|discriminate].
  injection H as <- <-.
  exists orders, rec, rows, cr1, tr1, cr2, tr2.
  split; [reflexivity|]. split; [exact Ec|]. split; [reflexivity|].
  split; [reflexivity|]. split; [reflexivity|].
  intro Hnot. apply calculate_cashback_keys in E2.
  assert (Hn : cr2 !! customer_id rw = None).
  { apply not_elem_of_dom. rewrite E2. rewrite elem_of_list_to_set.
    intro Hin. apply Hnot. apply list_elem_of_In. exact Hin. }
  apply lookup_union_Some_l. rewrite lookup_union_r by exact Hn.
  apply lookup_singleton_eq.
Qed.

End Occurrences.

(* ================================================================== *)
(** * Customers the drivers cannot price *)
(* ================================================================== *)

Lemma filter_nil_Forall {A : Type} (P : A -> bool) (l : list A) :
  List.filter P l = [] -> Forall (fun x => P x = false) l.
Proof.
  induction l as [|x l IH]; cbn [List.filter]; [constructor|].
  destruct (P x) eqn:E; [discriminate|]. intro H. constructor; auto.
Qed.

Lemma sort_by_length {A : Type} (key : A -> string) (l : list A) :
  length (Py.sort_by key l) = length l.
Proof. apply Permutation_length, sort_by_perm. Qed.

Lemma split_first_valid (l : list order) :
  valid_orders l <> [] ->
  exists pre o rest,
    l = pre ++ o :: rest /\ Forall (fun x => valid x = false) pre
    /\ valid o = true.
Proof.
  induction l as [|x l IH]; [intro H; contradiction H; reflexivity|].
  unfold valid_orders. cbn [List.filter]. destruct (valid x) eqn:E.
  - intros _. exists [], x, l. split; [reflexivity|]. split; [constructor | exact E].
  - intro H. destruct (IH H) as (pre & o & rest & -> & Hpre & Ho).
    exists (x :: pre), o, rest. split; [reflexivity|].
    split; [constructor; assumption | exact Ho].
Qed.

Section BothDrivers.

Variable target_month : string.
Variable cashback_config : gmap string tier.
Variable ltv_brackets : list bracket.
Variable expiry_days : Z.
Variable use_ltv : bool.

Local Abbreviation m_order :=
  (month_order target_month cashback_config ltv_brackets expiry_days use_ltv).
Local Abbreviation m_customer :=
  (month_customer target_month cashback_config ltv_brackets expiry_days use_ltv).
Local Abbreviation m_row :=
  (month_row target_month cashback_config ltv_brackets expiry_days use_ltv).
Local Abbreviation f_order := (full_order cashback_config ltv_brackets expiry_days).
Local Abbreviation f_customer :=
  (full_customer cashback_config ltv_brackets expiry_days).

(** X14.  A customer none of whose orders has a parseable date is never
    priced: whatever the configuration, also an empty bracket list, the
    full-history driver stores the all-zero record with the number of orders
    and adds no trace row, and the month driver leaves its results as they
    were. *)
Theorem customer_without_valid_orders (cid : string) (orders : list order)
    (monthly_results : list trace_row) (r : results use_ltv) :
  valid_orders orders = [] ->
  f_customer cid orders monthly_results
  = Ok (zero_result (Z.of_nat (length orders)), monthly_results)
  /\ m_customer cid orders r = Ok r.
Proof.
  intro H.
  assert (Hs : Forall (fun o => valid o = false) (Py.sort_by order_date orders)).
  { apply filter_nil_Forall. fold (valid_orders (Py.sort_by order_date orders)).
    rewrite valid_orders_sort, H. reflexivity. }
  split.
  - unfold full_customer.
    rewrite <- (app_nil_r (Py.sort_by order_date orders)) at 1.
    rewrite (full_loop_skips cashback_config ltv_brackets expiry_days cid _ []
               Hs 1 (init_full monthly_results)).
    cbn [Py.enumerate Py.for_each mbind res_mbind Py.bind].
    rewrite sort_by_length. reflexivity.
  - unfold month_customer.
    rewrite <- (app_nil_r (Py.sort_by order_date orders)).
    rewrite (month_loop_skips target_month cashback_config ltv_brackets
               expiry_days use_ltv cid _ [] Hs).
    reflexivity.
Qed.

Lemma first_order_raises (e : exn) (cid : string) (orders : list order)
    (monthly_results : list trace_row) (r : results use_ltv) :
  valid_orders orders <> [] ->
  (forall tag n o d,
      price_order cashback_config ltv_brackets expiry_days tag n o d []
                  (Py.of_Z 0) = Raise e) ->
  f_customer cid orders monthly_results = Raise e
  /\ m_customer cid orders r = Raise e.
Proof.
  intros Hv Hp.
  destruct (split_first_valid (Py.sort_by order_date orders))
    as (pre & o & rest & Hl & Hpre & Ho).
  { rewrite valid_orders_sort. intro K. apply Hv.
    apply Permutation_nil. rewrite <- K. apply sort_by_perm. }
  unfold valid in Ho.
  destruct (strptime (order_date o)) as [d|] eqn:Hd; [|discriminate].
  split.
  - unfold full_customer. rewrite Hl.
    rewrite (full_loop_skips cashback_config ltv_brackets expiry_days cid _ _
               Hpre 1 (init_full monthly_results)).
    cbn [Py.enumerate Py.for_each]. unfold full_order at 1. rewrite Hd.
    cbn [init_full f_wallet f_ltv]. rewrite Hp. reflexivity.
  - unfold month_customer. rewrite Hl.
    rewrite (month_loop_skips target_month cashback_config ltv_brackets
               expiry_days use_ltv cid _ _ Hpre).
    cbn [Py.for_each]. unfold month_order at 1. rewrite Hd.
    cbn [m_wallet m_ltv]. rewrite Hp. reflexivity.
Qed.

(** X15.  A customer with an order whose date parses makes both drivers
    raise at that customer's first such order when the bracket list is
    empty ([IndexError]) or when the bracket for an LTV of zero has no rates
    in the configuration ([KeyError]). *)
Theorem drivers_raise_on_bad_configuration (cid : string)
    (orders : list order) (monthly_results : list trace_row)
    (r : results use_ltv) :
  valid_orders orders <> [] ->
  (ltv_brackets = [] ->
   f_customer cid orders monthly_results = Raise IndexError
   /\ m_customer cid orders r = Raise IndexError)
  /\ (forall label,
        get_ltv_bracket (Py.of_Z 0) ltv_brackets = Ok label ->
        cashback_config !! label = None ->
        f_customer cid orders monthly_results = Raise KeyError
        /\ m_customer cid orders r = Raise KeyError).
Proof.
  intro Hv. split.
  - intro He. apply first_order_raises; [exact Hv|].
    intros tag n o d. unfold price_order. rewrite He. reflexivity.
  - intros label Hl Hc. apply first_order_raises; [exact Hv|].
    intros tag n o d. unfold price_order. rewrite Hl.
    cbn [mbind res_mbind Py.bind]. unfold Py.getitem. rewrite Hc. reflexivity.
Qed.

End BothDrivers.

(* ================================================================== *)
(** * Further properties of [calculate_cashback_for_month] *)
(* ================================================================== *)

Lemma month_orders_sort (M : string) (l : list order) :
  month_orders M (Py.sort_by order_date l)
  = Py.sort_by order_date (month_orders M l).
Proof. apply filter_sort_by. Qed.

Lemma sort_by_nil_inv {A : Type} (key : A -> string) (l : list A) :
  Py.sort_by key l = [] -> l = [].
Proof.
  intro H. apply Permutation_nil. rewrite <- H. apply sort_by_perm.
Qed.

Lemma init_results_dom (ltv_brackets : list bracket) :
  dom (init_results true ltv_brackets) = labels ltv_brackets.
Proof.
  unfold labels. cbn [init_results].
  assert (H : forall (l : list bracket) (m : gmap string bucket),
             dom (foldl (fun m b => <[br_label b := empty_bucket]> m) m l)
             = dom m ∪ list_to_set (map br_label l)).
  { induction l as [|b l IH]; intro m; cbn [foldl map list_to_set].
    - rewrite (right_id_L ∅ (∪)). reflexivity.
    - rewrite IH, dom_insert_L, (assoc_L (∪)).
      rewrite (comm_L (∪) {[br_label b]} (dom m)). reflexivity. }
  rewrite H. change (results true) with (gmap string bucket).
  rewrite dom_empty_L, (left_id_L ∅ (∪)). reflexivity.
Qed.

Lemma init_results_no_customer (use_ltv : bool) (ltv_brackets : list bracket)
    (cid : string) :
  ~ has_customer (init_results use_ltv ltv_brackets) cid.
Proof.
  destruct use_ltv; cbn [has_customer init_results].
  - assert (H : forall (l : list bracket) (m : gmap string bucket),
               (forall label b, m !! label = Some b -> b = empty_bucket) ->
               forall label b,
                 foldl (fun m b => <[br_label b := empty_bucket]> m) m l
                 !! label = Some b -> b = empty_bucket).
    { induction l as [|x l IH]; intros m Hm; cbn [foldl]; [exact Hm|].
      apply IH. intros label b.
      destruct (decide (br_label x = label)) as [<-|Hne].
      - rewrite lookup_insert_eq. congruence.
      - rewrite lookup_insert_ne by exact Hne. apply Hm. }
    intros (label & b & Hb & Hin).
    apply H in Hb; [subst b; cbn in Hin; exact (not_elem_of_empty _ Hin)|].
    intros l' b' K. change (results true) with (gmap string bucket) in K.
    rewrite lookup_empty in K. discriminate.
  - apply not_elem_of_empty.
Qed.

Section MonthResults.

Variable target_month : string.
Variable cashback_config : gmap string tier.
Variable ltv_brackets : list bracket.
Variable expiry_days : Z.
Variable use_ltv : bool.

Local Abbreviation m_order :=
  (month_order target_month cashback_config ltv_brackets expiry_days use_ltv).
Local Abbreviation m_customer :=
  (month_customer target_month cashback_config ltv_brackets expiry_days use_ltv).
Local Abbreviation m_row :=
  (month_row target_month cashback_config ltv_brackets expiry_days use_ltv).

Lemma month_loop_unchanged (cid : string) (l : list order) :
  forall st st' : month_state use_ltv,
    month_orders target_month l = [] ->
    Py.for_each (m_order cid) l st = Ok st' ->
    m_results st' = m_results st /\ m_contributed st' = m_contributed st.
Proof.
  induction l as [|o l IH]; intros st st' Hn H; cbn [Py.for_each] in H.
  - injection H as <-. split; reflexivity.
  - apply bind_Ok in H. destruct H as (st1 & H1 & H).
    unfold month_orders in Hn. cbn [List.filter] in Hn.
    unfold month_order in H1. unfold in_month in Hn.
    destruct (strptime (order_date o)) as [d|].
    + destruct (String.eqb (strftime_Ym d) target_month) eqn:E; [discriminate|].
      apply (IH _ _ Hn) in H. destruct H as [Hr Hc].
      remember (strftime_Ym d) as mk eqn:Hmk. clear Hmk.
      apply bind_Ok in H1. destruct H1 as (p & _ & H1).
      injection H1 as <-. split; assumption.
    + injection H1 as <-. exact (IH _ _ Hn H).
Qed.

Lemma month_customer_unchanged (cid : string) (orders : list order)
    (r r' : results use_ltv) :
  month_orders target_month orders = [] ->
  m_customer cid orders r = Ok r' -> r' = r.
Proof.
  intros Hn H. unfold month_customer in H.
  apply bind_Ok in H. destruct H as (st & Hloop & H).
  apply month_loop_unchanged in Hloop;
    [|rewrite month_orders_sort, Hn; reflexivity].
  destruct Hloop as [Hr Hc]. cbn [m_results m_contributed] in Hr, Hc.
  rewrite Hc in H. injection H as <-. exact Hr.
Qed.

(** X16.  A table without an order in the target month leaves the month
    results as initialised, all zero and without customers, although every
    order of the table is priced on the way. *)
Theorem month_without_orders (df : list row) (r : results use_ltv) :
  Forall (fun rw => ~ contributes target_month rw) df ->
  calculate_cashback_for_month target_month cashback_config ltv_brackets
                               expiry_days use_ltv df = Ok r ->
  r = init_results use_ltv ltv_brackets.
Proof.
  unfold calculate_cashback_for_month.
  generalize (init_results use_ltv ltv_brackets).
  induction df as [|rw df IH]; intros r0 Hdf H; cbn [Py.for_each] in H.
  - injection H as <-. reflexivity.
  - inversion Hdf as [|? ? Hrw Hdf']; subst.
    apply bind_Ok in H. destruct H as (r1 & H1 & H).
    unfold month_row in H1.
    apply bind_Ok in H1. destruct H1 as (orders & Hp & H1).
    apply month_customer_unchanged in H1; [subst r1; exact (IH _ Hdf' H)|].
    destruct (month_orders target_month orders) eqn:E; [reflexivity|].
    exfalso. apply Hrw. exists orders. split; [exact Hp|]. rewrite E. discriminate.
Qed.


Lemma update_results_customers (label cid : string) (o : order) (p : pricing)
    (r r' : results use_ltv) :
  update_results use_ltv label (fun b => add_order b cid o p) r = Ok r' ->
  forall c, has_customer r' c <-> has_customer r c \/ c = cid.
Proof.
  destruct use_ltv; cbn [update_results has_customer]; intros H c.
  - change (results true) with (gmap string bucket) in *.
    apply bind_Ok in H. destruct H as (b & Hb & H). injection H as <-.
    unfold Py.getitem in Hb.
    destruct (r !! label) as [b0|] eqn:E; [|discriminate]. injection Hb as ->.
    split.
    + intros (l & b' & Hl & Hin).
      destruct (decide (label = l)) as [<-|Hne].
      * rewrite lookup_insert_eq in Hl. injection Hl as <-.
        cbn [add_order unique_customers] in Hin.
        apply elem_of_union in Hin. destruct Hin as [Hin | Hin].
        -- left. exists label, b. split; assumption.
        -- right. apply elem_of_singleton in Hin. exact Hin.
      * rewrite lookup_insert_ne in Hl by exact Hne.
        left. exists l, b'. split; assumption.
    + intros [(l & b' & Hl & Hin) | ->].
      * destruct (decide (label = l)) as [<-|Hne].
        -- exists label, (add_order b cid o p).
           rewrite lookup_insert_eq. split; [reflexivity|].
           rewrite E in Hl. injection Hl as <-.
           cbn [add_order unique_customers]. apply elem_of_union_l, Hin.
        -- exists l, b'. rewrite lookup_insert_ne by exact Hne.
           split; assumption.
      * exists label, (add_order b cid o p).
        rewrite lookup_insert_eq. split; [reflexivity|].
        cbn [add_order unique_customers].
        apply elem_of_union_r, elem_of_singleton. reflexivity.
  - injection H as <-. cbn [add_order unique_customers].
    rewrite elem_of_union, elem_of_singleton. reflexivity.
Qed.

Lemma add_final_balance_customers (ltv final_wallet : Py.num)
    (r r' : results use_ltv) :
  add_final_balance use_ltv ltv_brackets ltv final_wallet r = Ok r' ->
  forall c, has_customer r' c <-> has_customer r c.
Proof.
  destruct use_ltv; cbn [add_final_balance has_customer]; intros H c.
  - change (results true) with (gmap string bucket) in *.
    apply bind_Ok in H. destruct H as (label & _ & H).
    apply bind_Ok in H. destruct H as (b & Hb & H). injection H as <-.
    unfold Py.getitem in Hb.
    destruct (r !! label) as [b0|] eqn:E; [|discriminate]. injection Hb as ->.
    split.
    + intros (l & b' & Hl & Hin).
      destruct (decide (label = l)) as [<-|Hne].
      * rewrite lookup_insert_eq in Hl. injection Hl as <-.
        exists label, b. split; assumption.
      * rewrite lookup_insert_ne in Hl by exact Hne.
        exists l, b'. split; assumption.
    + intros (l & b' & Hl & Hin).
      destruct (decide (label = l)) as [<-|Hne].
      * exists label, (add_coin_balance b final_wallet).
        rewrite lookup_insert_eq. split; [reflexivity|].
        rewrite E in Hl. injection Hl as <-. exact Hin.
      * exists l, b'. rewrite lookup_insert_ne by exact Hne.
        split; assumption.
  - injection H as <-. reflexivity.
Qed.

Lemma month_loop_customers (cid : string) (l : list order) :
  forall st st' : month_state use_ltv,
    Py.for_each (m_order cid) l st = Ok st' ->
    forall c,
      has_customer (m_results st') c
      <-> has_customer (m_results st) c
          \/ (c = cid /\ month_orders target_month l <> []).
Proof.
  induction l as [|o l IH]; intros st st' H c; cbn [Py.for_each] in H.
  - injection H as <-. split; [auto|]. intros [K | [_ K]]; [exact K|].
    contradiction K. reflexivity.
  - apply bind_Ok in H. destruct H as (st1 & H1 & H).
    rewrite (IH _ _ H c). clear IH H.
    unfold month_orders. cbn [List.filter]. fold (month_orders target_month l).
    unfold month_order in H1. unfold in_month.
    destruct (strptime (order_date o)) as [d|].
    + destruct (String.eqb (strftime_Ym d) target_month) eqn:E;
        remember (strftime_Ym d) as mk eqn:Hmk; clear Hmk;
        apply bind_Ok in H1; destruct H1 as (p & _ & H1).
      * apply bind_Ok in H1. destruct H1 as (r1 & Hr1 & H1).
        injection H1 as <-. cbn [m_results].
        rewrite (update_results_customers _ _ _ _ _ _ Hr1 c).
        split.
        -- intros [[K | K] | [K _]]; [left; exact K | right | right];
             (split; [exact K | discriminate]).
        -- intros [K | [K _]]; [left; left; exact K | left; right; exact K].
      * injection H1 as <-. cbn [m_results]. reflexivity.
    + injection H1 as <-. reflexivity.
Qed.

Lemma month_customer_customers (cid : string) (orders : list order)
    (r r' : results use_ltv) :
  m_customer cid orders r = Ok r' ->
  forall c,
    has_customer r' c
    <-> has_customer r c \/ (c = cid /\ month_orders target_month orders <> []).
Proof.
  intros H c. unfold month_customer in H.
  apply bind_Ok in H. destruct H as (st & Hloop & H).
  pose proof (month_loop_customers _ _ _ _ Hloop c) as Hc.
  cbn [m_results] in Hc.
  assert (Hs : month_orders target_month (Py.sort_by order_date orders) <> []
               <-> month_orders target_month orders <> []).
  { rewrite month_orders_sort. split; intros K E; apply K.
    - rewrite E. reflexivity.
    - exact (sort_by_nil_inv _ _ E). }
  rewrite Hs in Hc. rewrite <- Hc.
  destruct (m_contributed st).
  - exact (add_final_balance_customers _ _ _ _ H c).
  - injection H as <-. reflexivity.
Qed.

(** X17.  The unique customers of a month are exactly the customer ids of
    the rows with an order in the target month, with or without bracket
    breakdown; customers with orders in other months only are priced but
    not counted. *)
Theorem month_customers (df : list row) (r : results use_ltv) :
  calculate_cashback_for_month target_month cashback_config ltv_brackets
                               expiry_days use_ltv df = Ok r ->
  forall cid,
    has_customer r cid
    <-> exists rw, In rw df /\ customer_id rw = cid
                   /\ contributes target_month rw.
Proof.
  unfold calculate_cashback_for_month. intros H cid.
  assert (G : forall (df : list row) (r0 r : results use_ltv),
             Py.for_each m_row df r0 = Ok r ->
             has_customer r cid
             <-> has_customer r0 cid
                 \/ exists rw, In rw df /\ customer_id rw = cid
                               /\ contributes target_month rw).
  { clear. induction df as [|rw df IH]; intros r0 r H; cbn [Py.for_each] in H.
    - injection H as <-. split; [auto|]. intros [K | (rw & [] & _)]. exact K.
    - apply bind_Ok in H. destruct H as (r1 & H1 & H).
      rewrite (IH _ _ H). clear IH H. unfold month_row in H1.
      apply bind_Ok in H1. destruct H1 as (orders & Hp & H1).
      rewrite (month_customer_customers _ _ _ _ H1 cid). split.
      + intros [[K | [K1 K2]] | (rw' & Hin & Hid & Hc)].
        * left. exact K.
        * right. exists rw. split; [left; reflexivity|].
          split; [symmetry; exact K1|]. exists orders. split; assumption.
        * right. exists rw'. split; [right; exact Hin|]. split; assumption.
      + intros [K | (rw' & [<- | Hin] & Hid & Hc)].
        * left. left. exact K.
        * left. right. split; [symmetry; exact Hid|].
          destruct Hc as (orders' & Hp' & Hc). rewrite Hp in Hp'.
          injection Hp' as <-. exact Hc.
        * right. exists rw'. split; [exact Hin|]. split; assumption. }
  rewrite (G _ _ _ H). split.
  - intros [K | K]; [|exact K].
    exfalso. exact (init_results_no_customer _ _ _ K).
  - intro K. right. exact K.
Qed.

End MonthResults.

Section Breakdown.

Variable target_month : string.
Variable cashback_config : gmap string tier.
Variable ltv_brackets : list bracket.
Variable expiry_days : Z.

Lemma getitem_insert_dom (m : gmap string bucket) (label : string)
    (b b' : bucket) :
  Py.getitem m label = Ok b -> dom (<[label := b']> m) = dom m.
Proof.
  unfold Py.getitem. destruct (m !! label) as [b0|] eqn:E; [|discriminate].
  intros _. apply dom_insert_lookup_L. rewrite E. eexists. reflexivity.
Qed.

Lemma month_loop_dom (cid : string) (l : list order) :
  forall st st' : month_state true,
    Py.for_each (month_order target_month cashback_config ltv_brackets
                             expiry_days true cid) l st = Ok st' ->
    dom (m_results st' : gmap string bucket)
    = dom (m_results st : gmap string bucket).
Proof.
  induction l as [|o l IH]; intros st st' H; cbn [Py.for_each] in H.
  - injection H as <-. reflexivity.
  - apply bind_Ok in H. destruct H as (st1 & H1 & H).
    rewrite (IH _ _ H). clear IH H. unfold month_order in H1.
    destruct (strptime (order_date o)) as [d|].
    + remember (strftime_Ym d) as mk eqn:Hmk. clear Hmk.
      apply bind_Ok in H1. destruct H1 as (p & _ & H1).
      destruct (String.eqb mk target_month).
      * apply bind_Ok in H1. destruct H1 as (r1 & Hr1 & H1).
        injection H1 as <-. cbn [m_results].
        cbn [update_results] in Hr1.
        apply bind_Ok in Hr1. destruct Hr1 as (b & Hb & Hr1).
        injection Hr1 as <-. exact (getitem_insert_dom _ _ _ _ Hb).
      * injection H1 as <-. reflexivity.
    + injection H1 as <-. reflexivity.
Qed.

(** X18.  With bracket breakdown the month results have one bucket per
    bracket label, no more and no fewer, whatever the orders: a bracket
    without orders keeps its bucket, and two brackets with the same label
    share one. *)
Theorem month_buckets_are_the_labels (df : list row)
    (r : gmap string bucket) :
  calculate_cashback_for_month target_month cashback_config ltv_brackets
                               expiry_days true df = Ok r ->
  dom r = labels ltv_brackets.
Proof.
  unfold calculate_cashback_for_month. rewrite <- init_results_dom.
  generalize (init_results true ltv_brackets). revert r.
  induction df as [|rw df IH]; intros r r0 H; cbn [Py.for_each] in H.
  - injection H as <-. reflexivity.
  - apply bind_Ok in H. destruct H as (r1 & H1 & H).
    rewrite (IH _ _ H). clear IH H. unfold month_row in H1.
    apply bind_Ok in H1. destruct H1 as (orders & _ & H1).
    unfold month_customer in H1.
    apply bind_Ok in H1. destruct H1 as (st & Hloop & H1).
    apply month_loop_dom in Hloop. cbn [m_results] in Hloop.
    etransitivity; [|exact Hloop]. clear Hloop.
    destruct (m_contributed st).
    + cbn [add_final_balance] in H1.
      apply bind_Ok in H1. destruct H1 as (label & _ & H1).
      apply bind_Ok in H1. destruct H1 as (b & Hb & H1).
      injection H1 as <-. exact (getitem_insert_dom _ _ _ _ Hb).
    + injection H1 as <-. reflexivity.
Qed.

End Breakdown.

(* ================================================================== *)
(** * The two drivers in lockstep *)
(* ================================================================== *)

Lemma strip_expire (d : datetime) (W : Z) (w : list txn) :
  expire d W (strip w) = strip (expire d W w).
Proof.
  unfold expire, strip. induction w as [|t w IH]; [reflexivity|].
  cbn [map List.filter earned_date].
  destruct (days_between d (earned_date t) <=? W)%Z; cbn [map]; rewrite IH;
    reflexivity.
Qed.

Lemma strip_sum (w : list txn) : wallet_sum (strip w) = wallet_sum w.
Proof.
  unfold wallet_sum, strip. rewrite map_map. reflexivity.
Qed.

Lemma strip_deduct (w : list txn) :
  forall a : Py.num, deduct a (strip w) = strip (deduct a w).
Proof.
  induction w as [|t w IH]; intro a; [reflexivity|].
  cbn [strip map deduct balance earned_date expiry_days_field].
  destruct (Py.leb a (Py.of_Z 0)); [reflexivity|].
  cbn [map balance earned_date]. f_equal. apply IH.
Qed.

Lemma price_order_strip cfg brs W tag n o d w ltv :
  price_order cfg brs W None n o d (strip w) ltv
  = match price_order cfg brs W tag n o d w ltv with
    | Ok p => Ok (with_wallet p (strip (p_wallet p)))
    | Raise e => Raise e
    end.
Proof.
  unfold price_order.
  destruct (get_ltv_bracket ltv brs) as [lbl|e];
    cbn [mbind res_mbind Py.bind]; [|reflexivity].
  destruct (Py.getitem cfg lbl) as [c|e];
    cbn [mbind res_mbind Py.bind]; [|reflexivity].
  rewrite strip_expire, strip_sum. unfold with_wallet.
  cbn [p_bracket p_wallet_balance p_order_value p_silver_cashback
       p_gold_cashback p_total_cashback p_max_usable p_coins_used
       p_amount_paid p_wallet p_ltv].
  f_equal. f_equal.
  destruct (1 <? n)%Z;
    destruct (Py.ltb (Py.of_Z 0) _);
    rewrite ?strip_deduct; unfold strip; rewrite ?map_app; reflexivity.
Qed.

Lemma price_order_num cfg brs W tag (n n' : Z) o d w ltv :
  (1 <? n)%Z = (1 <? n')%Z ->
  price_order cfg brs W tag n o d w ltv
  = price_order cfg brs W tag n' o d w ltv.
Proof. intro H. unfold price_order. rewrite H. reflexivity. Qed.

Lemma month_rows_one (M : string) (t : trace_row) :
  month_rows M [t] = if String.eqb (t_month t) M then [t] else [].
Proof. reflexivity. Qed.

Section Lockstep.

Variable M : string.
Variable cashback_config : gmap string tier.
Variable ltv_brackets : list bracket.
Variable expiry_days : Z.

Local Abbreviation m_order :=
  (month_order M cashback_config ltv_brackets expiry_days false).
Local Abbreviation f_order := (full_order cashback_config ltv_brackets expiry_days).

Lemma agree_cb_nil (b : bucket) : agree_cb M b b [].
Proof. repeat split. Qed.

Lemma agree_cb_trans (b0 b1 b2 : bucket) (r1 r2 : list trace_row) :
  agree_cb M b0 b1 r1 -> agree_cb M b1 b2 r2 -> agree_cb M b0 b2 (r1 ++ r2).
Proof.
  intros (Hs1 & Hg1 & Hc1) (Hs2 & Hg2 & Hc2). unfold agree_cb.
  rewrite month_rows_app, !map_app, !fold_left_app, <- Hs1, <- Hg1, <- Hc1.
  repeat split; assumption.
Qed.

Lemma lockstep_refl (ms : month_state false) (fs : full_state) :
  m_wallet ms = strip (f_wallet fs) -> m_ltv ms = f_ltv fs ->
  lockstep M ms ms fs fs [].
Proof.
  intros Hw Hl. split; try assumption.
  - rewrite app_nil_r. reflexivity.
  - apply agree_cb_nil.
  - lia.
  - cbn. rewrite orb_false_r. reflexivity.
  - reflexivity.
Qed.

Lemma lockstep_trans (ms0 ms1 ms2 : month_state false)
    (fs0 fs1 fs2 : full_state) (r1 r2 : list trace_row) :
  lockstep M ms0 ms1 fs0 fs1 r1 -> lockstep M ms1 ms2 fs1 fs2 r2 ->
  lockstep M ms0 ms2 fs0 fs2 (r1 ++ r2).
Proof.
  intros [T1 A1 W1 L1 N1 C1 B1] [T2 A2 W2 L2 N2 C2 B2]. split.
  - rewrite T2, T1, <- app_assoc. reflexivity.
  - exact (agree_cb_trans _ _ _ _ _ A1 A2).
  - exact W2.
  - exact L2.
  - lia.
  - rewrite C2, C1, month_rows_app, <- orb_assoc. f_equal.
    destruct (month_rows M r1), (month_rows M r2); reflexivity.
  - rewrite B2, B1. reflexivity.
Qed.

Lemma order_lockstep (cid : string) (o : order) (n : Z)
    (ms ms' : month_state false) (fs fs' : full_state) :
  (1 <? m_order_num ms + 1)%Z = (1 <? n)%Z ->
  m_wallet ms = strip (f_wallet fs) -> m_ltv ms = f_ltv fs ->
  m_order cid ms o = Ok ms' ->
  f_order cid fs (n, o) = Ok fs' ->
  exists rows,
    lockstep M ms ms' fs fs' rows
    /\ (valid o = true -> m_order_num ms' = (m_order_num ms + 1)%Z).
Proof.
  intros Hn Hw Hl Hm Hf. unfold month_order in Hm. unfold full_order in Hf.
  unfold valid.
  destruct (strptime (order_date o)) as [d|].
  - remember (strftime_Ym d) as mk eqn:Hmk. clear Hmk.
    apply bind_Ok in Hf. destruct Hf as (q & Hq & Hf).
    rewrite Hw, Hl, (price_order_num _ _ _ _ _ n _ _ _ _ Hn) in Hm.
    rewrite (price_order_strip _ _ _ (Some expiry_days)), Hq in Hm.
    cbn [mbind res_mbind Py.bind] in Hm.
    injection Hf as <-.
    cbn [f_monthly_results f_wallet f_ltv].
    eexists. split; [|intros _].
    + split; [reflexivity| | | | | |];
        destruct (String.eqb mk M) eqn:E;
        cbn [update_results mbind res_mbind Py.bind] in Hm;
        injection Hm as <-;
        cbn [m_results m_wallet m_ltv m_order_num m_contributed with_wallet
             p_wallet p_ltv p_silver_cashback p_gold_cashback p_coins_used
             add_order total_silver_cb total_gold_cb total_coins_used
             total_coin_balance];
        unfold agree_cb; rewrite ?month_rows_one; cbn [t_month]; rewrite ?E;
        cbn [map fold_left t_silver_cb t_gold_cb t_coins_used];
        rewrite ?orb_true_r, ?orb_false_r;
        first [reflexivity | lia | repeat split].
    + destruct (String.eqb mk M);
        cbn [update_results mbind res_mbind Py.bind] in Hm;
        injection Hm as <-; reflexivity.
  - injection Hm as <-. injection Hf as <-. exists [].
    split; [apply lockstep_refl; assumption | discriminate].
Qed.

Lemma orders_lockstep (cid : string) (l : list order) :
  forall (n : Z) (ms ms' : month_state false) (fs fs' : full_state),
    (1 <= m_order_num ms)%Z -> (2 <= n)%Z ->
    m_wallet ms = strip (f_wallet fs) -> m_ltv ms = f_ltv fs ->
    Py.for_each (m_order cid) l ms = Ok ms' ->
    Py.for_each (f_order cid) (Py.enumerate n l) fs = Ok fs' ->
    exists rows, lockstep M ms ms' fs fs' rows.
Proof.
  induction l as [|o l IH]; intros n ms ms' fs fs' Hm1 Hn Hw Hl Hm Hf;
    cbn [Py.enumerate Py.for_each] in Hm, Hf.
  - injection Hm as <-. injection Hf as <-. exists [].
    apply lockstep_refl; assumption.
  - apply bind_Ok in Hm. destruct Hm as (ms1 & Hm1' & Hm).
    apply bind_Ok in Hf. destruct Hf as (fs1 & Hf1 & Hf).
    destruct (order_lockstep cid o n ms ms1 fs fs1) as (r1 & L1 & _);
      try assumption.
    { transitivity true; [|symmetry]; apply Z.ltb_lt; lia. }
    destruct (IH (n + 1)%Z ms1 ms' fs1 fs') as (r2 & L2); try assumption.
    + pose proof (ls_num _ _ _ _ _ _ L1). lia.
    + lia.
    + exact (ls_wallet _ _ _ _ _ _ L1).
    + exact (ls_ltv _ _ _ _ _ _ L1).
    + exists (r1 ++ r2). exact (lockstep_trans _ _ _ _ _ _ _ _ L1 L2).
Qed.

Lemma history_lockstep (cid : string) (l : list order)
    (ms ms' : month_state false) (fs fs' : full_state) :
  starts_valid l = true ->
  m_order_num ms = 0%Z ->
  m_wallet ms = strip (f_wallet fs) -> m_ltv ms = f_ltv fs ->
  Py.for_each (m_order cid) l ms = Ok ms' ->
  Py.for_each (f_order cid) (Py.enumerate 1 l) fs = Ok fs' ->
  exists rows, lockstep M ms ms' fs fs' rows.
Proof.
  intros Hs H0 Hw Hl Hm Hf. destruct l as [|o l].
  - cbn in Hm, Hf. injection Hm as <-. injection Hf as <-. exists [].
    apply lockstep_refl; assumption.
  - cbn [starts_valid] in Hs. cbn [Py.enumerate Py.for_each] in Hm, Hf.
    apply bind_Ok in Hm. destruct Hm as (ms1 & Hm1 & Hm).
    apply bind_Ok in Hf. destruct Hf as (fs1 & Hf1 & Hf).
    destruct (order_lockstep cid o 1 ms ms1 fs fs1) as (r1 & L1 & N1);
      try assumption.
    { rewrite H0. reflexivity. }
    destruct (orders_lockstep cid l 2 ms1 ms' fs1 fs') as (r2 & L2);
      try assumption.
    + rewrite (N1 Hs), H0. lia.
    + lia.
    + exact (ls_wallet _ _ _ _ _ _ L1).
    + exact (ls_ltv _ _ _ _ _ _ L1).
    + exists (r1 ++ r2). exact (lockstep_trans _ _ _ _ _ _ _ _ L1 L2).
Qed.

Lemma month_loop_contributed (cid : string) (l : list order) :
  forall st st' : month_state false,
    Py.for_each (m_order cid) l st = Ok st' ->
    m_contributed st'
    = m_contributed st
      || match month_orders M l with [] => false | _ :: _ => true end.
Proof.
  induction l as [|o l IH]; intros st st' H; cbn [Py.for_each] in H.
  - injection H as <-. cbn. rewrite orb_false_r. reflexivity.
  - apply bind_Ok in H. destruct H as (st1 & H1 & H).
    rewrite (IH _ _ H). clear IH H.
    unfold month_orders. cbn [List.filter]. fold (month_orders M l).
    unfold month_order in H1. unfold in_month.
    destruct (strptime (order_date o)) as [d|].
    + destruct (String.eqb (strftime_Ym d) M) eqn:E;
        remember (strftime_Ym d) as mk eqn:Hmk; clear Hmk;
        apply bind_Ok in H1; destruct H1 as (p & _ & H1).
      * injection H1 as <-. cbn [m_contributed].
        rewrite orb_true_r. reflexivity.
      * injection H1 as <-. reflexivity.
    + injection H1 as <-. reflexivity.
Qed.

Lemma customer_lockstep (cid : string) (orders : list order)
    (b b' : bucket) (tr tr' : list trace_row) (rec : customer_result) :
  starts_valid (Py.sort_by order_date orders) = true ->
  month_customer M cashback_config ltv_brackets expiry_days false cid orders b
  = Ok b' ->
  full_customer cashback_config ltv_brackets expiry_days cid orders tr
  = Ok (rec, tr') ->
  exists rows,
    tr' = tr ++ rows /\ agree_cb M b b' rows
    /\ total_coin_balance b'
       = total_coin_balance b
         + match month_orders M orders with
           | [] => 0
           | _ :: _ => final_wallet_balance rec
           end.
Proof.
  intros Hs Hm Hf. unfold month_customer in Hm. unfold full_customer in Hf.
  apply bind_Ok in Hm. destruct Hm as (ms & Hm1 & Hm).
  apply bind_Ok in Hf. destruct Hf as (fs & Hf1 & Hf).
  destruct (history_lockstep cid _ (@mkmonth false b [] (Py.of_Z 0) 0%Z false)
              ms (init_full tr) fs Hs eq_refl eq_refl eq_refl Hm1 Hf1)
    as (rows & [T A W L N C B]).
  pose proof (month_loop_contributed _ _ _ _ Hm1) as Hc.
  rewrite month_orders_sort in Hc.
  injection Hf as <- <-. exists rows. split; [exact T|].
  cbn [m_results m_contributed init_full f_monthly_results
       final_wallet_balance] in *.
  rewrite Hc in Hm. cbn [orb] in Hm.
  destruct (month_orders M orders) as [|o os].
  - cbn in Hm. injection Hm as <-. split; [exact A|]. rewrite B. ring.
  - destruct (Py.sort_by order_date (o :: os)) as [|o' os'] eqn:E;
      [apply sort_by_nil_inv in E; discriminate|].
    cbn [add_final_balance] in Hm. injection Hm as <-.
    split; [exact A|].
    cbn [add_coin_balance total_coin_balance]. rewrite B, W, strip_sum.
    reflexivity.
Qed.

(** X19.  For a customer whose sorted history starts with an order whose
    date parses, the coin balance the month driver adds for the customer is
    the wallet at the end of the whole history, the final wallet balance of
    the full-history driver, when the customer has an order in the target
    month, and nothing otherwise. *)
Theorem month_coin_balance_is_final_wallet (cid : string)
    (orders : list order) (b b' : bucket) (tr tr' : list trace_row)
    (rec : customer_result) :
  starts_valid (Py.sort_by order_date orders) = true ->
  month_customer M cashback_config ltv_brackets expiry_days false cid orders b
  = Ok b' ->
  full_customer cashback_config ltv_brackets expiry_days cid orders tr
  = Ok (rec, tr') ->
  total_coin_balance b'
  = total_coin_balance b
    + match month_orders M orders with
      | [] => 0
      | _ :: _ => final_wallet_balance rec
      end.
Proof.
  intros Hs Hm Hf.
  destruct (customer_lockstep _ _ _ _ _ _ _ Hs Hm Hf) as (rows & _ & _ & H).
  exact H.
Qed.

Lemma rows_lockstep (df : list row) :
  histories_start_valid df ->
  forall (b b' : bucket) (cr cr' : gmap string customer_result)
         (tr tr' : list trace_row),
    Py.for_each (month_row M cashback_config ltv_brackets expiry_days false) df b
    = Ok b' ->
    Py.for_each (full_row cashback_config ltv_brackets expiry_days) df (cr, tr)
    = Ok (cr', tr') ->
    exists rows, tr' = tr ++ rows /\ agree_cb M b b' rows.
Proof.
  induction 1 as [|rw df Hrw _ IH]; intros b b' cr cr' tr tr' Hm Hf;
    cbn [Py.for_each] in Hm, Hf.
  - injection Hm as <-. injection Hf as <- <-. exists [].
    rewrite app_nil_r. split; [reflexivity | apply agree_cb_nil].
  - apply bind_Ok in Hm. destruct Hm as (b1 & Hm1 & Hm).
    apply bind_Ok in Hf. destruct Hf as ([cr1 tr1] & Hf1 & Hf).
    unfold month_row in Hm1. unfold full_row in Hf1.
    apply bind_Ok in Hm1. destruct Hm1 as (orders & Hparse & Hm1).
    apply bind_Ok in Hf1. destruct Hf1 as (orders' & Hparse' & Hf1).
    rewrite Hparse in Hparse'. injection Hparse' as <-.
    apply bind_Ok in Hf1. destruct Hf1 as ([rec tr2] & Hf1 & Hf2).
    injection Hf2 as <- <-.
    destruct (customer_lockstep _ _ _ _ _ _ _ (Hrw _ Hparse) Hm1 Hf1)
      as (r1 & Hr1 & Ha1 & _).
    destruct (IH _ _ _ _ _ _ Hm Hf) as (r2 & Hr2 & Ha2).
    exists (r1 ++ r2). rewrite Hr2, Hr1, <- app_assoc.
    split; [reflexivity | exact (agree_cb_trans _ _ _ _ _ Ha1 Ha2)].
Qed.

(** X20.  When the sorted history of every customer starts with an order
    whose date parses, the two drivers agree on cashback and redemption as
    well: the month's silver cashback, gold cashback and coins used are the
    sums of the trace columns over the rows of the target month. *)
Theorem driver_consistency_cashback (df : list row) (r : bucket)
    (customer_results : gmap string customer_result) (trace : list trace_row) :
  histories_start_valid df ->
  calculate_cashback_for_month M cashback_config ltv_brackets expiry_days false df
  = Ok r ->
  calculate_cashback cashback_config ltv_brackets expiry_days df
  = Ok (customer_results, trace) ->
  total_silver_cb r = Py.sum (map t_silver_cb (month_rows M trace))
  /\ total_gold_cb r = Py.sum (map t_gold_cb (month_rows M trace))
  /\ total_coins_used r = Py.sum (map t_coins_used (month_rows M trace)).
Proof.
  unfold calculate_cashback_for_month, calculate_cashback. intros Hdf Hm Hf.
  destruct (rows_lockstep df Hdf _ _ _ _ _ _ Hm Hf) as (rows & Hrows & Hs & Hg & Hc).
  cbn [app] in Hrows. subst rows. repeat split; assumption.
Qed.

End Lockstep.

(* ================================================================== *)
(** * Properties of [create_summary_by_ltv] *)
(* ================================================================== *)

Lemma bracket_customers_ok (cr : gmap string customer_result)
    (brs : list bracket) (b : bracket) :
  brs <> [] ->
  bracket_customers cr brs b = Ok (customers_in brs (br_label b) (map_to_list cr)).
Proof.
  intro Hne. unfold bracket_customers, customers_in.
  induction (map_to_list cr) as [|item items IH]; [reflexivity|].
  cbn [filter_each List.filter].
  destruct (get_ltv_bracket_at (final_ltv item.2) brs Hne) as (c & _ & _ & Hl).
  rewrite Hl, IH. cbn [mbind res_mbind Py.bind].
  destruct (String.eqb (br_label c) (br_label b)); reflexivity.
Qed.

Lemma summary_loop (cr : gmap string customer_result) (brs : list bracket)
    (l : list bracket) :
  brs <> [] ->
  forall summary : list summary_row,
    Py.for_each
      (fun summary b =>
         customers ← bracket_customers cr brs b;
         Ok (summary ++ [summary_row_of b customers]))
      l summary
    = Ok (summary
          ++ map (fun b => summary_row_of
                             b (customers_in brs (br_label b) (map_to_list cr)))
                 l).
Proof.
  intro Hne. induction l as [|b l IH]; intro summary; cbn [Py.for_each map].
  - rewrite app_nil_r. reflexivity.
  - rewrite (bracket_customers_ok cr brs b Hne).
    cbn [mbind res_mbind Py.bind]. rewrite IH, <- app_assoc. reflexivity.
Qed.

Lemma create_summary_by_ltv_rows (cr : gmap string customer_result)
    (brs : list bracket) :
  create_summary_by_ltv cr brs
  = Ok (map (fun b => summary_row_of
                        b (customers_in brs (br_label b) (map_to_list cr)))
            brs).
Proof.
  unfold create_summary_by_ltv. destruct brs as [|b brs]; [reflexivity|].
  rewrite (summary_loop cr (b :: brs) (b :: brs)) by discriminate.
  reflexivity.
Qed.

Lemma summary_row_label (b : bracket) (cs : list (string * customer_result)) :
  s_LTV_Bracket (summary_row_of b cs) = br_label b.
Proof. destruct cs; reflexivity. Qed.

(** X21.  [create_summary_by_ltv] never raises, not even on an empty
    bracket list, where [get_ltv_bracket] would: it returns one row per
    bracket, in the order of the bracket list and with the bracket's label;
    Users is never negative, and in a row with Users 0 every amount is
    zero. *)
Theorem summary_one_row_per_bracket (customer_results : gmap string customer_result)
    (ltv_brackets : list bracket) :
  exists rows,
    create_summary_by_ltv customer_results ltv_brackets = Ok rows
    /\ map s_LTV_Bracket rows = map br_label ltv_brackets
    /\ Forall (fun r => (0 <= s_Users r)%Z
                        /\ (s_Users r = 0%Z ->
                            s_Gold_Revenue r = 0 /\ s_Silver_Revenue r = 0
                            /\ s_Repeat_Revenue r = 0 /\ s_Actual_Promo r = 0
                            /\ s_Silver_CB r = 0 /\ s_Gold_CB r = 0
                            /\ s_CB_Redeemed r = 0 /\ s_Total_Discount r = 0
                            /\ s_Coin_Balance r = 0))
              rows.
Proof.
  eexists. split; [apply create_summary_by_ltv_rows|]. split.
  - rewrite map_map. apply map_ext. intro b. apply summary_row_label.
  - apply List.Forall_forall. intros r Hr. apply in_map_iff in Hr.
    destruct Hr as (b & <- & _).
    destruct (customers_in _ _ _) as [|c cs]; cbn [summary_row_of s_Users].
    + split; [lia|]. intros _. repeat split; apply of_Z_0.
    + split; [lia|]. cbn [length]. lia.
Qed.

Lemma sum_Z_one_label (label : string) (brs : list bracket) :
  NoDup (map br_label brs) -> In label (map br_label brs) ->
  sum_Z (map (fun b => if String.eqb label (br_label b) then 1%Z else 0%Z) brs)
  = 1%Z.
Proof.
  induction brs as [|b brs IH]; cbn [map sum_Z fold_right]; intros Hnd Hin;
    [destruct Hin|].
  apply NoDup_cons in Hnd. destruct Hnd as [Hb Hnd].
  rewrite list_elem_of_In in Hb.
  fold (sum_Z (map (fun b0 => if String.eqb label (br_label b0)
                              then 1%Z else 0%Z) brs)).
  destruct (String.eqb label (br_label b)) eqn:E.
  - apply String.eqb_eq in E. subst label.
    assert (Hz : sum_Z (map (fun b0 => if String.eqb (br_label b) (br_label b0)
                                       then 1%Z else 0%Z) brs) = 0%Z).
    { clear -Hb. induction brs as [|c brs IH]; [reflexivity|].
      cbn [map sum_Z fold_right].
      destruct (String.eqb (br_label b) (br_label c)) eqn:E.
      - apply String.eqb_eq in E. exfalso. apply Hb. left. symmetry. exact E.
      - unfold sum_Z in IH. rewrite IH; [reflexivity|].
        intro K. apply Hb. right. exact K. }
    rewrite Hz. reflexivity.
  - destruct Hin as [Hin | Hin].
    + subst label. rewrite String.eqb_refl in E. discriminate.
    + rewrite (IH Hnd Hin). reflexivity.
Qed.

Lemma users_partition (brs : list bracket)
    (items : list (string * customer_result)) :
  brs <> [] -> NoDup (map br_label brs) ->
  sum_Z (map (fun b => Z.of_nat (length (customers_in brs (br_label b) items)))
             brs)
  = Z.of_nat (length items).
Proof.
  intros Hne Hnd. induction items as [|item items IH].
  - cbn [customers_in List.filter length]. clear.
    induction brs as [|b brs IH]; [reflexivity|].
    cbn [map sum_Z fold_right]. unfold sum_Z in IH. rewrite IH. reflexivity.
  - destruct (get_ltv_bracket_at (final_ltv item.2) brs Hne)
      as (c & _ & Hin & Hl).
    assert (Hsplit : forall l : list bracket,
               sum_Z (map (fun b => Z.of_nat (length (customers_in
                                      brs (br_label b) (item :: items)))) l)
               = (sum_Z (map (fun b => if String.eqb (br_label c) (br_label b)
                                       then 1%Z else 0%Z) l)
                  + sum_Z (map (fun b => Z.of_nat (length (customers_in
                                      brs (br_label b) items))) l))%Z).
    { induction l as [|b l IHl]; [reflexivity|].
      cbn [map sum_Z fold_right]. unfold sum_Z in IHl. rewrite IHl.
      unfold customers_in at 1. cbn [List.filter]. rewrite Hl.
      fold (customers_in brs (br_label b) items).
      destruct (String.eqb (br_label c) (br_label b)); cbn [length]; lia. }
    rewrite Hsplit, IH, sum_Z_one_label; [cbn [length]; lia | exact Hnd |].
    apply in_map. exact Hin.
Qed.

Lemma summary_row_columns (b : bracket) (cs : list (string * customer_result)) :
  s_Users (summary_row_of b cs) = Z.of_nat (length cs)
  /\ s_Gold_Revenue (summary_row_of b cs) = column c_total_gold_rev cs
  /\ s_Silver_Revenue (summary_row_of b cs) = column c_total_silver_rev cs
  /\ s_Repeat_Revenue (summary_row_of b cs) = column repeat_revenue cs
  /\ s_Actual_Promo (summary_row_of b cs) = column c_total_promo cs
  /\ s_Silver_CB (summary_row_of b cs) = column c_total_silver_cb cs
  /\ s_Gold_CB (summary_row_of b cs) = column c_total_gold_cb cs
  /\ s_CB_Redeemed (summary_row_of b cs) = column c_total_coins_used cs
  /\ s_Coin_Balance (summary_row_of b cs) = column final_wallet_balance cs.
Proof. destruct cs; repeat split. Qed.

(** X23.  With a non-empty bracket list of distinct labels every customer
    record is counted in exactly one summary row: Users of a row is the
    number of records whose final LTV resolves to the label of the row, and
    the Users column adds up to the number of records. *)
Theorem summary_partitions_customers
    (customer_results : gmap string customer_result)
    (ltv_brackets : list bracket) (rows : list summary_row) :
  ltv_brackets <> [] ->
  NoDup (map br_label ltv_brackets) ->
  create_summary_by_ltv customer_results ltv_brackets = Ok rows ->
  map s_Users rows
  = map (fun b => Z.of_nat (length (customers_in ltv_brackets (br_label b)
                                      (map_to_list customer_results))))
        ltv_brackets
  /\ sum_Z (map s_Users rows) = Z.of_nat (size customer_results).
Proof.
  intros Hne Hnd. rewrite create_summary_by_ltv_rows. intro H.
  injection H as <-. rewrite !map_map.
  assert (Hu : map (fun b => s_Users
                      (summary_row_of b (customers_in ltv_brackets (br_label b)
                                           (map_to_list customer_results))))
                   ltv_brackets
               = map (fun b => Z.of_nat (length (customers_in
                                 ltv_brackets (br_label b)
                                 (map_to_list customer_results))))
                     ltv_brackets)
    by (apply map_ext; intro b; apply summary_row_columns).
  split; [exact Hu|].
  rewrite Hu, <- length_map_to_list. apply users_partition; assumption.
Qed.

(* ================================================================== *)
(** * From the table to the summary *)
(* ================================================================== *)

Section Pipeline.

Variable cashback_config : gmap string tier.
Variable ltv_brackets : list bracket.
Variable expiry_days : Z.

Local Abbreviation f_order := (full_order cashback_config ltv_brackets expiry_days).

Lemma full_rows_size (df : list row) :
  NoDup (map customer_id df) ->
  forall (cr cr' : gmap string customer_result) (tr tr' : list trace_row),
    (forall rw, In rw df -> cr !! customer_id rw = None) ->
    Py.for_each (full_row cashback_config ltv_brackets expiry_days) df (cr, tr)
    = Ok (cr', tr') ->
    size cr' = (size cr + length df)%nat.
Proof.
  induction df as [|rw df IH]; intros Hnd cr cr' tr tr' Hfresh H;
    cbn [Py.for_each] in H.
  - injection H as <- _. cbn [length]. lia.
  - cbn [map] in Hnd. apply NoDup_cons in Hnd. destruct Hnd as [Hrw Hnd].
    apply bind_Ok in H. destruct H as ([cr1 tr1] & H1 & H).
    unfold full_row in H1.
    apply bind_Ok in H1. destruct H1 as (orders & _ & H1).
    apply bind_Ok in H1. destruct H1 as ([rec tr2] & _ & H2).
    injection H2 as <- <-.
    assert (Hnone : cr !! customer_id rw = None)
      by (apply Hfresh; left; reflexivity).
    lazymatch type of H with
    | Py.for_each _ _ (?m, _) = _ =>
        assert (Hfresh' : forall rw', In rw' df -> m !! customer_id rw' = None)
    end.
    { intros rw' Hin. rewrite lookup_insert_ne.
      - apply Hfresh. right. exact Hin.
      - intro E. apply Hrw. rewrite E. apply list_elem_of_In, in_map, Hin. }
    rewrite (IH Hnd _ _ _ _ Hfresh' H).
    rewrite map_size_insert_None by exact Hnone. cbn [length]. lia.
Qed.

(** X24.  From the table to the summary: with distinct customer ids and a
    non-empty bracket list of distinct labels, the summary by LTV bracket of
    the records of [calculate_cashback] counts every row of the table in
    exactly one of its rows: the Users column adds up to the number of rows
    of the table. *)
Theorem summary_counts_every_row (df : list row)
    (customer_results : gmap string customer_result)
    (trace : list trace_row) (rows : list summary_row) :
  NoDup (map customer_id df) ->
  ltv_brackets <> [] ->
  NoDup (map br_label ltv_brackets) ->
  calculate_cashback cashback_config ltv_brackets expiry_days df
  = Ok (customer_results, trace) ->
  create_summary_by_ltv customer_results ltv_brackets = Ok rows ->
  size customer_results = length df
  /\ sum_Z (map s_Users rows) = Z.of_nat (length df).
Proof.
  intros Hids Hne Hnd Hf Hs. unfold calculate_cashback in Hf.
  assert (Hfresh : forall rw, In rw df ->
                     (∅ : gmap string customer_result) !! customer_id rw = None)
    by (intros rw _; apply lookup_empty).
  pose proof (full_rows_size df Hids _ _ _ _ Hfresh Hf) as Hn.
  rewrite map_size_empty in Hn. cbn [Nat.add] in Hn.
  split; [exact Hn|].
  rewrite create_summary_by_ltv_rows in Hs. injection Hs as <-.
  rewrite map_map, <- Hn, <- length_map_to_list.
  rewrite <- (users_partition ltv_brackets (map_to_list customer_results)
                Hne Hnd).
  f_equal. apply map_ext. intro b. apply summary_row_columns.
Qed.

End Pipeline.

(* ================================================================== *)
(** * The further properties at concrete inputs *)
(* ================================================================== *)

Lemma final_wallet_is_last_row_witness :
  exists rec trace,
    full_customer one_tier one_bracket 180 "C1" [order_b "B"; good_order] []
    = Ok (rec, trace)
    /\ exists rows,
        trace = [] ++ rows
        /\ final_wallet_balance rec
           = match last rows with
             | Some t => t_wallet_balance t
             | None => Py.of_Z 0
             end.
Proof.
  eexists. eexists. split; [vm_compute; reflexivity|].
  eapply (final_wallet_is_last_row one_tier one_bracket 180 "C1"
            [order_b "B"; good_order] []).
  vm_compute. reflexivity.
Defined.

Lemma customers_are_independent_witness :
  exists cr trace,
    calculate_cashback one_tier one_bracket 180
                       (firstn 1 sample_df ++ skipn 1 sample_df)
    = Ok (cr, trace)
    /\ exists cr1 tr1 cr2 tr2,
        calculate_cashback one_tier one_bracket 180 (firstn 1 sample_df)
        = Ok (cr1, tr1)
        /\ calculate_cashback one_tier one_bracket 180 (skipn 1 sample_df)
           = Ok (cr2, tr2)
        /\ cr = cr2 ∪ cr1 /\ trace = tr1 ++ tr2.
Proof.
  eexists. eexists. split; [vm_compute; reflexivity|].
  apply (proj1 (customers_are_independent one_tier one_bracket 180
                  (firstn 1 sample_df) (skipn 1 sample_df) _ _)).
  vm_compute. reflexivity.
Defined.

Lemma last_row_of_a_customer_wins_witness :
  exists cr trace,
    calculate_cashback one_tier one_bracket 180
                       (firstn 1 sample_df
                        ++ repeated_row :: skipn 1 sample_df)
    = Ok (cr, trace)
    /\ dom cr = list_to_set (map customer_id
                               (firstn 1 sample_df
                                ++ repeated_row :: skipn 1 sample_df))
    /\ exists orders rec rows cr1 tr1 cr2 tr2,
        parse_order_history (order_history repeated_row) = Ok orders
        /\ full_customer one_tier one_bracket 180 (customer_id repeated_row)
                         orders [] = Ok (rec, rows)
        /\ calculate_cashback one_tier one_bracket 180 (firstn 1 sample_df)
           = Ok (cr1, tr1)
        /\ calculate_cashback one_tier one_bracket 180 (skipn 1 sample_df)
           = Ok (cr2, tr2)
        /\ trace = tr1 ++ rows ++ tr2
        /\ (~ In (customer_id repeated_row)
                 (map customer_id (skipn 1 sample_df)) ->
            cr !! customer_id repeated_row = Some rec).
Proof.
  eexists. eexists. split; [vm_compute; reflexivity|].
  eapply (last_row_of_a_customer_wins one_tier one_bracket 180
            (firstn 1 sample_df) (skipn 1 sample_df) repeated_row).
  vm_compute. reflexivity.
Defined.

Lemma balances_never_negative_witness :
  exists cr trace,
    calculate_cashback one_tier one_bracket 180 sample_df = Ok (cr, trace)
    /\ Forall (fun t => 0 <= t_wallet_balance t) trace
    /\ (forall cid rec, cr !! cid = Some rec -> 0 <= final_wallet_balance rec).
Proof.
  eexists. eexists. split; [vm_compute; reflexivity|].
  eapply (balances_never_negative one_tier one_bracket 180 sample_df).
  vm_compute. reflexivity.
Defined.

Lemma customer_without_valid_orders_witness :
  full_customer one_tier [] 180 "C1" [na_order] []
  = Ok (zero_result (Z.of_nat (length [na_order])), [])
  /\ month_customer "2024-01" one_tier [] 180 false "C1" [na_order] empty_bucket
     = Ok empty_bucket.
Proof.
  apply (customer_without_valid_orders "2024-01" one_tier [] 180 false "C1"
           [na_order] [] empty_bucket).
  vm_compute. reflexivity.
Defined.

Lemma drivers_raise_on_bad_configuration_witness :
  full_customer one_tier [] 180 "C1" [good_order] [] = Raise IndexError
  /\ month_customer "2024-01" one_tier [] 180 false "C1" [good_order]
                    empty_bucket = Raise IndexError.
Proof.
  apply (proj1 (drivers_raise_on_bad_configuration "2024-01" one_tier [] 180
                  false "C1" [good_order] [] empty_bucket
                  ltac:(intro K; vm_compute in K; discriminate))).
  reflexivity.
Defined.

Lemma month_without_orders_witness :
  exists r,
    calculate_cashback_for_month "2025-07" one_tier one_bracket 180 false
                                 sample_df = Ok r
    /\ r = init_results false one_bracket.
Proof.
  eexists. split; [vm_compute; reflexivity|].
  eapply (month_without_orders "2025-07" one_tier one_bracket 180 false
            sample_df).
  - repeat constructor; intros (orders & Hp & Hn);
      vm_compute in Hp; injection Hp as <-; apply Hn; vm_compute; reflexivity.
  - vm_compute. reflexivity.
Defined.

Lemma month_customers_witness :
  exists r,
    calculate_cashback_for_month "2024-02" one_tier one_bracket 180 false
                                 sample_df = Ok r
    /\ forall cid,
        @has_customer false r cid
        <-> exists rw, In rw sample_df /\ customer_id rw = cid
                       /\ contributes "2024-02" rw.
Proof.
  eexists. split; [vm_compute; reflexivity|].
  eapply (month_customers "2024-02" one_tier one_bracket 180 false sample_df).
  vm_compute. reflexivity.
Defined.

Lemma month_buckets_are_the_labels_witness :
  exists r,
    calculate_cashback_for_month "2024-02" two_tiers two_brackets 180 true
                                 sample_df = Ok r
    /\ dom (r : gmap string bucket) = labels two_brackets.
Proof.
  eexists. split; [vm_compute; reflexivity|].
  eapply (month_buckets_are_the_labels "2024-02" two_tiers two_brackets 180
            sample_df).
  vm_compute. reflexivity.
Defined.

Lemma month_coin_balance_is_final_wallet_witness :
  exists b' rec tr',
    month_customer "2024-01" one_tier one_bracket 180 false "C1"
                   [order_b "B"; good_order] empty_bucket = Ok b'
    /\ full_customer one_tier one_bracket 180 "C1" [order_b "B"; good_order] []
       = Ok (rec, tr')
    /\ total_coin_balance b'
       = total_coin_balance empty_bucket
         + match month_orders "2024-01" [order_b "B"; good_order] with
           | [] => 0
           | _ :: _ => final_wallet_balance rec
           end.
Proof.
  eexists. eexists. eexists.
  split; [vm_compute; reflexivity|]. split; [vm_compute; reflexivity|].
  eapply (month_coin_balance_is_final_wallet "2024-01" one_tier one_bracket 180
            "C1" [order_b "B"; good_order] empty_bucket _ []).
  - vm_compute. reflexivity.
  - vm_compute. reflexivity.
  - vm_compute. reflexivity.
Defined.

Lemma driver_consistency_cashback_witness :
  exists r cr tr,
    calculate_cashback_for_month "2024-02" one_tier one_bracket 180 false
                                 sample_df = Ok r
    /\ calculate_cashback one_tier one_bracket 180 sample_df = Ok (cr, tr)
    /\ total_silver_cb r = Py.sum (map t_silver_cb (month_rows "2024-02" tr))
    /\ total_gold_cb r = Py.sum (map t_gold_cb (month_rows "2024-02" tr))
    /\ total_coins_used r
       = Py.sum (map t_coins_used (month_rows "2024-02" tr)).
Proof.
  eexists. eexists. eexists.
  split; [vm_compute; reflexivity|]. split; [vm_compute; reflexivity|].
  eapply (driver_consistency_cashback "2024-02" one_tier one_bracket 180
            sample_df).
  - repeat constructor; intros orders Hp;
      vm_compute in Hp; injection Hp as <-; vm_compute; reflexivity.
  - vm_compute. reflexivity.
  - vm_compute. reflexivity.
Defined.

Lemma summary_partitions_customers_witness :
  exists cr tr rows,
    calculate_cashback two_tiers two_brackets 180 sample_df = Ok (cr, tr)
    /\ create_summary_by_ltv cr two_brackets = Ok rows
    /\ map s_Users rows
       = map (fun b => Z.of_nat (length (customers_in two_brackets (br_label b)
                                           (map_to_list cr))))
             two_brackets
    /\ sum_Z (map s_Users rows) = Z.of_nat (size cr).
Proof.
  eexists. eexists. eexists.
  split; [vm_compute; reflexivity|]. split; [vm_compute; reflexivity|].
  eapply (summary_partitions_customers _ two_brackets).
  - discriminate.
  - apply (bool_decide_unpack _). vm_compute. exact I.
  - vm_compute. reflexivity.
Defined.

Lemma summary_counts_every_row_witness :
  exists cr tr rows,
    calculate_cashback two_tiers two_brackets 180 sample_df = Ok (cr, tr)
    /\ create_summary_by_ltv cr two_brackets = Ok rows
    /\ size cr = length sample_df
    /\ sum_Z (map s_Users rows) = Z.of_nat (length sample_df).
Proof.
  eexists. eexists. eexists.
  split; [vm_compute; reflexivity|]. split; [vm_compute; reflexivity|].
  eapply (summary_counts_every_row two_tiers two_brackets 180 sample_df).
  - apply (bool_decide_unpack _). vm_compute. exact I.
  - discriminate.
  - apply (bool_decide_unpack _). vm_compute. exact I.
  - vm_compute. reflexivity.
  - vm_compute. reflexivity.
Defined.

(* ================================================================== *)
(** * What the parser reads *)
(* ================================================================== *)

Lemma string_length_app (a b : string) :
  String.length (a ++ b) = (String.length a + String.length b)%nat.
Proof.
  induction a as [|c a IH]; [reflexivity|].
  rewrite string_app_cons. cbn [String.length]. rewrite IH. reflexivity.
Qed.

Lemma take_app (m s : string) : take (String.length m) (m ++ s) = m.
Proof.
  induction m as [|c m IH].
  - rewrite string_app_nil_l. destruct s; reflexivity.
  - rewrite string_app_cons. cbn [String.length take]. rewrite IH. reflexivity.
Qed.

Lemma consumed_app (m s : string) : consumed (m ++ s) s = m.
Proof.
  unfold consumed. rewrite string_length_app.
  replace (String.length m + String.length s - String.length s)%nat
    with (String.length m) by lia.
  apply take_app.
Qed.

Lemma rep_sound {A : Type} (p : ascii -> bool) (s : string) :
  forall (lo : nat) (hi : option nat) (k : string -> option A) (a : A),
    rep p lo hi s k = Some a ->
    exists m s',
      s = (m ++ s')%string /\ all_in p m = true
      /\ (lo <= String.length m)%nat
      /\ match hi with
         | Some h => (String.length m <= h)%nat
         | None => True
         end
      /\ k s' = Some a.
Proof.
  assert (Hstop : forall (s : string) (lo : nat) (hi : option nat)
                         (k : string -> option A) (a : A),
             match lo with O => k s | S _ => None end = Some a ->
             exists m s',
               s = (m ++ s')%string /\ all_in p m = true
               /\ (lo <= String.length m)%nat
               /\ match hi with
                  | Some h => (String.length m <= h)%nat
                  | None => True
                  end
               /\ k s' = Some a).
  { intros s0 lo hi k a H. destruct lo; [|discriminate].
    exists EmptyString, s0. rewrite string_app_nil_l.
    split; [reflexivity|]. split; [reflexivity|]. split; [cbn; lia|].
    split; [destruct hi; cbn; [lia | exact I] | exact H]. }
  induction s as [|c s IH]; intros lo hi k a H; cbn [rep] in H.
  - apply Hstop, H.
  - destruct (p c && room hi)%bool eqn:E; [|apply Hstop, H].
    destruct (rep p (Nat.pred lo) (less hi) s k) as [a'|] eqn:Er;
      [|apply Hstop, H].
    injection H as ->. apply andb_prop in E. destruct E as [Hp Hroom].
    destruct (IH _ _ _ _ Er) as (m & s' & -> & Hall & Hlo & Hhi & Hk).
    exists (String c m), s'. rewrite string_app_cons.
    split; [reflexivity|].
    split; [unfold all_in in *; cbn [list_ascii_of_string forallb];
            rewrite Hp, Hall; reflexivity|].
    split; [cbn [String.length]; lia|].
    split; [|exact Hk].
    destruct hi as [h|]; [|exact I]. cbn [less] in Hhi.
    destruct h; [discriminate|]. cbn [String.length]. cbn in Hhi. lia.
Qed.

Lemma strip_prefix_sound (l : string) :
  forall s s' : string, strip_prefix l s = Some s' -> s = (l ++ s')%string.
Proof.
  induction l as [|a l IH]; intros s s' H; cbn [strip_prefix] in H.
  - injection H as ->. rewrite string_app_nil_l. reflexivity.
  - destruct s as [|b s]; [discriminate|].
    destruct (Ascii.eqb a b) eqn:E; [|discriminate].
    apply Ascii.eqb_eq in E. subst b. rewrite string_app_cons.
    f_equal. apply IH, H.
Qed.

(** The matcher only accepts what the pattern denotes. *)
Lemma run_sound {A : Type} (r : regex) :
  forall (s : string) (gs : list string)
         (k : string -> list string -> option A) (a : A),
    run r s gs k = Some a ->
    exists m s' g,
      s = (m ++ s')%string /\ denotes r m g /\ k s' (gs ++ g) = Some a.
Proof.
  induction r as [l|p lo hi|r1 IH1 r2 IH2|r1 IH1 r2 IH2|r1 IH1];
    intros s gs k a H; cbn [run] in H.
  - destruct (strip_prefix l s) as [s'|] eqn:E; [|discriminate].
    exists l, s', []. rewrite app_nil_r.
    split; [apply strip_prefix_sound, E|]. split; [split; reflexivity | exact H].
  - destruct (rep_sound _ _ _ _ _ _ H) as (m & s' & Hs & Hall & Hlo & Hhi & Hk).
    exists m, s', []. rewrite app_nil_r.
    split; [exact Hs|]. split; [|exact Hk]. cbn [denotes]. repeat split; assumption.
  - destruct (IH1 _ _ _ _ H) as (m1 & s1 & g1 & -> & D1 & H1).
    destruct (IH2 _ _ _ _ H1) as (m2 & s2 & g2 & -> & D2 & H2).
    exists (m1 ++ m2)%string, s2, (g1 ++ g2).
    split; [symmetry; apply string_app_assoc|].
    split; [exists m1, m2, g1, g2; repeat split; assumption|].
    rewrite app_assoc. exact H2.
  - destruct (run r1 s gs k) as [a'|] eqn:E.
    + injection H as ->.
      destruct (IH1 _ _ _ _ E) as (m & s' & g & Hs & D & Hk).
      exists m, s', g. split; [exact Hs|]. split; [left; exact D | exact Hk].
    + destruct (IH2 _ _ _ _ H) as (m & s' & g & Hs & D & Hk).
      exists m, s', g. split; [exact Hs|]. split; [right; exact D | exact Hk].
  - destruct (IH1 _ _ _ _ H) as (m & s' & g & -> & D & Hk).
    rewrite consumed_app in Hk.
    exists m, s', (g ++ [m]). split; [reflexivity|].
    split; [exists g; split; [reflexivity | exact D]|].
    rewrite app_assoc. exact Hk.
Qed.

Lemma search_sound (r : regex) (s : string) (gs : list string) :
  search r s = Some gs -> exists m, denotes r m gs.
Proof.
  induction s as [|c s IH]; cbn [search].
  - destruct (run r EmptyString [] (fun _ gs0 => Some gs0)) as [g|] eqn:E;
      [|discriminate].
    intro H. injection H as ->.
    destruct (run_sound _ _ _ _ _ E) as (m & s' & g & _ & D & Hk).
    injection Hk as <-. exists m. exact D.
  - destruct (run r (String c s) [] (fun _ gs0 => Some gs0)) as [g|] eqn:E.
    + intro H. injection H as ->.
      destruct (run_sound _ _ _ _ _ E) as (m & s' & g & _ & D & Hk).
      injection Hk as <-. exists m. exact D.
    + exact IH.
Qed.

Lemma amount_group (marker order_str g : string) :
  group1 (amount_pattern marker) order_str = Some g -> amount_token g.
Proof.
  unfold group1.
  destruct (search (amount_pattern marker) order_str) as [gs|] eqn:E;
    [|discriminate].
  destruct (search_sound _ _ _ E) as (m & D).
  unfold amount_pattern, cat in D. cbn [fold_right denotes] in D.
  destruct D as (m1 & m2 & g1 & g2 & _ & -> & [_ ->] & D).
  destruct D as (m3 & m4 & g3 & g4 & _ & -> & (_ & _ & _ & ->) & D).
  destruct D as (m5 & m6 & g5 & g6 & _ & -> & D5 & D6).
  destruct D6 as (m7 & m8 & g7 & g8 & _ & -> & (_ & _ & _ & ->) & [_ ->]).
  destruct D5 as (g9 & -> & D).
  destruct D as (a & m9 & ga & g10 & -> & -> & (Ha & Hla & _ & ->) & D).
  destruct D as (b & m10 & gb & g11 & -> & -> & (Hb & _ & Hlb & ->) & D).
  destruct D as (c & m11 & gc & g12 & -> & -> & (Hc & _ & _ & ->) & [-> ->]).
  cbn [app]. intro H. injection H as <-.
  exists a, b, c. rewrite string_app_nil_r.
  split; [reflexivity|]. split; [exact Ha|]. split; [exact Hla|].
  split; [|exact Hc].
  destruct b as [|x b]; [left; reflexivity|].
  destruct b as [|y b]; [|cbn in Hlb; lia]. right.
  unfold all_in in Hb. cbn in Hb. rewrite andb_true_r in Hb.
  unfold chr_is, code in Hb. apply Z.eqb_eq in Hb.
  f_equal. apply (f_equal Z.to_N) in Hb. rewrite N2Z.id in Hb.
  apply (f_equal ascii_of_N) in Hb. rewrite ascii_N_embedding in Hb. exact Hb.
Qed.

Lemma remove_commas_app (a b : string) :
  Py.remove_commas (a ++ b) = (Py.remove_commas a ++ Py.remove_commas b)%string.
Proof.
  induction a as [|c a IH].
  - rewrite !string_app_nil_l. reflexivity.
  - rewrite string_app_cons. cbn [Py.remove_commas].
    destruct (Ascii.eqb c ","); rewrite IH, ?string_app_cons; reflexivity.
Qed.

Lemma digit_not_comma (c : ascii) : digit c = true -> Ascii.eqb c "," = false.
Proof.
  intro H. destruct (Ascii.eqb c ",") eqn:E; [|reflexivity].
  apply Ascii.eqb_eq in E. subst c. discriminate.
Qed.

Lemma digit_not_point (c : ascii) : digit c = true -> Ascii.eqb c "." = false.
Proof.
  intro H. destruct (Ascii.eqb c ".") eqn:E; [|reflexivity].
  apply Ascii.eqb_eq in E. subst c. discriminate.
Qed.

Lemma comma_char (c : ascii) : chr_is 44 c = true -> c = ","%char.
Proof.
  unfold chr_is, code. intro H. apply Z.eqb_eq in H.
  apply (f_equal Z.to_N) in H. rewrite N2Z.id in H.
  apply (f_equal ascii_of_N) in H. rewrite ascii_N_embedding in H. exact H.
Qed.

Lemma remove_commas_digits (s : string) :
  all_in digit s = true -> Py.remove_commas s = s.
Proof.
  unfold all_in. induction s as [|c s IH]; [reflexivity|].
  cbn [list_ascii_of_string forallb Py.remove_commas]. intro H.
  apply andb_prop in H. destruct H as [Hc Hs].
  rewrite (digit_not_comma c Hc), (IH Hs). reflexivity.
Qed.

(** Without its commas, a run of digits and commas is a run of digits, and
    it is empty exactly when the run has no digit. *)
Lemma remove_commas_run (s : string) :
  all_in digit_or_comma s = true ->
  all_in digit (Py.remove_commas s) = true
  /\ (has_digit s = false <-> Py.remove_commas s = EmptyString).
Proof.
  unfold all_in, has_digit. induction s as [|c s IH].
  - intros _. split; [reflexivity|]. split; reflexivity.
  - cbn [list_ascii_of_string forallb existsb Py.remove_commas]. intro H.
    apply andb_prop in H. destruct H as [Hc Hs].
    destruct (IH Hs) as [IH1 IH2]. unfold digit_or_comma in Hc.
    destruct (digit c) eqn:Ed.
    + rewrite (digit_not_comma c Ed).
      cbn [list_ascii_of_string forallb orb]. rewrite Ed, IH1.
      split; [reflexivity|]. split; discriminate.
    + cbn [orb] in Hc |- *. rewrite (comma_char c Hc).
      cbn [Ascii.eqb Bool.eqb]. split; [exact IH1 | exact IH2].
Qed.

Lemma split_point_digits (d rest : string) :
  all_in digit d = true ->
  Py.split_point (d ++ rest)
  = (let '(a, b) := Py.split_point rest in ((d ++ a)%string, b)).
Proof.
  unfold all_in. induction d as [|c d IH]; intro H.
  - rewrite string_app_nil_l. destruct (Py.split_point rest) as [a b].
    rewrite string_app_nil_l. reflexivity.
  - cbn [list_ascii_of_string forallb] in H.
    apply andb_prop in H. destruct H as [Hc Hd].
    rewrite string_app_cons. cbn [Py.split_point].
    rewrite (digit_not_point c Hc), (IH Hd).
    destruct (Py.split_point rest) as [a b]. rewrite string_app_cons.
    reflexivity.
Qed.

Lemma split_point_all_digits (d : string) :
  all_in digit d = true -> Py.split_point d = (d, None).
Proof.
  intro H. rewrite <- (string_app_nil_r d) at 1.
  rewrite (split_point_digits d EmptyString H). cbn.
  rewrite string_app_nil_r. reflexivity.
Qed.

Lemma all_in_app (p : ascii -> bool) (a b : string) :
  all_in p (a ++ b) = all_in p a && all_in p b.
Proof.
  unfold all_in. induction a as [|c a IH].
  - rewrite string_app_nil_l. reflexivity.
  - rewrite string_app_cons. cbn [list_ascii_of_string forallb].
    rewrite IH, andb_assoc. reflexivity.
Qed.

Lemma has_digit_app (a b : string) :
  has_digit (a ++ b) = has_digit a || has_digit b.
Proof.
  unfold has_digit. induction a as [|c a IH].
  - rewrite string_app_nil_l. reflexivity.
  - rewrite string_app_cons. cbn [list_ascii_of_string existsb].
    rewrite IH, orb_assoc. reflexivity.
Qed.

Lemma has_digit_digits (c : string) :
  all_in digit c = true -> (has_digit c = false <-> c = EmptyString).
Proof.
  unfold all_in, has_digit. destruct c as [|x c]; [split; reflexivity|].
  cbn [list_ascii_of_string forallb existsb]. intro H.
  apply andb_prop in H. destruct H as [-> _]. split; discriminate.
Qed.

Lemma digits_val_nonneg (s : string) :
  all_in digit s = true -> (0 <= Py.digits_val s)%Z.
Proof.
  unfold Py.digits_val, all_in.
  assert (H : forall (l : list ascii) (acc : Z),
             forallb digit l = true -> (0 <= acc)%Z ->
             (0 <= fold_left (fun acc c => 10 * acc + Py.digit_val c) l acc)%Z).
  { induction l as [|c l IH]; intros acc Hl Hacc; [exact Hacc|].
    cbn [forallb] in Hl. apply andb_prop in Hl. destruct Hl as [Hc Hl].
    cbn [fold_left]. apply IH; [exact Hl|].
    unfold digit, between, code in Hc. apply andb_prop in Hc.
    destruct Hc as [Hc _]. apply Z.leb_le in Hc. unfold Py.digit_val. lia. }
  intro Hs. apply H; [exact Hs | lia].
Qed.

Lemma decimal_nonneg (n : Z) (k : nat) :
  (0 <= n)%Z -> 0 <= Q2Qc (inject_Z n / inject_Z (10 ^ Z.of_nat k)).
Proof.
  intro Hn.
  assert (H : (0 <= inject_Z n / inject_Z (10 ^ Z.of_nat k))%Q).
  { apply Qle_shift_div_l.
    - change 0%Q with (inject_Z 0). rewrite <- Zlt_Qlt.
      apply Z.pow_pos_nonneg; lia.
    - rewrite Qmult_0_l. change 0%Q with (inject_Z 0). rewrite <- Zle_Qle.
      exact Hn. }
  unfold Qcle. cbn [this Q2Qc].
  eapply Qle_trans; [exact H|]. apply Qle_lteq. right. symmetry.
  apply Qred_correct.
Qed.

(** [float] on an amount token without its commas: the token has a digit
    and the value is not negative, or it has none and [ValueError] is
    raised. *)
Lemma float_amount_token (g : string) :
  amount_token g ->
  (has_digit g = true /\
   exists v, Py.float (Py.remove_commas g) = Ok v /\ 0 <= v)
  \/ (has_digit g = false /\ Py.float (Py.remove_commas g) = Raise ValueError).
Proof.
  intros (a & b & c & -> & Ha & _ & Hb & Hc).
  destruct (remove_commas_run a Ha) as [Ha' Hea].
  pose proof (has_digit_digits c Hc) as Hec.
  rewrite !remove_commas_app, (remove_commas_digits c Hc).
  rewrite !has_digit_app.
  assert (Hsplit : exists ip fp,
             Py.split_point (Py.remove_commas a ++ Py.remove_commas b ++ c)
             = (ip, fp)
             /\ all_in digit ip = true
             /\ all_in digit (match fp with Some f => f | None => EmptyString end)
                = true
             /\ (ip ++ match fp with Some f => f | None => EmptyString end
                 = Py.remove_commas a ++ c)%string
             /\ has_digit b = false).
  { destruct Hb as [-> | ->].
    - exists (Py.remove_commas a ++ c)%string, None.
      cbn [Py.remove_commas]. rewrite string_app_nil_l.
      rewrite split_point_all_digits by (rewrite all_in_app, Ha', Hc; reflexivity).
      cbv beta iota. rewrite all_in_app, Ha', Hc.
      rewrite (string_app_nil_r (Py.remove_commas a ++ c)).
      repeat split; reflexivity.
    - exists (Py.remove_commas a), (Some c).
      rewrite (split_point_digits _ _ Ha').
      change (Py.remove_commas ".") with "."%string.
      rewrite (string_app_cons "." EmptyString c), string_app_nil_l.
      cbn [Py.split_point]. change (Ascii.eqb "." ".") with true.
      cbv beta iota. rewrite (string_app_nil_r (Py.remove_commas a)).
      repeat split; try assumption; reflexivity. }
  destruct Hsplit as (ip & fp & Hsp & Hip & Hfp & Happ & Hbd).
  unfold Py.float. rewrite Hsp, Hbd, orb_false_l.
  set (f := match fp with Some f => f | None => EmptyString end) in *.
  change Py.all_digits with (all_in digit). rewrite Hip, Hfp. cbn [andb].
  rewrite <- string_length_app, Happ.
  destruct (has_digit a || has_digit c) eqn:Ed.
  - left. split; [reflexivity|].
    assert (Hlen : (String.length (Py.remove_commas a ++ c) =? 0)%nat = false).
    { apply Nat.eqb_neq. intro Hz. rewrite string_length_app in Hz.
      assert (Ha0 : Py.remove_commas a = EmptyString)
        by (destruct (Py.remove_commas a); [reflexivity | cbn in Hz; lia]).
      assert (Hc0 : c = EmptyString)
        by (destruct c; [reflexivity | cbn in Hz; lia]).
      apply Hea in Ha0. apply Hec in Hc0. rewrite Ha0, Hc0 in Ed. discriminate. }
    rewrite Hlen. cbn [negb]. eexists. split; [reflexivity|].
    apply decimal_nonneg, digits_val_nonneg.
    rewrite all_in_app, Ha', Hc. reflexivity.
  - right. split; [reflexivity|].
    apply orb_false_elim in Ed. destruct Ed as [Eda Edc].
    apply Hea in Eda. apply Hec in Edc. rewrite Eda, Edc. reflexivity.
Qed.

(** X25.  The amount handed to [float] for a revenue marker is a token of
    digits and commas, at most one point and digits; the field is not
    negative when it is read; and reading it raises exactly when the token
    has no digit, and then [ValueError]. *)
Theorem amount_field_result (marker order_str : string) :
  (forall g, group1 (amount_pattern marker) order_str = Some g ->
             amount_token g)
  /\ (forall v, amount_field marker order_str = Ok v -> 0 <= v)
  /\ (forall e, amount_field marker order_str = Raise e ->
        e = ValueError
        /\ exists g, group1 (amount_pattern marker) order_str = Some g
                     /\ has_digit g = false)
  /\ (forall g, group1 (amount_pattern marker) order_str = Some g ->
        has_digit g = true ->
        exists v, amount_field marker order_str = Ok v).
Proof.
  split; [intros g; apply amount_group|].
  unfold amount_field.
  destruct (group1 (amount_pattern marker) order_str) as [g|] eqn:E.
  - destruct (float_amount_token g (amount_group _ _ _ E))
      as [(Hd & v & Hv & Hnn) | (Hd & Hr)].
    + rewrite Hv. split; [intros v' H; injection H as <-; exact Hnn|].
      split; [intros e H; discriminate|].
      intros g' Hg' _. exists v. reflexivity.
    + rewrite Hr. split; [intros v' H; discriminate|].
      split.
      * intros e H. injection H as <-. split; [reflexivity|].
        exists g. split; [reflexivity | exact Hd].
      * intros g' Hg' Hd'. injection Hg' as <-. congruence.
  - split; [intros v H; injection H as <-; rewrite of_Z_0; apply Qcle_refl|].
    split; intros; discriminate.
Qed.

Lemma amount_field_nonneg (marker order_str : string) (v : Py.num) :
  amount_field marker order_str = Ok v -> 0 <= v.
Proof.
  unfold amount_field.
  destruct (group1 (amount_pattern marker) order_str) as [g|] eqn:E.
  - destruct (float_amount_token g (amount_group _ _ _ E))
      as [(_ & v' & Hv & Hnn) | (_ & Hr)].
    + rewrite Hv. intro H. injection H as <-. exact Hnn.
    + rewrite Hr. discriminate.
  - intro H. injection H as <-. rewrite of_Z_0. apply Qcle_refl.
Qed.

Lemma amount_field_raises (marker order_str : string) (e : exn) :
  amount_field marker order_str = Raise e -> e = ValueError.
Proof.
  unfold amount_field.
  destruct (group1 (amount_pattern marker) order_str) as [g|] eqn:E;
    [|discriminate].
  destruct (float_amount_token g (amount_group _ _ _ E))
    as [(_ & v' & Hv & _) | (_ & Hr)].
  - rewrite Hv. discriminate.
  - rewrite Hr. intro H. injection H as <-. reflexivity.
Qed.

Lemma parse_order_result (order_str : string) :
  (forall o, parse_order order_str = Ok o ->
             0 <= silver_revenue o /\ 0 <= gold_revenue o
             /\ 0 <= promo_amount o)
  /\ (forall e, parse_order order_str = Raise e -> e = ValueError).
Proof.
  unfold parse_order.
  destruct (amount_field ":silver_revenue" order_str) as [s|e1] eqn:E1;
    cbn [mbind res_mbind Py.bind].
  - destruct (amount_field ":gold_revenue" order_str) as [g|e2] eqn:E2;
      cbn [mbind res_mbind Py.bind].
    + destruct (amount_field ":promo_amount" order_str) as [p|e3] eqn:E3;
        cbn [mbind res_mbind Py.bind].
      * split; [|intros e H; discriminate].
        intros o H. injection H as <-.
        cbn [silver_revenue gold_revenue promo_amount].
        split; [exact (amount_field_nonneg _ _ _ E1)|].
        split; [exact (amount_field_nonneg _ _ _ E2)|].
        exact (amount_field_nonneg _ _ _ E3).
      * split; [intros o H; discriminate|].
        intros e H. injection H as <-. exact (amount_field_raises _ _ _ E3).
    + split; [intros o H; discriminate|].
      intros e H. injection H as <-. exact (amount_field_raises _ _ _ E2).
  - split; [intros o H; discriminate|].
    intros e H. injection H as <-. exact (amount_field_raises _ _ _ E1).
Qed.

Lemma parse_orders_nonneg (l : list string) (orders : list order) :
  Py.map_each parse_order l = Ok orders ->
  Forall (fun o => 0 <= silver_revenue o /\ 0 <= gold_revenue o
                   /\ 0 <= promo_amount o) orders
  /\ length orders = length l.
Proof.
  revert orders. induction l as [|x l IH]; intros orders H;
    cbn [Py.map_each] in H.
  - injection H as <-. split; [constructor | reflexivity].
  - apply bind_Ok in H. destruct H as (o & Ho & H).
    apply bind_Ok in H. destruct H as (os & Hos & H). injection H as <-.
    destruct (IH _ Hos) as [IH1 IH2].
    split; [|cbn [length]; rewrite IH2; reflexivity].
    constructor; [|exact IH1].
    exact (proj1 (parse_order_result x) o Ho).
Qed.

(** X26.  [parse_order_history] returns one order per matched sub-record,
    with revenue and promo amounts that are never negative, and the only
    exception it raises is [ValueError]. *)
Theorem parse_order_history_result (order_history_str : string) :
  (forall orders,
      parse_order_history order_history_str = Ok orders ->
      length orders = length (findall order_pattern order_history_str)
      /\ Forall (fun o => 0 <= silver_revenue o /\ 0 <= gold_revenue o
                          /\ 0 <= promo_amount o) orders)
  /\ (forall e, parse_order_history order_history_str = Raise e ->
                e = ValueError).
Proof.
  unfold parse_order_history. split.
  - intros orders H. destruct (parse_orders_nonneg _ _ H) as [H1 H2].
    split; assumption.
  - generalize (findall order_pattern order_history_str).
    induction l as [|x l IH]; intros e H; cbn [Py.map_each] in H;
      [discriminate|].
    destruct (parse_order x) as [o|e'] eqn:Eo; cbn [Py.bind] in H.
    + destruct (Py.map_each parse_order l) as [os|e''] eqn:El;
        cbn [Py.bind] in H; [discriminate|].
      injection H as <-. exact (IH _ eq_refl).
    + injection H as <-. exact (proj2 (parse_order_result x) _ Eo).
Qed.

Lemma findall_no_lbrace (s : string) :
  has_lbrace s = false -> forall skip, findall_from order_pattern skip s = [].
Proof.
  unfold has_lbrace. induction s as [|c s IH]; intros H skip; [reflexivity|].
  cbn [list_ascii_of_string existsb] in H.
  apply orb_false_elim in H. destruct H as [Hc Hs].
  cbn [findall_from]. destruct skip as [|n]; [|apply IH, Hs].
  assert (Hrun : run order_pattern (String c s) []
                     (fun rest _ => Some rest) = None).
  { unfold order_pattern, cat. cbn [fold_right run strip_prefix].
    destruct (Ascii.eqb "{" c) eqn:E; [|reflexivity].
    apply Ascii.eqb_eq in E. subst c. discriminate. }
  rewrite Hrun. apply IH, Hs.
Qed.

(** X27.  A text without an opening brace holds no order: the parser
    returns the empty list, and does not raise. *)
Theorem parse_order_history_no_record (order_history_str : string) :
  has_lbrace order_history_str = false ->
  parse_order_history order_history_str = Ok [].
Proof.
  intro H. unfold parse_order_history, findall.
  rewrite (findall_no_lbrace _ H). reflexivity.
Qed.

Lemma parse_order_history_no_record_witness :
  parse_order_history "nan" = Ok [].
Proof. apply (parse_order_history_no_record "nan"). reflexivity. Defined.

(* ================================================================== *)
(** * From the text of the table to the trace *)
(* ================================================================== *)

Section NonNegative.

Variable cashback_config : gmap string tier.
Variable ltv_brackets : list bracket.
Variable expiry_days : Z.
Hypothesis Hrates : rates_nonneg cashback_config.

Lemma price_order_amounts tag n o d w ltv p :
  amounts_nonneg o ->
  Forall (fun t => 0 <= balance t) w ->
  price_order cashback_config ltv_brackets expiry_days tag n o d w ltv = Ok p ->
  0 <= p_silver_cashback p /\ 0 <= p_gold_cashback p /\ 0 <= p_coins_used p
  /\ Forall (fun t => 0 <= balance t) (p_wallet p).
Proof.
  intros (Hs & Hg & _) Hw H.
  pose proof (price_order_nonneg _ _ _ _ _ _ _ _ _ _ Hw H) as Hw'.
  destruct (price_order_shape _ _ _ _ _ _ _ _ _ _ H)
    as (c & Hc & _ & _ & _ & Hsc & Hgc & _ & Hm & _).
  destruct (Hrates _ _ Hc) as (Hr1 & Hr2 & Hr3).
  split; [rewrite Hsc; apply Qcmult_nonneg; [exact Hs | apply pct_nonneg, Hr1]|].
  split; [rewrite Hgc; apply Qcmult_nonneg; [exact Hg | apply pct_nonneg, Hr2]|].
  split; [|exact Hw'].
  refine (proj1 (coins_used_range _ _ _ _ _ _ _ _ _ _ H Hw _)).
  intros m Hm'. rewrite Hm in Hm'. destruct (1 <? n)%Z; [|discriminate].
  injection Hm' as <-. apply Qcmult_nonneg; [|apply pct_nonneg, Hr3].
  unfold order_value. rewrite <- (Qcplus_0_l 0). apply Qcplus_le_compat; assumption.
Qed.

Lemma full_loop_rows_nonneg (cid : string) (l : list order) :
  forall (n : Z) (st st' : full_state),
    Forall amounts_nonneg l ->
    Forall (fun t => 0 <= balance t) (f_wallet st) ->
    Forall row_nonneg (f_monthly_results st) ->
    Py.for_each (full_order cashback_config ltv_brackets expiry_days cid)
                (Py.enumerate n l) st = Ok st' ->
    Forall row_nonneg (f_monthly_results st').
Proof.
  induction l as [|o l IH]; intros n st st' Hl Hw Ht H;
    cbn [Py.enumerate Py.for_each] in H.
  - injection H as <-. exact Ht.
  - inversion Hl as [|? ? Ho Hl']; subst.
    apply bind_Ok in H. destruct H as (st1 & H1 & H).
    unfold full_order in H1.
    destruct (strptime (order_date o)) as [d|].
    + remember (strftime_Ym d) as mk eqn:Hmk. clear Hmk.
      apply bind_Ok in H1. destruct H1 as (p & Hp & H1).
      destruct (price_order_amounts _ _ _ _ _ _ _ Ho Hw Hp)
        as (Hsc & Hgc & Hcu & Hw').
      injection H1 as <-. apply (IH _ _ _ Hl') in H; [exact H | exact Hw' |].
      cbn [f_monthly_results]. apply Forall_app. split; [exact Ht|].
      constructor; [|constructor]. destruct Ho as (Hs & Hg & _).
      unfold row_nonneg.
      cbn [t_silver_rev t_gold_rev t_silver_cb t_gold_cb t_coins_used
           t_wallet_balance].
      repeat split; try assumption. apply wallet_sum_nonneg, Hw'.
    + injection H1 as <-. exact (IH _ _ _ Hl' Hw Ht H).
Qed.

(** X28.  From the text of the table to the trace: when no rate of the
    configuration is negative, no amount in the per-order trace is negative,
    neither revenue, cashback, coins used nor wallet balance, whatever the
    order histories contain. *)
Theorem trace_is_nonnegative (df : list row)
    (customer_results : gmap string customer_result) (trace : list trace_row) :
  calculate_cashback cashback_config ltv_brackets expiry_days df
  = Ok (customer_results, trace) ->
  Forall row_nonneg trace.
Proof.
  unfold calculate_cashback.
  assert (G : forall (df : list row) (cr cr' : gmap string customer_result)
                     (tr tr' : list trace_row),
             Forall row_nonneg tr ->
             Py.for_each (full_row cashback_config ltv_brackets expiry_days)
                         df (cr, tr) = Ok (cr', tr') ->
             Forall row_nonneg tr').
  { clear df customer_results trace.
    induction df as [|rw df IH]; intros cr cr' tr tr' Ht H;
      cbn [Py.for_each] in H.
    - injection H as _ <-. exact Ht.
    - apply bind_Ok in H. destruct H as ([cr1 tr1] & H1 & H).
      refine (IH _ _ _ _ _ H). clear H IH. unfold full_row in H1.
      apply bind_Ok in H1. destruct H1 as (orders & Hp & H1).
      apply bind_Ok in H1. destruct H1 as ([rec tr2] & H1 & H2).
      injection H2 as _ <-. unfold full_customer in H1.
      apply bind_Ok in H1. destruct H1 as (st & Hloop & H1).
      injection H1 as _ <-.
      refine (full_loop_rows_nonneg _ _ _ (init_full tr) _ _ _ Ht Hloop);
        [|constructor].
      eapply Permutation_Forall; [symmetry; apply sort_by_perm|].
      unfold parse_order_history in Hp.
      exact (proj1 (parse_orders_nonneg _ _ Hp)). }
  intro H. exact (G df _ _ _ _ (List.Forall_nil _) H).
Qed.

End NonNegative.

Lemma trace_is_nonnegative_witness :
  exists cr trace,
    calculate_cashback two_tiers two_brackets 180 sample_df = Ok (cr, trace)
    /\ Forall row_nonneg trace.
Proof.
  assert (Hr : rates_nonneg two_tiers).
  { unfold rates_nonneg, two_tiers. apply map_Forall_insert_2.
    - repeat split; intro K; vm_compute in K; discriminate.
    - apply map_Forall_singleton.
      repeat split; intro K; vm_compute in K; discriminate. }
  eexists. eexists. split; [vm_compute; reflexivity|].
  eapply (trace_is_nonnegative two_tiers two_brackets 180 Hr sample_df).
  vm_compute. reflexivity.
Defined.
